(** * Conversation context manager, worker and user database

    A shallow embedding of [conversation_manager.py] (the per-user bounded
    history, keyword extraction and topic-change detection), of the parts
    of [fast_main.py] that dispatch a job ([worker]), admit a request
    ([validate_and_sanitize_input], [queue_job_handler]) and send a reply
    ([send_formatted_message], [send_long_message]), and of the functions
    of [database_manager.py] that keep the plan and the usage of a user.

    Conventions of the embedding:
    - a Python [str] is a Rocq [string]; its 8-bit characters are read as the
      code points U+0000..U+00FF (Latin-1), and the character classes of
      [str.lower], [str.isspace] and the regular expression class [\w] are
      the ones Python has on that range;
    - a Python [set] of strings is a [gset string]; the order in which
      CPython iterates over a set depends on the string hashes of the
      process, so it is a parameter of the model ([PyHash]);
    - a Python [dict] keyed by user id is a [gmap Z _];
    - [time.time()] is a parameter too: [clock n] is what the n-th call in
      the process returns, and the globals count the calls made so far;
      readings are only stored and compared for equality, so they are
      taken in [Z];
    - the worker is followed through one job at a time: what the other
      workers do between two of its steps is not part of the model, and
      the replies and sleeps of a job are assumed not to raise;
    - the float comparison of [detect_topic_change] is computed with
      binary64 floats ([PrimFloat]), as Python does;
    - the tables [users] and [usage_stats] are finite maps by their keys,
      with the columns that the embedded functions read or write; a
      statement is a function on the tables, and [datetime.now()] is an
      argument of the function that calls it, a [datetime] of the years 1
      to 9999 counted in microseconds;
    - an INTEGER column holds a signed 64-bit number: user ids are those
      of Telegram, which fit it; [update_token_usage] is followed to the
      end of that range, where the binding of the argument raises or the
      column turns into a REAL; the other counters are followed inside
      the range;
    - what the end of a job and the handlers do outside the process (the
      replies, the calls of the database, the removal of a file) is
      recorded as a list of effects; a reply raises only when there is no
      message to reply to, and the file of a picture exists. *)

From Stdlib Require Import PrimFloat Ascii String.
From stdpp Require Import gmap strings list sorting.

(** ** Python strings *)

Module Py.

Definition chars : string → list ascii := String.list_ascii_of_string.
Definition str : list ascii → string := String.string_of_list_ascii.

Definition code (c : ascii) : nat := nat_of_ascii c.

Definition between (lo hi : nat) (c : ascii) : bool :=
  (lo <=? code c) && (code c <=? hi).

(** [[a-z]], [[A-Z]], [[0-9]] and the class [[a-zA-Z]] of the patterns. *)
Definition is_ascii_lower (c : ascii) : bool := between 97 122 c.
Definition is_ascii_upper (c : ascii) : bool := between 65 90 c.
Definition is_ascii_digit (c : ascii) : bool := between 48 57 c.
Definition is_ascii_alpha (c : ascii) : bool :=
  is_ascii_lower c || is_ascii_upper c.

(** Code points of U+0080..U+00FF for which [str.isalnum] holds. *)
Definition is_latin1_alnum (c : ascii) : bool :=
  bool_decide (code c ∈ [170; 178; 179; 181; 185; 186; 188; 189; 190])
  || between 192 214 c || between 216 246 c || between 248 255 c.

(** The class [\w] of a [str] pattern: alphanumeric or underscore. *)
Definition is_word (c : ascii) : bool :=
  is_ascii_alpha c || is_ascii_digit c || (code c =? 95) || is_latin1_alnum c.

(** [str.isspace] on one character. *)
Definition is_space (c : ascii) : bool :=
  between 9 13 c || between 28 32 c || (code c =? 133) || (code c =? 160).

(** Characters that [str.lower] changes: it adds 32 to each. *)
Definition is_upper (c : ascii) : bool :=
  is_ascii_upper c || (between 192 222 c && negb (code c =? 215)).

Definition lower_char (c : ascii) : ascii :=
  if is_upper c then ascii_of_nat (code c + 32) else c.

Definition lower_chars (s : list ascii) : list ascii := map lower_char s.

(** [text.lower()] *)
Definition lower (text : string) : string := str (lower_chars (chars text)).

(** [s.startswith(p)] and the operator [needle in hay] on character lists. *)
Fixpoint starts_with (p s : list ascii) : bool :=
  match p, s with
  | [], _ => true
  | _ :: _, [] => false
  | a :: p', b :: s' => bool_decide (a = b) && starts_with p' s'
  end.

Fixpoint contains_chars (needle hay : list ascii) : bool :=
  starts_with needle hay ||
  match hay with
  | [] => false
  | _ :: hay' => contains_chars needle hay'
  end.

(** [needle in hay] *)
Definition contains (needle hay : string) : bool :=
  contains_chars (chars needle) (chars hay).

(** The maximal runs of characters between separators, empty runs included:
    what [re.split] gives for a one-character separator class. *)
Fixpoint fields (sep : ascii → bool) (s : list ascii) : list (list ascii) :=
  match s with
  | [] => [[]]
  | c :: s' =>
      if sep c then [] :: fields sep s'
      else match fields sep s' with
           | r :: rs => (c :: r) :: rs
           | [] => [[c]]
           end
  end.

(** The maximal runs of [\w] characters of a text. *)
Definition word_runs (s : list ascii) : list (list ascii) :=
  fields (λ c, negb (is_word c)) s.

(** [text.split()]: the non-empty maximal runs of non-whitespace. *)
Definition split (s : list ascii) : list (list ascii) :=
  filter (λ r, r ≠ []) (fields is_space s).

(** [" ".join(parts)] *)
Fixpoint join_space (parts : list (list ascii)) : list ascii :=
  match parts with
  | [] => []
  | [p] => p
  | p :: ps => p ++ " "%char :: join_space ps
  end.

(** [text.strip()] *)
Fixpoint lstrip (s : list ascii) : list ascii :=
  match s with
  | c :: s' => if is_space c then lstrip s' else s
  | [] => []
  end.

Definition strip (s : list ascii) : list ascii :=
  reverse (lstrip (reverse (lstrip s))).

(** [re.findall(r'\b[a-zA-Z]{3,}\b', s)].  A match starts at a word boundary
    on an ASCII letter, takes letters greedily and has to end at a word
    boundary; since letters are word characters, the match is a maximal run
    of [\w] characters that consists of at least three ASCII letters, and
    the scan resumes after it. *)
Definition is_alpha3 (r : list ascii) : bool :=
  forallb is_ascii_alpha r && (3 <=? length r).

Definition findall_alpha3 (s : list ascii) : list (list ascii) :=
  filter (λ r, is_alpha3 r = true) (word_runs s).

End Py.

(** ** Sets of strings and their iteration order *)

(** [set_iter l] is what [list(s)] gives for the set [s] built by adding the
    items of [l] from left to right: each item once, in an order that the
    string hashes of the process decide. *)
Record PyHash := {
  set_iter : list string → list string;
  set_iter_NoDup : ∀ l, NoDup (set_iter l);
  set_iter_elem : ∀ l x, x ∈ set_iter l ↔ x ∈ l
}.

(** The items of a list in the order of their first occurrence. *)
Fixpoint first_occurrences (l : list string) : list string :=
  match l with
  | [] => []
  | x :: l' => x :: filter (λ y, y ≠ x) (first_occurrences l')
  end.

(** Two iteration orders: the one that happens to follow the insertions and
    the one that reverses them. *)
Program Definition insertion_order : PyHash :=
  {| set_iter := first_occurrences |}.
Next Obligation.
  intros l. induction l as [|a l IH]; simpl; constructor.
  - rewrite list_elem_of_filter. by intros [? _].
  - by apply NoDup_filter.
Qed.
Next Obligation.
  intros l x. revert x. induction l as [|a l IH]; intros x; simpl; [done|].
  rewrite !elem_of_cons, list_elem_of_filter, IH.
  destruct (decide (x = a)); tauto.
Qed.

Program Definition reversed_order : PyHash :=
  {| set_iter l := reverse (first_occurrences l) |}.
Next Obligation.
  intros l. rewrite reverse_Permutation.
  apply (set_iter_NoDup insertion_order).
Qed.
Next Obligation.
  intros l x. rewrite elem_of_reverse.
  apply (set_iter_elem insertion_order).
Qed.

(** ** conversation_manager.py *)

Definition MAX_HISTORY_LENGTH : nat := 12.

(** [TOPIC_CHANGE_THRESHOLD = 0.7]: the literal denotes the binary64 value
    nearest to 7/10, written here in hexadecimal. *)
Definition TOPIC_CHANGE_THRESHOLD : float := 0x1.6666666666666p-1%float.

Definition AUTO_RESET_KEYWORDS : list string :=
  [ "new topic"; "change subject"; "something else"; "different question";
    "by the way"; "btw"; "moving on"; "next question"; "different topic" ].

(** The literal of [extract_topic_keywords]; ["her"] is written twice there. *)
Definition stopwords : list string :=
  [ "the"; "a"; "an"; "and"; "or"; "but"; "in"; "on"; "at"; "to"; "for"; "of";
    "with"; "by"; "from"; "up"; "about"; "into"; "through"; "during"; "before";
    "after"; "above"; "below"; "between"; "among"; "is"; "are"; "was"; "were";
    "be"; "been"; "being"; "have"; "has"; "had"; "do"; "does"; "did"; "will";
    "would"; "could"; "should"; "may"; "might"; "must"; "can"; "this"; "that";
    "these"; "those"; "i"; "you"; "he"; "she"; "it"; "we"; "they"; "me"; "him";
    "her"; "us"; "them"; "my"; "your"; "his"; "her"; "its"; "our"; "their" ].

(** A message of the history: the dict built by [add_message]. *)
Record Message := {
  msg_role : string;
  msg_content : string;
  msg_timestamp : Z;
  msg_topic_keywords : gset string
}.

Global Instance Message_eq_dec : EqDecision Message.
Proof. solve_decision. Defined.

(** [class ConversationContext]; [messages] is the content of the
    [deque(maxlen=MAX_HISTORY_LENGTH)], oldest first. *)
Record ConversationContext := {
  messages : list Message;
  current_topic : option string;
  topic_keywords : gset string;
  last_reset : Z
}.

(** [deque.append] with [maxlen]: the item goes to the right end and, when
    the deque is then over its bound, the leftmost item is dropped. *)
Definition deque_append (maxlen : nat) (x : Message) (d : list Message)
  : list Message :=
  let d' := d ++ [x] in
  if maxlen <? length d' then drop 1 d' else d'.

(** [ConversationContext.__init__], with the reading [t] of the clock. *)
Definition ConversationContext_init (t : Z) : ConversationContext :=
  {| messages := []; current_topic := None; topic_keywords := ∅;
     last_reset := t |}.

(** The truth value of an optional set: [None] and the empty set are false. *)
Definition set_truthy (s : option (gset string)) : bool :=
  match s with
  | Some k => negb (bool_decide (k = ∅))
  | None => false
  end.

(** [ConversationContext.add_message], with the reading [t] of the clock. *)
Definition add_message (role content : string) (kws : option (gset string))
    (t : Z) (c : ConversationContext) : ConversationContext :=
  let message :=
    {| msg_role := role; msg_content := content; msg_timestamp := t;
       msg_topic_keywords := if set_truthy kws then default ∅ kws else ∅ |} in
  {| messages := deque_append MAX_HISTORY_LENGTH message (messages c);
     current_topic := current_topic c;
     topic_keywords :=
       if set_truthy kws then topic_keywords c ∪ default ∅ kws
       else topic_keywords c;
     last_reset := last_reset c |}.

(** [list.index]: the position of the first item equal to [x].  Python raises
    [ValueError] when there is none; the model gives the length then, and
    [get_relevant_messages] only asks for items of the list. *)
Fixpoint index (x : Message) (l : list Message) : nat :=
  match l with
  | [] => 0
  | y :: l' => if decide (y = x) then 0 else S (index x l')
  end.

(** [ConversationContext.get_relevant_messages] *)
Definition get_relevant_messages (c : ConversationContext)
    (current_keywords : gset string) : list Message :=
  if bool_decide (current_keywords = ∅) then messages c
  else
    filter
      (λ msg,
         length (messages c) - index msg (messages c) ≤ 4
         ∨ (msg_topic_keywords msg ≠ ∅
            ∧ 0 < size (msg_topic_keywords msg ∩ current_keywords)))
      (messages c).

(** [ConversationContext.clear_context], with the reading [t] of the clock. *)
Definition clear_context (t : Z) (c : ConversationContext)
  : ConversationContext :=
  {| messages := []; current_topic := None; topic_keywords := ∅;
     last_reset := t |}.

(** Python's [int / int] for the sizes of sets: both operands convert
    exactly (they are far below 2^53) and the quotient is rounded once. *)
Fixpoint float_of_nat (n : nat) : float :=
  match n with
  | O => 0%float
  | S k => (float_of_nat k + 1)%float
  end.

(** [detect_topic_change] *)
Definition detect_topic_change (old_keywords new_keywords : gset string)
  : bool :=
  if bool_decide (old_keywords = ∅) || bool_decide (new_keywords = ∅)
  then false
  else
    let intersection := size (old_keywords ∩ new_keywords) in
    let union := size (old_keywords ∪ new_keywords) in
    if union =? 0 then false
    else
      let similarity := (float_of_nat intersection / float_of_nat union)%float in
      PrimFloat.ltb similarity (1 - TOPIC_CHANGE_THRESHOLD)%float.

(** [detect_explicit_topic_change] *)
Definition detect_explicit_topic_change (text : string) : bool :=
  let text_lower := Py.lower text in
  existsb (λ keyword, Py.contains keyword text_lower) AUTO_RESET_KEYWORDS.

(** The two notifications of [add_to_conversation_history]: the texts
    "New conversation started - Context cleared!" and
    "Topic change detected - Starting fresh context!". *)
Inductive ResetNotice := ExplicitReset | AutomaticReset.

(** The module globals [conversation_histories] and [user_topics], and the
    number of calls of [time.time()] made so far. *)
Record Globals := {
  conversation_histories : gmap Z ConversationContext;
  user_topics : gmap Z (gset string);
  time_calls : nat
}.

Definition initial_globals : Globals :=
  {| conversation_histories := ∅; user_topics := ∅; time_calls := 0 |}.

Section Process.

(** The string hashing and the clock of the running process. *)
Variable hash : PyHash.
Variable clock : nat → Z.

(** [extract_topic_keywords]: the set comprehension adds the words that are
    no stopwords from left to right; [list(keywords)[:10]] takes the first
    ten in the iteration order of that set. *)
Definition extract_topic_keywords (text : string) : gset string :=
  let words := map Py.str (Py.findall_alpha3 (Py.chars (Py.lower text))) in
  let keywords := filter (λ word, word ∉ stopwords) words in
  list_to_set (take 10 (set_iter hash keywords)).

(** The next reading of [time.time()]. *)
Definition now (g : Globals) : Z := clock (time_calls g).

Definition tick (g : Globals) : Globals :=
  {| conversation_histories := conversation_histories g;
     user_topics := user_topics g;
     time_calls := S (time_calls g) |}.

Definition store_context (user_id : Z) (c : ConversationContext) (g : Globals)
  : Globals :=
  {| conversation_histories := <[user_id := c]> (conversation_histories g);
     user_topics := user_topics g;
     time_calls := time_calls g |}.

Definition store_topic (user_id : Z) (k : gset string) (g : Globals)
  : Globals :=
  {| conversation_histories := conversation_histories g;
     user_topics := <[user_id := k]> (user_topics g);
     time_calls := time_calls g |}.

Definition delete_topic (user_id : Z) (g : Globals) : Globals :=
  {| conversation_histories := conversation_histories g;
     user_topics := delete user_id (user_topics g);
     time_calls := time_calls g |}.

(** The first lines of both accessors: create the context of a user who has
    none, then read it. *)
Definition context_of (user_id : Z) (g : Globals)
  : ConversationContext * Globals :=
  match conversation_histories g !! user_id with
  | Some c => (c, g)
  | None =>
      let c := ConversationContext_init (now g) in
      (c, store_context user_id c (tick g))
  end.

(** [get_conversation_history]: the history as pairs of role and content. *)
Definition get_conversation_history (user_id : Z) (g : Globals)
  : list (string * string) * Globals :=
  let '(context, g) := context_of user_id g in
  let current_keywords := default ∅ (user_topics g !! user_id) in
  let relevant_messages := get_relevant_messages context current_keywords in
  (map (λ msg, (msg_role msg, msg_content msg)) relevant_messages, g).

(** The topic-change checks of [add_to_conversation_history] for a message of
    role "user": the context after them, the notification and the globals. *)
Definition check_topic_change (content : string)
    (current_keywords new_keywords : gset string)
    (context : ConversationContext) (g : Globals)
  : ConversationContext * option ResetNotice * Globals :=
  if detect_explicit_topic_change content then
    (clear_context (now g) context, Some ExplicitReset, tick g)
  else if negb (bool_decide (current_keywords = ∅))
          && detect_topic_change current_keywords new_keywords then
    if 4 <=? length (messages context) then
      (clear_context (now g) context, Some AutomaticReset, tick g)
    else (context, None, g)
  else (context, None, g).

(** [add_to_conversation_history] *)
Definition add_to_conversation_history (user_id : Z) (role content : string)
    (g : Globals) : option ResetNotice * Globals :=
  let '(context, g) := context_of user_id g in
  let new_keywords := extract_topic_keywords content in
  let current_keywords := default ∅ (user_topics g !! user_id) in
  let '(context, context_reset_message, g) :=
    if bool_decide (role = "user") then
      let '(context, notice, g) :=
        check_topic_change content current_keywords new_keywords context g in
      (context, notice, store_topic user_id new_keywords g)
    else (context, None, g) in
  let context :=
    add_message role content
      (if bool_decide (role = "user") then Some new_keywords else None)
      (now g) context in
  (context_reset_message, store_context user_id context (tick g)).

(** [clear_user_context] *)
Definition clear_user_context (user_id : Z) (g : Globals) : bool * Globals :=
  match conversation_histories g !! user_id with
  | Some c =>
      let g := store_context user_id (clear_context (now g) c) (tick g) in
      (true, if bool_decide (is_Some (user_topics g !! user_id))
             then delete_topic user_id g else g)
  | None => (false, g)
  end.

End Process.

(** ** fast_main.py: admission of a request *)

(** The third component of the result of [validate_and_sanitize_input]: the
    empty string, or one of the four messages "Empty Input", "Input Too Long"
    (which prints the bound and the current length), "Input Too Short" and
    "Invalid Input". *)
Inductive ErrorMessage :=
| NoError
| EmptyInput
| InputTooLong (max_length current_length : nat)
| InputTooShort
| InvalidInput.

(** The alternatives of [(?i)\b(spam|test|aaa+|111+)\b] on a maximal run of
    word characters: the pattern is anchored at word boundaries on both
    sides and matches word characters only, so it matches a whole run. *)
Definition is_low_content (run : list ascii) : bool :=
  let folded := Py.lower_chars run in
  bool_decide (folded = Py.chars "spam")
  || bool_decide (folded = Py.chars "test")
  || (forallb (λ c, bool_decide (c = "a"%char)) folded && (3 <=? length run))
  || (forallb (λ c, bool_decide (c = "1"%char)) run && (3 <=? length run)).

(** [re.search(r'(?i)\b(spam|test|aaa+|111+)\b', s)] as a truth value. *)
Definition search_low_content (s : list ascii) : bool :=
  existsb is_low_content (Py.word_runs s).

(** The number of characters equal to [c] that [s] starts with. *)
Fixpoint run_length (c : ascii) (s : list ascii) : nat :=
  match s with
  | c' :: s' => if decide (c' = c) then S (run_length c s') else 0
  | [] => 0
  end.

(** [re.search(r'(.)\1{n,}', s)] as a truth value: some character other than
    the newline followed by at least [n] copies of itself. *)
Fixpoint search_repeated (n : nat) (s : list ascii) : bool :=
  match s with
  | [] => false
  | c :: s' =>
      (negb (bool_decide (c = "010"%char)) && (n <=? run_length c s'))
      || search_repeated n s'
  end.

(** [" ".join(text.strip().split())] *)
Definition normalize_whitespace (text : string) : list ascii :=
  Py.join_space (Py.split (Py.strip (Py.chars text))).

(** [validate_and_sanitize_input] *)
Definition validate_and_sanitize_input (text : string) (max_length : nat)
  : bool * string * ErrorMessage :=
  if bool_decide (text = "") || bool_decide (Py.strip (Py.chars text) = [])
  then (false, "", EmptyInput)
  else
    let cleaned := normalize_whitespace text in
    if max_length <? length cleaned
    then (false, "", InputTooLong max_length (length cleaned))
    else if length cleaned <? 3 then (false, "", InputTooShort)
    else if ((length cleaned <? 20) && search_low_content cleaned)
            || search_repeated 20 cleaned
    then (false, "", InvalidInput)
    else (true, Py.str cleaned, NoError).

(** ** fast_main.py: the retry loop of the worker *)

(** An entry of [job.tools]: the name of a built-in tool or the dict of a
    custom function. *)
Inductive Tool :=
| BuiltinTool (name : string)
| FunctionTool (name description : string).

Global Instance Tool_eq_dec : EqDecision Tool.
Proof. solve_decision. Defined.

(** A job, with what the worker reads of its update: the user id and
    whether [job.update.message] is set. *)
Record Job := {
  job_user_id : Z;
  job_has_message : bool;
  job_prompt : string;
  job_tools : list Tool
}.

(** ["image_generation" in job.tools] *)
Definition wants_image (job : Job) : bool :=
  bool_decide (BuiltinTool "image_generation" ∈ job_tools job).

(** What [mistral_send_prompt] returns: [None], a string or a dict. *)
Inductive ApiResult :=
| ResultNone
| ResultStr (text : string)
| ResultDict (type : string) (calls : list (string * string)).

(** What one call of the model does: raise (with the text of the exception)
    or return. *)
Inductive Attempt :=
| Raises (error : string)
| Returns (result : ApiResult).

(** What the loop does that is visible outside the process. *)
Inductive Event :=
| ModelCall (prompt : string) (history : list (string * string))
| Sleep (seconds : nat)
| RetryNotice (attempt max_retries : nat).

(** How the loop of one job ends: with the value of [result] and the
    variables the rest of the job reads, or with the exception that goes to
    the outer handler. *)
Inductive LoopExit :=
| LoopResult (result : ApiResult) (prompt_to_send : string)
    (context_reset_message : option ResetNotice)
| LoopRaised (error : string).

Definition max_retries : nat := 3.

Section Worker.

Variable hash : PyHash.
Variable clock : nat → Z.

(** The body of [try] inside the loop up to the call: fetch the history,
    append the prompt unless the job asks for an image, fix the prompt. *)
Definition prepare_call (job : Job) (prompt_to_send : string)
    (context_reset_message : option ResetNotice) (g : Globals)
  : Event * string * option ResetNotice * Globals :=
  let '(history, g) := get_conversation_history clock (job_user_id job) g in
  let '(context_reset_message, g) :=
    if negb (wants_image job)
    then add_to_conversation_history hash clock (job_user_id job) "user"
           (job_prompt job) g
    else (context_reset_message, g) in
  let prompt_to_send :=
    if wants_image job
    then "Generate a high-quality, detailed image of: " +:+ job_prompt job
    else prompt_to_send in
  (ModelCall prompt_to_send history, prompt_to_send, context_reset_message, g).

(** [while retry_count < max_retries and result is None], one model call
    per iteration; [script] says what the successive calls do.  The loop is
    entered with [result = None] and left as soon as a call returns another
    value; the answer is [None] when the loop is still running after the
    last call of the script. *)
Fixpoint retry_loop (job : Job) (script : list Attempt) (retry_count : nat)
    (prompt_to_send : string) (context_reset_message : option ResetNotice)
    (g : Globals) (trace : list Event)
  : option (LoopExit * Globals * list Event) :=
  if negb (retry_count <? max_retries)
  then Some (LoopResult ResultNone prompt_to_send context_reset_message,
             g, trace)
  else
    match script with
    | [] => None
    | attempt :: script =>
        let '(call, prompt_to_send, context_reset_message, g) :=
          prepare_call job prompt_to_send context_reset_message g in
        let trace := trace ++ [call] in
        match attempt with
        | Returns ResultNone =>
            retry_loop job script retry_count prompt_to_send
              context_reset_message g trace
        | Returns result =>
            Some (LoopResult result prompt_to_send context_reset_message,
                  g, trace)
        | Raises api_error =>
            let retry_count := S retry_count in
            if retry_count <? max_retries then
              let trace := trace ++ [Sleep (2 ^ retry_count)] in
              let trace :=
                if job_has_message job
                then trace ++ [RetryNotice (retry_count + 1) max_retries]
                else trace in
              retry_loop job script retry_count prompt_to_send
                context_reset_message g trace
            else Some (LoopRaised api_error, g, trace)
        end
    end.

(** The loop as the worker enters it for a job. *)
Definition run_job (job : Job) (script : list Attempt) (g : Globals)
  : option (LoopExit * Globals * list Event) :=
  retry_loop job script 0 (job_prompt job) None g [].

End Worker.

(** The model calls, the sleeps and the notices of a trace. *)
Definition model_calls (trace : list Event) : list string :=
  omap (λ e, match e with ModelCall p _ => Some p | _ => None end) trace.

Definition sleeps (trace : list Event) : list nat :=
  omap (λ e, match e with Sleep s => Some s | _ => None end) trace.

Definition retry_notices (trace : list Event) : list (nat * nat) :=
  omap (λ e, match e with RetryNotice k m => Some (k, m) | _ => None end) trace.

(** ** conversation_manager.py: statistics *)

(** The dict of [get_context_stats].  ["last_reset"] is the text "Never" for
    a user without context and otherwise the local time of day of the last
    reset; the model keeps the reading of the clock that is formatted. *)
Record ContextStats := {
  stat_messages : nat;
  stat_topic_keywords : nat;
  stat_current_topic : string;
  stat_last_reset : option Z
}.

(** [", ".join(words)] *)
Fixpoint join_comma (words : list string) : string :=
  match words with
  | [] => ""
  | [w] => w
  | w :: ws => w +:+ ", " +:+ join_comma ws
  end.

(** [get_context_stats].  [list(context.topic_keywords)] is the set in the
    iteration order that the hashing of the process gives it; the order in
    which the keywords were added, which can shape it too, is not kept. *)
Definition get_context_stats (hash : PyHash) (user_id : Z) (g : Globals)
  : ContextStats :=
  match conversation_histories g !! user_id with
  | None =>
      {| stat_messages := 0; stat_topic_keywords := 0;
         stat_current_topic := "None"; stat_last_reset := None |}
  | Some context =>
      {| stat_messages := length (messages context);
         stat_topic_keywords := size (topic_keywords context);
         stat_current_topic :=
           if bool_decide (topic_keywords context = ∅) then "None"
           else join_comma
                  (take 5 (set_iter hash (elements (topic_keywords context))));
         stat_last_reset := Some (last_reset context) |}
  end.

(** ** database_manager.py *)

(** An entry of [PLANS]; [-1] stands for no limit. *)
Record Plan := {
  daily_images : Z;
  daily_tokens_limit : Z
}.

Definition PLANS : gmap string Plan :=
  list_to_map
    [ ("free", {| daily_images := 3; daily_tokens_limit := 20000 |});
      ("premium", {| daily_images := 50; daily_tokens_limit := 500000 |});
      ("premium_plus", {| daily_images := -1; daily_tokens_limit := -1 |}) ].

Definition free_plan : Plan :=
  {| daily_images := 3; daily_tokens_limit := 20000 |}.

(** A row of the table [users], with the columns that the functions below
    read or write.  A [datetime] is the number of microseconds since the
    first instant of the type, midnight of 1 January of the year 1, so
    that its date is the number of whole days. *)
Record UserRow := {
  first_name : string;
  username : option string;
  plan_name : string;
  daily_images_used : Z;
  daily_tokens_used : Z;
  subscription_expiry_date : option Z;
  last_seen : Z;
  current_model : string
}.

Definition microseconds_per_day : Z := 86400000000.

(** [datetime.date()] *)
Definition date_of (t : Z) : Z := t `div` microseconds_per_day.

(** The last instant of the type: 31 December 9999, 23:59:59.999999. *)
Definition datetime_max : Z := 3652059 * microseconds_per_day - 1.

Definition is_datetime (t : Z) : bool := (0 <=? t)%Z && (t <=? datetime_max)%Z.

(** [timedelta(days=n)]: [None] stands for the [OverflowError] of a number
    of days of a magnitude over 999999999. *)
Definition timedelta_days (n : Z) : option Z :=
  if (Z.abs n <=? 999999999)%Z then Some n else None.

(** [t + timedelta(days=n)]: [None] stands for the [OverflowError] of
    [timedelta] or of a sum outside the years 1 to 9999. *)
Definition add_days (t n : Z) : option Z :=
  match timedelta_days n with
  | Some days =>
      let t' := (t + days * microseconds_per_day)%Z in
      if is_datetime t' then Some t' else None
  | None => None
  end.

(** An INTEGER of SQLite: a signed number of 64 bits. *)
Definition is_int64 (n : Z) : bool :=
  (- 2 ^ 63 <=? n)%Z && (n <=? 2 ^ 63 - 1)%Z.

(** The two tables that the functions below use: [users] by [user_id] and
    [usage_stats], unique by user and date, with its columns [tokens_used]
    and [images_used]. *)
Record Database := {
  users : gmap Z UserRow;
  usage_stats : gmap (Z * Z) (Z * Z)
}.

Definition empty_database : Database := {| users := ∅; usage_stats := ∅ |}.

(** The second component of the result of [check_user_limits]: the two
    messages "Daily Image Limit Reached!" (which names the limit) and
    "Daily Chat Limit Reached!" (which names the plan), and "Limits are
    okay.". *)
Inductive LimitMessage :=
| ImageLimitReached (images_limit : Z)
| ChatLimitReached (plan : string)
| LimitsOkay.

(** ['image_generation' in tools] *)
Definition has_image_tool (tools : list Tool) : bool :=
  bool_decide (BuiltinTool "image_generation" ∈ tools).

(** [check_user_limits] *)
Definition check_user_limits (user_row : UserRow) (tools : list Tool)
  : bool * LimitMessage :=
  let plan_details := default free_plan (PLANS !! plan_name user_row) in
  if has_image_tool tools then
    let images_limit := daily_images plan_details in
    if negb (images_limit =? -1)%Z
       && (images_limit <=? daily_images_used user_row)%Z
    then (false, ImageLimitReached images_limit)
    else (true, LimitsOkay)
  else
    let tokens_limit := daily_tokens_limit plan_details in
    if negb (tokens_limit =? -1)%Z
       && (tokens_limit <=? daily_tokens_used user_row)%Z
    then (false, ChatLimitReached (plan_name user_row))
    else (true, LimitsOkay).

(** [update.effective_user], as far as the functions read it. *)
Record TelegramUser := {
  tg_id : Z;
  tg_first_name : string;
  tg_username : option string
}.

(** [UPDATE users SET ... WHERE user_id = ?]: the row of the user, when
    there is one, is replaced. *)
Definition update_user (f : UserRow → UserRow) (user_id : Z) (db : Database)
  : Database :=
  {| users := alter f user_id (users db); usage_stats := usage_stats db |}.

(** [log_usage], with the reading [t] of [datetime.now()]: a row is
    inserted for the user and the day or, when there is one, its counters
    are raised.  Foreign keys are not enforced on the connection. *)
Definition log_usage (t : Z) (user_id tokens images : Z) (db : Database)
  : Database :=
  let key := (user_id, date_of t) in
  {| users := users db;
     usage_stats :=
       match usage_stats db !! key with
       | Some (tokens_used, images_used) =>
           <[key := ((tokens_used + tokens)%Z, (images_used + images)%Z)]>
             (usage_stats db)
       | None => <[key := (tokens, images)]> (usage_stats db)
       end |}.

(** The three [UPDATE] statements of [get_or_create_user] on the row of a
    user who is known. *)
Definition reset_daily_usage (r : UserRow) : UserRow :=
  {| first_name := first_name r; username := username r;
     plan_name := plan_name r;
     daily_images_used := 0; daily_tokens_used := 0;
     subscription_expiry_date := subscription_expiry_date r;
     last_seen := last_seen r; current_model := current_model r |}.

Definition revert_to_free (r : UserRow) : UserRow :=
  {| first_name := first_name r; username := username r;
     plan_name := "free";
     daily_images_used := daily_images_used r;
     daily_tokens_used := daily_tokens_used r;
     subscription_expiry_date := None;
     last_seen := last_seen r; current_model := "mistral-medium-latest" |}.

Definition touch (t : Z) (user_data : TelegramUser) (r : UserRow) : UserRow :=
  {| first_name := tg_first_name user_data;
     username := tg_username user_data;
     plan_name := plan_name r;
     daily_images_used := daily_images_used r;
     daily_tokens_used := daily_tokens_used r;
     subscription_expiry_date := subscription_expiry_date r;
     last_seen := t; current_model := current_model r |}.

(** The row that [INSERT INTO users] makes for a new user. *)
Definition new_user_row (t : Z) (user_data : TelegramUser) : UserRow :=
  {| first_name := tg_first_name user_data;
     username := tg_username user_data;
     plan_name := "premium_plus";
     daily_images_used := 0; daily_tokens_used := 0;
     subscription_expiry_date := None;
     last_seen := t; current_model := "mistral-large-latest" |}.

(** [get_or_create_user], with the reading [t] of [datetime.now()]: the
    row of the user after the statements, which is the row returned, and
    the database.  The tests read the row as it was selected first. *)
Definition get_or_create_user (t : Z) (user_data : TelegramUser)
    (db : Database) : UserRow * Database :=
  let today := date_of t in
  let row :=
    match users db !! tg_id user_data with
    | None => new_user_row t user_data
    | Some user =>
        let r := user in
        let r :=
          if (date_of (last_seen user) <? today)%Z
          then reset_daily_usage r else r in
        let r :=
          if negb (bool_decide (plan_name user = "free"))
             && bool_decide (is_Some (subscription_expiry_date user))
          then
            if (default 0%Z (subscription_expiry_date user) <? t)%Z
            then revert_to_free r else r
          else r in
        touch t user_data r
    end in
  (row,
   {| users := <[tg_id user_data := row]> (users db);
      usage_stats := usage_stats db |}).

(** [increment_image_usage], with the reading [t] of [datetime.now()] in
    [log_usage]. *)
Definition increment_image_usage (t : Z) (user_id : Z) (db : Database)
  : Database :=
  let db :=
    update_user
      (λ r, {| first_name := first_name r; username := username r;
               plan_name := plan_name r;
               daily_images_used := daily_images_used r + 1;
               daily_tokens_used := daily_tokens_used r;
               subscription_expiry_date := subscription_expiry_date r;
               last_seen := last_seen r;
               current_model := current_model r |})
      user_id db in
  log_usage t user_id 0 1 db.

(** What a function that adds to a counter of the tables does: it leaves
    the tables [db]; or the argument does not fit an INTEGER and the
    binding of the parameter raises [OverflowError] before anything is
    written; or a sum does not fit an INTEGER, and SQLite, which then adds
    in floating point, leaves a REAL in the column: from there on the
    tables are not tables of integers, and the model does not follow
    them. *)
Inductive SqlOutcome :=
| SqlDone (db : Database)
| SqlOverflowError
| SqlReal.

(** [update_token_usage], with the reading [t] of [datetime.now()] in
    [log_usage]. *)
Definition update_token_usage (t : Z) (user_id token_count : Z)
    (db : Database) : SqlOutcome :=
  if negb (is_int64 token_count) then SqlOverflowError
  else if negb (is_int64
                  (default 0%Z (daily_tokens_used <$> users db !! user_id)
                   + token_count))
  then SqlReal
  else
    let db :=
      update_user
        (λ r, {| first_name := first_name r; username := username r;
                 plan_name := plan_name r;
                 daily_images_used := daily_images_used r;
                 daily_tokens_used := daily_tokens_used r + token_count;
                 subscription_expiry_date := subscription_expiry_date r;
                 last_seen := last_seen r;
                 current_model := current_model r |})
        user_id db in
    if negb (is_int64
               (default 0%Z (fst <$> usage_stats db !! (user_id, date_of t))
                + token_count))
    then SqlReal
    else SqlDone (log_usage t user_id token_count 0 db).

(** [set_user_plan], with the reading [t] of [datetime.now()]; the answer
    is whether a row was updated.  [None] stands for the [OverflowError]
    that the computation of the expiry raises, before the table is
    touched. *)
Definition set_user_plan (t : Z) (user_id : Z) (plan : string)
    (duration_days : option Z) (db : Database) : option (bool * Database) :=
  if negb (bool_decide (is_Some (PLANS !! plan))) then Some (false, db)
  else
    let expiry :=
      match duration_days with
      | Some days => Some <$> add_days t days
      | None => Some None
      end in
    match expiry with
    | None => None
    | Some expiry_date =>
        let new_model :=
          if bool_decide (plan = "free") then "mistral-medium-latest"
          else "mistral-large-latest" in
        Some
          (bool_decide (is_Some (users db !! user_id)),
           update_user
             (λ r, {| first_name := first_name r; username := username r;
                      plan_name := plan;
                      daily_images_used := daily_images_used r;
                      daily_tokens_used := daily_tokens_used r;
                      subscription_expiry_date := expiry_date;
                      last_seen := last_seen r;
                      current_model := new_model |})
             user_id db)
    end.

(** ** fast_main.py: sending a reply *)

Definition newline : ascii := "010"%char.

(** [text.rstrip()] *)
Definition rstrip (s : list ascii) : list ascii :=
  reverse (Py.lstrip (reverse s)).

(** [s.endswith(suffix)] *)
Definition ends_with (suffix s : string) : bool :=
  Py.starts_with (reverse (Py.chars suffix)) (reverse (Py.chars s)).

(** [s.replace(c, by)] for a single character [c]. *)
Definition replace_char (c : ascii) (by_ : list ascii) (s : list ascii)
  : list ascii :=
  flat_map (λ x, if decide (x = c) then by_ else [x]) s.

(** The [parse_mode] of a call of [message.reply_text]. *)
Inductive ParseMode := ModeMarkdown | ModeMarkdownV2 | ModePlain.

(** A call of [message.reply_text]. *)
Record Reply := {
  reply_text : string;
  reply_mode : ParseMode
}.

Definition has_code_blocks (text : string) : bool := Py.contains "```" text.

Definition has_markdown (text : string) : bool :=
  Py.contains "**" text || Py.contains "*" text || Py.contains "_" text
  || Py.contains "##" text || Py.contains "[" text || Py.contains "](" text.

(** [text.replace('_', '\\_').replace('*', '\\*')] *)
Definition escape_underscore_star (text : string) : string :=
  Py.str
    (replace_char "*" ["\"; "*"]%char
       (replace_char "_" ["\"; "_"]%char (Py.chars text))).

Section Transport.

(** [telegram.helpers.escape_markdown(text, version=2)], and what the
    successive calls of [message.reply_text] made by one call of
    [send_formatted_message] do: return ([true]) or raise ([false]). *)
Variable escape_markdown : string → string.
Variable outcome : nat → bool.

(** One [try] of [send_formatted_message]: the replies so far with the new
    one, and whether the new one was accepted. *)
Definition try_reply (replies : list Reply) (r : Reply) : list Reply * bool :=
  (replies ++ [r], outcome (length replies)).

(** [send_formatted_message]: the calls of [reply_text] in order, and
    whether the function returns ([true]) or raises what the last call
    raised ([false]). *)
Definition send_formatted_message (text parse_mode_preference : string)
  : list Reply * bool :=
  if bool_decide (Py.strip (Py.chars text) = []) then ([], true)
  else
    let formatted := has_markdown text || has_code_blocks text in
    let '(replies, sent) :=
      if formatted then
        let '(replies, sent) :=
          try_reply [] {| reply_text := text; reply_mode := ModeMarkdown |} in
        if sent then (replies, true)
        else
          try_reply replies
            {| reply_text := escape_underscore_star text;
               reply_mode := ModeMarkdown |}
      else ([], false) in
    if sent then (replies, true)
    else
      let '(replies, sent) :=
        if bool_decide (parse_mode_preference = "MarkdownV2")
           && negb (has_markdown text) && negb (has_code_blocks text)
        then
          try_reply replies
            {| reply_text := escape_markdown text;
               reply_mode := ModeMarkdownV2 |}
        else (replies, false) in
      if sent then (replies, true)
      else try_reply replies {| reply_text := text; reply_mode := ModePlain |}.

End Transport.

(** The loop of [send_long_message] over the lines of the text. *)
Fixpoint split_lines (max_length : nat) (lines : list (list ascii))
    (parts : list (list ascii)) (current_part : list ascii)
    (in_code_block : bool) : list (list ascii) * list ascii :=
  match lines with
  | [] => (parts, current_part)
  | line :: lines =>
      let in_code_block :=
        if Py.starts_with (Py.chars "```") line then negb in_code_block
        else in_code_block in
      if (max_length <? length (current_part ++ line ++ [newline]))
         && negb (bool_decide (current_part = []))
      then
        if in_code_block then
          split_lines max_length lines
            (parts ++ [current_part ++ newline :: Py.chars "```"])
            (Py.chars "```" ++ newline :: line ++ [newline])
            in_code_block
        else
          split_lines max_length lines
            (parts ++ [rstrip current_part])
            (line ++ [newline])
            in_code_block
      else
        split_lines max_length lines parts
          (current_part ++ line ++ [newline]) in_code_block
  end.

(** [send_long_message]: the texts that it passes to
    [send_formatted_message], in order. *)
Definition message_parts (text : string) (max_length : nat) : list string :=
  if length (Py.chars text) <=? max_length then [text]
  else
    let lines := Py.fields (λ c, bool_decide (c = newline)) (Py.chars text) in
    let '(parts, current_part) := split_lines max_length lines [] [] false in
    map Py.str
      (if bool_decide (Py.strip current_part = []) then parts
       else parts ++ [rstrip current_part]).

(** ** fast_main.py: the end of a job *)

(** The five messages of the outer handler of [worker]: "Rate Limit
    Reached", "Authentication Issue", "Request Timeout", "Connection Issue"
    and "Technical Issue". *)
Inductive ErrorCategory :=
| RateLimit
| AuthenticationIssue
| RequestTimeout
| ConnectionIssue
| TechnicalIssue.

(** The tests on [str(e).lower()] in the outer handler. *)
Definition classify_error (e : string) : ErrorCategory :=
  let text := Py.lower e in
  if Py.contains "rate limit" text then RateLimit
  else if Py.contains "api key" text || Py.contains "unauthorized" text
  then AuthenticationIssue
  else if Py.contains "timeout" text then RequestTimeout
  else if Py.contains "network" text || Py.contains "connection" text
  then ConnectionIssue
  else TechnicalIssue.

(** What a job does after the loop that is visible outside the process. *)
Inductive Effect :=
| IncrementImageUsage (user_id : Z)
| ReplyPhoto (path : string)
| RemoveFile (path : string)
| ReplyToolCalls (text : string)
| UpdateTokenUsage (user_id : Z) (token_count : nat)
| SendResetNotice (notice : ResetNotice)
| SendLongMessage (text : string)
| SendNoResponse
| ReplyError (category : ErrorCategory).

Inductive JobOutcome :=
| JobDone
| JobFailed (category : ErrorCategory).

(** The text of the [AttributeError] that a call of a method of
    [job.update.message] raises when there is no message. *)
Definition none_attribute_error (attr : string) : string :=
  "'NoneType' object has no attribute '" +:+ attr +:+ "'".

(** The outer handler: the message depends on the text of the exception
    and is sent when the update has a message. *)
Definition handle_error (job : Job) (e : string) (g : Globals)
    (effects : list Effect) : JobOutcome * Globals * list Effect :=
  let category := classify_error e in
  (JobFailed category, g,
   if job_has_message job then effects ++ [ReplyError category]
   else effects).

Section Finish.

Variable hash : PyHash.
Variable clock : nat → Z.

(** The text that the worker builds from the calls of a tool-call result;
    it uses [telegram.helpers.escape_markdown]. *)
Variable render_tool_calls : list (string * string) → string.

(** The branch of a result that is false: "No Response Received". *)
Definition finish_no_response (job : Job) (g : Globals)
  : JobOutcome * Globals * list Effect :=
  if job_has_message job then (JobDone, g, [SendNoResponse])
  else handle_error job (none_attribute_error "reply_text") g [].

(** The branch of a string that ends with ".png". *)
Definition finish_image (job : Job) (path : string) (g : Globals)
  : JobOutcome * Globals * list Effect :=
  let effects := [IncrementImageUsage (job_user_id job)] in
  if job_has_message job
  then (JobDone, g, effects ++ [ReplyPhoto path; RemoveFile path])
  else handle_error job (none_attribute_error "reply_photo") g
         (effects ++ [RemoveFile path]).

(** The branch of a dict of type "tool_calls". *)
Definition finish_tool_calls (job : Job) (calls : list (string * string))
    (g : Globals) : JobOutcome * Globals * list Effect :=
  let response_text := render_tool_calls calls in
  let g :=
    (add_to_conversation_history hash clock (job_user_id job) "assistant"
       response_text g).2 in
  if job_has_message job then (JobDone, g, [ReplyToolCalls response_text])
  else handle_error job (none_attribute_error "reply_text") g [].

(** The branch of any other string.  Without message, the first text that
    is not blank makes [send_formatted_message] raise. *)
Definition finish_text (job : Job) (prompt_to_send result : string)
    (context_reset_message : option ResetNotice) (g : Globals)
  : JobOutcome * Globals * list Effect :=
  let token_count :=
    String.length prompt_to_send / 4 + String.length result / 4 in
  let effects := [UpdateTokenUsage (job_user_id job) token_count] in
  let g :=
    (add_to_conversation_history hash clock (job_user_id job) "assistant"
       result g).2 in
  if job_has_message job then
    (JobDone, g,
     effects
     ++ match context_reset_message with
        | Some notice => [SendResetNotice notice]
        | None => []
        end
     ++ [SendLongMessage result])
  else if bool_decide (is_Some context_reset_message)
          || existsb (λ part, negb (bool_decide
                                      (Py.strip (Py.chars part) = [])))
               (message_parts result 4096)
  then handle_error job (none_attribute_error "reply_text") g effects
  else (JobDone, g, effects).

(** The rest of the job once the loop is left. *)
Definition finish_job (job : Job) (exit : LoopExit) (g : Globals)
  : JobOutcome * Globals * list Effect :=
  match exit with
  | LoopRaised e => handle_error job e g []
  | LoopResult ResultNone _ _ => finish_no_response job g
  | LoopResult (ResultStr result) prompt_to_send context_reset_message =>
      if bool_decide (result = "") then finish_no_response job g
      else if ends_with ".png" result then finish_image job result g
      else finish_text job prompt_to_send result context_reset_message g
  | LoopResult (ResultDict type calls) _ _ =>
      if bool_decide (type = "tool_calls")
      then finish_tool_calls job calls g
      else (JobDone, g, [])
  end.

(** One job of the worker, from the loop to its end. *)
Definition worker_job (job : Job) (script : list Attempt) (g : Globals)
  : option (JobOutcome * Globals * list Event * list Effect) :=
  match run_job hash clock job script g with
  | Some (exit, g, trace) =>
      let '(outcome, g, effects) := finish_job job exit g in
      Some (outcome, g, trace, effects)
  | None => None
  end.

End Finish.

(** ** fast_main.py: queueing a job *)

(** An update, as far as [queue_job_handler] reads it: the user, and the
    text of the message when there is a message ([Some None] is a message
    without text). *)
Record Update := {
  effective_user : option TelegramUser;
  upd_message : option (option string)
}.

(** A row of [get_user_functions]. *)
Record CustomFunction := {
  fn_name : string;
  fn_description : string;
  fn_schema_json : string
}.

(** The four "thinking" messages. *)
Inductive ThinkingMessage :=
| Thinking
| CreatingImage
| SearchingWeb
| ProcessingCode.

(** What [queue_job_handler] replies. *)
Inductive HandlerReply :=
| ReplyLimit (m : LimitMessage)
| ReplyDescriptionRequired
| ReplyInvalid (e : ErrorMessage)
| ReplyThinking (m : ThinkingMessage).

(** [" ".join(args)] *)
Definition join_args (args : list string) : string :=
  Py.str (Py.join_space (map Py.chars args)).

Definition thinking_message (tools : list Tool) : ThinkingMessage :=
  if has_image_tool tools then CreatingImage
  else if bool_decide (BuiltinTool "web_search" ∈ tools)
          && (length tools =? 1)
  then SearchingWeb
  else if bool_decide (BuiltinTool "code_interpreter" ∈ tools)
          && (length tools =? 1)
  then ProcessingCode
  else Thinking.

(** [if update.message: await update.message.reply_text(...)] *)
Definition reply_if_message (update : Update) (r : HandlerReply)
  : list HandlerReply :=
  if bool_decide (is_Some (upd_message update)) then [r] else [].

(** The raw prompt: the arguments of the command when there are some, else
    the text of the message; a missing text counts as empty, which the
    test that follows does not tell from [None]. *)
Definition typed_prompt (update : Update) (args : option (list string))
  : string :=
  match args with
  | Some (a :: args') => join_args (a :: args')
  | _ => default "" (default None (upd_message update))
  end.

Section Queue.

(** Whether [json.loads] accepts a text. *)
Variable json_valid : string → bool.

(** [queue_job_handler], with the reading [t] of [datetime.now()], the
    arguments [args] of the command ([context.args]) and the rows
    [custom_functions] of the user: the replies, the job that is put on the
    queue if there is one, and the database.  The tool of a custom function
    is kept without its schema. *)
Definition queue_job_handler (t : Z) (update : Update)
    (args : option (list string)) (custom_functions : list CustomFunction)
    (tools : list Tool) (db : Database)
  : list HandlerReply * option Job * Database :=
  match effective_user update with
  | None => ([], None, db)
  | Some tg =>
      let '(user, db) := get_or_create_user t tg db in
      let '(can_proceed, message) := check_user_limits user tools in
      if negb can_proceed
      then (reply_if_message update (ReplyLimit message), None, db)
      else
        let tools :=
          tools
          ++ map (λ f, FunctionTool (fn_name f) (fn_description f))
               (filter (λ f, json_valid (fn_schema_json f) = true)
                  custom_functions) in
        let raw_prompt := typed_prompt update args in
        if bool_decide (raw_prompt = "") && has_image_tool tools
           && bool_decide (is_Some args)
        then (reply_if_message update ReplyDescriptionRequired, None, db)
        else
          let raw_prompt :=
            if bool_decide (raw_prompt = "") then "Hello" else raw_prompt in
          let '(is_valid, clean_prompt, error_message) :=
            validate_and_sanitize_input raw_prompt 4000 in
          if negb is_valid
          then (reply_if_message update (ReplyInvalid error_message), None, db)
          else
            (reply_if_message update
               (ReplyThinking (thinking_message tools)),
             Some {| job_user_id := tg_id tg;
                     job_has_message :=
                       bool_decide (is_Some (upd_message update));
                     job_prompt := clean_prompt;
                     job_tools := tools |},
             db)
  end.

End Queue.

(** ** Clients of the context store *)

(** A call of one of the three entry points of the module. *)
Inductive Call :=
| GetHistory (user_id : Z)
| AddMessage (user_id : Z) (role content : string)
| ClearContext (user_id : Z).

Definition do_call (hash : PyHash) (clock : nat → Z) (g : Globals) (c : Call)
  : Globals :=
  match c with
  | GetHistory u => (get_conversation_history clock u g).2
  | AddMessage u role content =>
      (add_to_conversation_history hash clock u role content g).2
  | ClearContext u => (clear_user_context clock u g).2
  end.

(** The globals after a sequence of calls. *)
Definition run_calls (hash : PyHash) (clock : nat → Z) (calls : list Call)
    (g : Globals) : Globals :=
  foldl (do_call hash clock) g calls.

(** The words of a text that the set comprehension of
    [extract_topic_keywords] collects, as a set. *)
Definition candidate_keywords (text : string) : gset string :=
  list_to_set
    (filter (λ word, word ∉ stopwords)
       (map Py.str (Py.findall_alpha3 (Py.chars (Py.lower text))))).

(** The message that [add_message] stores. *)
Definition new_message (role content : string) (kws : option (gset string))
    (t : Z) : Message :=
  {| msg_role := role; msg_content := content; msg_timestamp := t;
     msg_topic_keywords := if set_truthy kws then default ∅ kws else ∅ |}.

(** The last [n] items of a list. *)
Definition keep_last {A} (n : nat) (l : list A) : list A :=
  drop (length l - n) l.

(** ** Vocabulary of the properties *)

(** A closed decidable proposition, settled by evaluation. *)
Ltac by_compute :=
  match goal with
  | |- ?P => apply (bool_decide_eq_true_1 P); vm_compute; reflexivity
  end.

(** A word boundary on the left of a match and on its right: the text
    before does not end, and the text after does not start, with a
    character outside [sep]. *)
Definition ends_at_sep (sep : ascii → bool) (pre : list ascii) : Prop :=
  ∀ c, last pre = Some c → sep c = true.

Definition starts_at_sep (sep : ascii → bool) (suf : list ascii) : Prop :=
  ∀ c, head suf = Some c → sep c = true.

Definition sep_free (sep : ascii → bool) (r : list ascii) : Prop :=
  Forall (λ c, sep c = false) r.

(** [w] is a match of [\b[a-zA-Z]{3,}\b] in [s]: at least three ASCII
    letters with no word character right before or right after them. *)
Definition is_token (s w : list ascii) : Prop :=
  ∃ pre suf,
    s = pre ++ w ++ suf ∧
    Forall (λ c, Py.is_ascii_alpha c = true) w ∧
    3 ≤ length w ∧
    (∀ c, last pre = Some c → Py.is_word c = false) ∧
    (∀ c, head suf = Some c → Py.is_word c = false).

(** [word] is a keyword of [text]: a token of the lower-cased text that is
    no stopword. *)
Definition is_keyword_of (text word : string) : Prop :=
  is_token (Py.lower_chars (Py.chars text)) (Py.chars word) ∧ word ∉ stopwords.

(** The first ten keywords of a text in order of first appearance. *)
Definition first_ten_keywords (text : string) : gset string :=
  list_to_set
    (take 10
       (first_occurrences
          (filter (λ word, word ∉ stopwords)
             (map Py.str (Py.findall_alpha3 (Py.chars (Py.lower text))))))).

Definition eleven_words : string :=
  "alpha bravo charlie delta echo foxtrot golf hotel india juliet kilo".

(** The messages of a context after [add_message] is called for each entry
    (role, content, keywords, clock reading) of a list. *)
Definition add_messages
    (entries : list (string * string * option (gset string) * Z))
    (c : ConversationContext) : ConversationContext :=
  foldl (λ c e, add_message e.1.1.1 e.1.1.2 e.1.2 e.2 c) c entries.

Definition entry_message (e : string * string * option (gset string) * Z)
  : Message :=
  new_message e.1.1.1 e.1.1.2 e.1.2 e.2.

(** What holds of a context and of the globals whatever the calls made:
    the bound of every history, of the keywords of every stored message and
    of every tracked keyword set. *)
Definition wf_context (c : ConversationContext) : Prop :=
  length (messages c) ≤ MAX_HISTORY_LENGTH
  ∧ Forall (λ m, size (msg_topic_keywords m) ≤ 10) (messages c).

Definition wf_globals (g : Globals) : Prop :=
  map_Forall (λ _ c, wf_context c) (conversation_histories g)
  ∧ map_Forall (λ _ k, size k ≤ 10) (user_topics g).

(** The comparison of [detect_topic_change] on the sizes of the
    intersection and of the union. *)
Definition below_threshold (intersection union : nat) : bool :=
  PrimFloat.ltb (float_of_nat intersection / float_of_nat union)%float
    (1 - TOPIC_CHANGE_THRESHOLD)%float.

(** A clock that gives every reading twice: the resolution of the clock is
    coarser than the time between two calls. *)
Definition coarse_clock (n : nat) : Z := Z.of_nat (n / 2).

(** A stored message shares a keyword with the tracked keywords. *)
Definition overlaps (current_keywords : gset string) (msg : Message) : Prop :=
  msg_topic_keywords msg ∩ current_keywords ≠ ∅.

(** What [get_conversation_history] is meant to select once keywords are
    tracked: the older messages that share a keyword, then the last four
    messages. *)
Definition recent_and_related (current_keywords : gset string)
    (ms : list Message) : list Message :=
  filter (overlaps current_keywords) (take (length ms - 4) ms)
  ++ drop (length ms - 4) ms.

Definition role_and_content (msg : Message) : string * string :=
  (msg_role msg, msg_content msg).

(** Six messages of which the second and the third are stored at the same
    reading of the coarse clock. *)
Definition twice_ok : list Call :=
  [AddMessage 1 "user" "rust lifetimes";
   AddMessage 1 "assistant" "ok";
   AddMessage 1 "assistant" "ok";
   AddMessage 1 "assistant" "borrowing comes first";
   AddMessage 1 "assistant" "then elision";
   AddMessage 1 "assistant" "anything else"].

(** The conditions of [validate_and_sanitize_input] in words. *)

(** Nothing but whitespace (the empty text included). *)
Definition blank (text : string) : Prop :=
  Forall (λ c, Py.is_space c = true) (Py.chars text).

(** A run of more than [n] equal characters. *)
Definition has_run_over (n : nat) (s : list ascii) : Prop :=
  ∃ pre c suf, s = pre ++ replicate (S n) c ++ suf.

(** What the alternatives [spam|test|aaa+|111+] match when case is
    ignored. *)
Definition low_content_token (tok : list ascii) : Prop :=
  Py.lower_chars tok = Py.chars "spam"
  ∨ Py.lower_chars tok = Py.chars "test"
  ∨ (3 ≤ length tok ∧ Forall (λ c, c = "a"%char ∨ c = "A"%char) tok)
  ∨ (3 ≤ length tok ∧ Forall (λ c, c = "1"%char) tok).

(** Such a token stands in [s] between word boundaries. *)
Definition has_low_content (s : list ascii) : Prop :=
  ∃ pre tok suf,
    s = pre ++ tok ++ suf ∧ low_content_token tok ∧
    (∀ c, last pre = Some c → Py.is_word c = false) ∧
    (∀ c, head suf = Some c → Py.is_word c = false).

(** A text of [n] times the same character. *)
Definition repeat_char (c : ascii) (n : nat) : string :=
  Py.str (replicate n c).

Definition sentence_of_fifty : string :=
  "Please compare merge sort and quick sort in brief.".

(** The kind of an event, without the arguments of the model call. *)
Inductive EventKind :=
| Calling
| Sleeping (seconds : nat)
| Noticing (attempt max_retries : nat).

Definition kind (e : Event) : EventKind :=
  match e with
  | ModelCall _ _ => Calling
  | Sleep s => Sleeping s
  | RetryNotice k m => Noticing k m
  end.

(** The notice of a retry, sent only when the update has a message. *)
Definition notice_of (job : Job) (attempt : nat) : list EventKind :=
  if job_has_message job then [Noticing attempt max_retries] else [].

(** The history ends with [n] messages of the user that hold the prompt. *)
Definition is_prompt (prompt : string) (m : Message) : Prop :=
  msg_role m = "user" ∧ msg_content m = prompt.

Definition ends_with_copies (prompt : string) (n : nat)
    (c : ConversationContext) : Prop :=
  ∃ base copies,
    messages c = base ++ copies ∧ length copies = n
    ∧ Forall (is_prompt prompt) copies.

Definition text_job (prompt : string) (has_message : bool) : Job :=
  {| job_user_id := 1; job_has_message := has_message;
     job_prompt := prompt; job_tools := [BuiltinTool "web_search"] |}.

(** The number of model calls among the kinds of a trace. *)
Definition count_calls (ks : list EventKind) : nat :=
  length (omap (λ k, match k with Calling => Some () | _ => None end) ks).

(** What a job does when its first [k] calls raise: call, sleep
    [2^i] seconds and send the notice of attempt [i+1], for [i] from 1 to
    [k], then call once more. *)
Definition backoff_schedule (job : Job) (k : nat) : list EventKind :=
  flat_map (λ i, [Calling; Sleeping (2 ^ i)] ++ notice_of job (i + 1))
    (seq 1 k)
  ++ [Calling].

Definition not_none (a : Attempt) : Prop := a ≠ Returns ResultNone.

(** The trace of a run of the loop that has ended. *)
Definition trace_of (run : option (LoopExit * Globals * list Event))
  : option (list Event) :=
  snd <$> run.

Definition exit_of (run : option (LoopExit * Globals * list Event))
  : option LoopExit :=
  (λ x, x.1.1) <$> run.

(** The globals of a run of the loop that has ended. *)
Definition globals_of (run : option (LoopExit * Globals * list Event))
  : option Globals :=
  (λ x, x.1.2) <$> run.

(** The stored history of a user as pairs of role and content. *)
Definition stored_history (u : Z) (g : Globals) : list (string * string) :=
  map role_and_content
    (default [] (messages <$> conversation_histories g !! u)).

(** What the preparation of one attempt does to the store, for a job that
    asks for no image: the history is fetched and the prompt appended. *)
Definition attempt (hash : PyHash) (clock : nat → Z) (u : Z) (prompt : string)
    (g : Globals) : option ResetNotice * Globals :=
  add_to_conversation_history hash clock u "user" prompt
    (get_conversation_history clock u g).2.

Fixpoint attempts (hash : PyHash) (clock : nat → Z) (u : Z) (prompt : string)
    (n : nat) (g : Globals) : Globals :=
  match n with
  | 0 => g
  | S n => attempts hash clock u prompt n (attempt hash clock u prompt g).2
  end.

(** The history of the user ends with [j] copies of the prompt and the
    keywords of the prompt are the tracked ones. *)
Definition stored (hash : PyHash) (u : Z) (prompt : string) (j : nat)
    (g : Globals) : Prop :=
  ∃ c, conversation_histories g !! u = Some c
       ∧ ends_with_copies prompt j c
       ∧ user_topics g !! u = Some (extract_topic_keywords hash prompt).

(** The messages of a list stored one after the other for a user, with the
    notifications of the calls. *)
Fixpoint add_all (hash : PyHash) (clock : nat → Z) (u : Z)
    (entries : list (string * string)) (g : Globals)
  : list (option ResetNotice) * Globals :=
  match entries with
  | [] => ([], g)
  | (role, content) :: entries =>
      let '(notice, g) :=
        add_to_conversation_history hash clock u role content g in
      let '(notices, g) := add_all hash clock u entries g in
      (notice :: notices, g)
  end.

(** The keywords of the messages of the user among them. *)
Definition user_keywords (hash : PyHash) (entries : list (string * string))
  : gset string :=
  ⋃ map (λ e, extract_topic_keywords hash e.2)
      (filter (λ e, e.1 = "user") entries).

(** ** Vocabulary of the further properties *)

(** The user that a call is about. *)
Definition call_user (c : Call) : Z :=
  match c with
  | GetHistory u => u
  | AddMessage u _ _ => u
  | ClearContext u => u
  end.

(** What the module holds for a user: the context and the tracked
    keywords. *)
Definition stored_for (u : Z) (g : Globals)
  : option ConversationContext * option (gset string) :=
  (conversation_histories g !! u, user_topics g !! u).

(** A clock of which every reading is later than the one before. *)
Definition increasing (clock : nat → Z) : Prop :=
  ∀ n m, n < m → (clock n < clock m)%Z.

(** The messages of a context carry increasing timestamps, all of them
    before [bound]. *)
Definition ordered_context (bound : Z) (c : ConversationContext) : Prop :=
  StronglySorted Z.lt (map msg_timestamp (messages c))
  ∧ Forall (λ m, (msg_timestamp m < bound)%Z) (messages c).

Definition ordered_globals (clock : nat → Z) (g : Globals) : Prop :=
  map_Forall (λ _ c, ordered_context (clock (time_calls g)) c)
    (conversation_histories g).

(** The row of a user with other counters of the day. *)
Definition with_usage (images tokens : Z) (r : UserRow) : UserRow :=
  {| first_name := first_name r; username := username r;
     plan_name := plan_name r;
     daily_images_used := images; daily_tokens_used := tokens;
     subscription_expiry_date := subscription_expiry_date r;
     last_seen := last_seen r; current_model := current_model r |}.

(** The usage logged for a user and a day, zero when there is no row. *)
Definition logged (user_id day : Z) (db : Database) : Z * Z :=
  default (0%Z, 0%Z) (usage_stats db !! (user_id, day)).

Definition image_request : list Tool := [BuiltinTool "image_generation"].

(** A phrase occurs in the text of an exception when case is ignored. *)
Definition mentions (phrase e : string) : Prop :=
  ∃ pre suf, Py.lower_chars (Py.chars e) = pre ++ Py.chars phrase ++ suf.

(** The effects that charge the user. *)
Definition is_usage (e : Effect) : bool :=
  match e with
  | IncrementImageUsage _ | UpdateTokenUsage _ _ => true
  | _ => false
  end.


(** A word of a normalized text: not empty and without whitespace. *)
Definition is_plain_word (p : list ascii) : Prop :=
  p ≠ [] ∧ sep_free Py.is_space p.

(** A database with one user, known as Ada under the id 7. *)
Definition ada : TelegramUser :=
  {| tg_id := 7; tg_first_name := "Ada"; tg_username := None |}.

Definition database_of (row : UserRow) : Database :=
  {| users := {[7%Z := row]}; usage_stats := ∅ |}.

Definition free_row : UserRow :=
  {| first_name := "Ada"; username := None; plan_name := "free";
     daily_images_used := 0; daily_tokens_used := 0;
     subscription_expiry_date := None; last_seen := 0;
     current_model := "mistral-medium-latest" |}.

(** * Properties *)

(** ** Strings *)

Lemma chars_str s : Py.chars (Py.str s) = s.
Proof. apply String.list_ascii_of_string_of_list_ascii. Qed.

Lemma str_chars s : Py.str (Py.chars s) = s.
Proof. apply String.string_of_list_ascii_of_string. Qed.

Lemma chars_inj s1 s2 : Py.chars s1 = Py.chars s2 → s1 = s2.
Proof. intros H. rewrite <- (str_chars s1), <- (str_chars s2). by f_equal. Qed.

Lemma chars_lower text : Py.chars (Py.lower text) = Py.lower_chars (Py.chars text).
Proof. unfold Py.lower. apply chars_str. Qed.

Lemma starts_with_spec p s :
  Py.starts_with p s = true ↔ ∃ suf, s = p ++ suf.
Proof.
  revert s. induction p as [|a p IH]; intros s; simpl.
  - split; [eauto|done].
  - destruct s as [|b s].
    + split; [done|]. intros [suf H]. discriminate H.
    + rewrite andb_true_iff, bool_decide_eq_true, IH. split.
      * intros [-> [suf ->]]. eauto.
      * intros [suf H]. injection H as -> ->. eauto.
Qed.

(** The operator [in] on strings is the substring test. *)
Lemma contains_chars_spec needle hay :
  Py.contains_chars needle hay = true ↔ ∃ pre suf, hay = pre ++ needle ++ suf.
Proof.
  induction hay as [|c hay IH].
  - cbn [Py.contains_chars]. rewrite orb_false_r, starts_with_spec. split.
    + intros [suf H]. by exists [], suf.
    + intros (pre & suf & H). destruct pre; [by exists suf|discriminate H].
  - cbn [Py.contains_chars]. rewrite orb_true_iff, starts_with_spec, IH. split.
    + intros [[suf H]|(pre & suf & ->)].
      * by exists [], suf.
      * by exists (c :: pre), suf.
    + intros (pre & suf & H). destruct pre as [|c' pre].
      * left. by exists suf.
      * right. injection H as _ ->. by exists pre, suf.
Qed.

(** [detect_explicit_topic_change] holds exactly when one of the phrases is
    a substring of the lower-cased text. *)
Lemma detect_explicit_topic_change_spec text :
  detect_explicit_topic_change text = true ↔
  ∃ phrase pre suf,
    phrase ∈ AUTO_RESET_KEYWORDS ∧
    Py.lower_chars (Py.chars text) = pre ++ Py.chars phrase ++ suf.
Proof.
  unfold detect_explicit_topic_change. rewrite existsb_exists. split.
  - intros (phrase & Hin & H). unfold Py.contains in H.
    apply contains_chars_spec in H as (pre & suf & H).
    rewrite chars_lower in H. exists phrase, pre, suf.
    by rewrite list_elem_of_In.
  - intros (phrase & pre & suf & Hin & H). exists phrase.
    rewrite <- list_elem_of_In. split; [done|].
    unfold Py.contains. apply contains_chars_spec.
    exists pre, suf. by rewrite chars_lower.
Qed.

(** *** Maximal runs *)

Lemma fields_cons sep s : ∃ r rs, Py.fields sep s = r :: rs.
Proof.
  destruct s as [|c s]; simpl; [eauto|].
  destruct (sep c); [eauto|]. destruct (Py.fields sep s); eauto.
Qed.

(** The first field is the longest prefix free of separators. *)
Lemma fields_head sep s r rs :
  Py.fields sep s = r :: rs →
  ∃ suf, s = r ++ suf ∧ sep_free sep r ∧ starts_at_sep sep suf.
Proof.
  revert r rs. induction s as [|c s IH]; intros r rs; simpl.
  - intros [= <- <-]. exists []. split_and!; [done|constructor|by intros c].
  - destruct (sep c) eqn:Hc.
    + intros [= <- <-]. exists (c :: s).
      split_and!; [done|constructor|]. intros c' [= <-]. done.
    + destruct (fields_cons sep s) as (r' & rs' & Hf). rewrite Hf.
      intros [= <- <-]. destruct (IH _ _ Hf) as (suf & -> & Hfree & Hstart).
      exists suf. split_and!; [done| |done]. by constructor.
Qed.

Lemma sep_free_prefix_unique sep r1 suf1 r2 suf2 :
  r1 ++ suf1 = r2 ++ suf2 →
  sep_free sep r1 → sep_free sep r2 →
  starts_at_sep sep suf1 → starts_at_sep sep suf2 →
  r1 = r2.
Proof.
  revert r2. induction r1 as [|a r1 IH]; intros [|b r2] Heq H1 H2 S1 S2.
  - done.
  - simpl in Heq. subst suf1. apply Forall_cons in H2 as [Hb _].
    specialize (S1 b eq_refl). congruence.
  - simpl in Heq. subst suf2. apply Forall_cons in H1 as [Ha _].
    specialize (S2 a eq_refl). congruence.
  - injection Heq as -> Heq. f_equal.
    apply Forall_cons in H1 as [_ H1]. apply Forall_cons in H2 as [_ H2]. eauto.
Qed.

Lemma ends_at_sep_cons sep c pre :
  pre ≠ [] → ends_at_sep sep (c :: pre) ↔ ends_at_sep sep pre.
Proof.
  intros Hne. unfold ends_at_sep. destruct pre as [|b pre]; [done|].
  by rewrite last_cons_cons.
Qed.

(** The later fields are the separator-free stretches that start after a
    separator and end before one (or at the end of the text). *)
Lemma fields_tail sep s r0 rs r :
  Py.fields sep s = r0 :: rs →
  r ∈ rs ↔
  ∃ pre suf, s = pre ++ r ++ suf ∧ pre ≠ [] ∧ sep_free sep r ∧
             ends_at_sep sep pre ∧ starts_at_sep sep suf.
Proof.
  revert r0 rs. induction s as [|c s IH]; intros r0 rs; simpl.
  - intros [= <- <-]. split; [by intros ?%elem_of_nil|].
    intros (pre & suf & H & Hne & _). by destruct pre.
  - destruct (fields_cons sep s) as (r' & rs' & Hf).
    destruct (fields_head sep s r' rs' Hf) as (suf0 & Hs & Hfree0 & Hstart0).
    destruct (sep c) eqn:Hc.
    + intros [= <- <-]. rewrite Hf, elem_of_cons, (IH _ _ Hf). split.
      * intros [->|(pre & suf & -> & Hne & Hfree & He & Hst)].
        -- exists [c], suf0. split_and!; try done.
           ++ by rewrite Hs.
           ++ intros c' [= <-]. done.
        -- exists (c :: pre), suf. split_and!; try done.
           by apply ends_at_sep_cons.
      * intros (pre & suf & H & Hne & Hfree & He & Hst).
        destruct pre as [|c' pre]; [done|]. injection H as <- H.
        destruct pre as [|c'' pre].
        -- left. simpl in H. rewrite Hs in H.
           symmetry. by eapply sep_free_prefix_unique.
        -- right. by exists (c'' :: pre), suf.
    + rewrite Hf. intros [= <- <-]. rewrite (IH _ _ Hf). split.
      * intros (pre & suf & -> & Hne & Hfree & He & Hst).
        exists (c :: pre), suf. split_and!; try done.
        by apply ends_at_sep_cons.
      * intros (pre & suf & H & Hne & Hfree & He & Hst).
        destruct pre as [|c' pre]; [done|]. injection H as <- H.
        destruct pre as [|c'' pre].
        -- specialize (He c eq_refl). congruence.
        -- by exists (c'' :: pre), suf.
Qed.

(** The fields of a text are its maximal stretches without separator. *)
Lemma elem_of_fields sep s r :
  r ∈ Py.fields sep s ↔
  ∃ pre suf, s = pre ++ r ++ suf ∧ sep_free sep r ∧
             ends_at_sep sep pre ∧ starts_at_sep sep suf.
Proof.
  destruct (fields_cons sep s) as (r0 & rs & Hf).
  destruct (fields_head sep s r0 rs Hf) as (suf0 & Hs & Hfree0 & Hstart0).
  rewrite Hf, elem_of_cons, (fields_tail sep s r0 rs r Hf). split.
  - intros [->|(pre & suf & H & _ & ?)]; [|by exists pre, suf].
    exists [], suf0. split_and!; done.
  - intros (pre & suf & H & Hfree & He & Hst).
    destruct pre as [|c pre].
    + left. simpl in H. rewrite Hs in H.
      symmetry. by eapply sep_free_prefix_unique.
    + right. by exists (c :: pre), suf.
Qed.

(** ** Keyword extraction *)

Lemma is_alpha3_spec r :
  Py.is_alpha3 r = true ↔
  Forall (λ c, Py.is_ascii_alpha c = true) r ∧ 3 ≤ length r.
Proof.
  unfold Py.is_alpha3.
  rewrite andb_true_iff, forallb_forall, Forall_forall, Nat.leb_le.
  by setoid_rewrite list_elem_of_In.
Qed.

Lemma is_ascii_alpha_word c : Py.is_ascii_alpha c = true → Py.is_word c = true.
Proof. intros H. unfold Py.is_word. by rewrite H. Qed.

Lemma findall_alpha3_spec s w : w ∈ Py.findall_alpha3 s ↔ is_token s w.
Proof.
  unfold Py.findall_alpha3, Py.word_runs, is_token.
  rewrite list_elem_of_filter, is_alpha3_spec, elem_of_fields. split.
  - intros [[Ha Hl] (pre & suf & -> & _ & He & Hs)].
    exists pre, suf. split_and!; try done.
    + intros c Hc. by apply negb_true_iff, He.
    + intros c Hc. by apply negb_true_iff, Hs.
  - intros (pre & suf & -> & Ha & Hl & He & Hs). split; [done|].
    exists pre, suf. split_and!; try done.
    + eapply Forall_impl; [exact Ha|]. intros c Hc. simpl.
      by rewrite is_ascii_alpha_word.
    + intros c Hc. by apply negb_true_iff, He.
    + intros c Hc. by apply negb_true_iff, Hs.
Qed.

Lemma elem_of_candidate_keywords text w :
  w ∈ candidate_keywords text ↔ is_keyword_of text w.
Proof.
  unfold candidate_keywords, is_keyword_of.
  rewrite elem_of_list_to_set, list_elem_of_filter, chars_lower. split.
  - intros [Hstop Hin]. split; [|done].
    apply list_elem_of_In, in_map_iff in Hin as (r & <- & Hr).
    rewrite chars_str. by apply findall_alpha3_spec, list_elem_of_In.
  - intros [Htok Hstop]. split; [done|].
    apply list_elem_of_In, in_map_iff. exists (Py.chars w).
    split; [apply str_chars|]. by apply list_elem_of_In, findall_alpha3_spec.
Qed.

Lemma size_take_list_to_set (n : nat) (l : list string) :
  NoDup l → size (list_to_set (take n l) : gset string) = min n (length l).
Proof.
  intros Hl. rewrite size_list_to_set, length_take; [done|].
  eapply sublist_NoDup; [done|apply sublist_take].
Qed.

Lemma extract_topic_keywords_subseteq hash text :
  extract_topic_keywords hash text ⊆ candidate_keywords text.
Proof.
  intros w. unfold extract_topic_keywords, candidate_keywords.
  rewrite !elem_of_list_to_set. intros Hw.
  apply (set_iter_elem hash). eapply elem_of_sublist; [exact Hw|].
  apply sublist_take.
Qed.

Lemma size_candidate_keywords hash text :
  size (candidate_keywords text) =
  length (set_iter hash
            (filter (λ word, word ∉ stopwords)
               (map Py.str (Py.findall_alpha3 (Py.chars (Py.lower text)))))).
Proof.
  rewrite <- (size_list_to_set (C:=gset string)) by apply set_iter_NoDup.
  f_equal. apply set_eq. intros w. unfold candidate_keywords.
  by rewrite !elem_of_list_to_set, set_iter_elem.
Qed.

Lemma size_extract_topic_keywords hash text :
  size (extract_topic_keywords hash text) =
  min 10 (size (candidate_keywords text)).
Proof.
  rewrite (size_candidate_keywords hash). unfold extract_topic_keywords.
  apply size_take_list_to_set, set_iter_NoDup.
Qed.

Lemma size_extract_topic_keywords_le hash text :
  size (extract_topic_keywords hash text) ≤ 10.
Proof. rewrite size_extract_topic_keywords. lia. Qed.

(** C3 (as amended): the keywords of a text are tokens of the lower-cased
    text (at least three ASCII letters between word boundaries) that are
    not stopwords; the function keeps all of them when there are at most
    ten distinct ones and otherwise keeps exactly ten of them, which ten
    being decided by the iteration order of the set, that is by the string
    hashing of the process, of which the result is a function. *)
Theorem extract_topic_keywords_spec (hash : PyHash) (text : string) :
  (∀ w, w ∈ candidate_keywords text ↔ is_keyword_of text w) ∧
  (∀ w, w ∈ extract_topic_keywords hash text → is_keyword_of text w) ∧
  size (extract_topic_keywords hash text) =
    min 10 (size (candidate_keywords text)) ∧
  (size (candidate_keywords text) ≤ 10 →
   extract_topic_keywords hash text = candidate_keywords text).
Proof.
  split_and!.
  - apply elem_of_candidate_keywords.
  - intros w Hw. apply elem_of_candidate_keywords.
    exact (extract_topic_keywords_subseteq hash text w Hw).
  - apply size_extract_topic_keywords.
  - intros Hle. apply set_subseteq_size_eq.
    + apply extract_topic_keywords_subseteq.
    + rewrite size_extract_topic_keywords. lia.
Qed.

(** C3, counterexample: with an iteration order that does not follow the
    insertions, a text of eleven keywords loses its first keyword and keeps
    its eleventh, so the ten kept are not the first ten that appear. *)
Lemma extract_topic_keywords_not_first_ten :
  "alpha" ∈ first_ten_keywords eleven_words ∧
  ("alpha" ∉ extract_topic_keywords reversed_order eleven_words) ∧
  "kilo" ∈ extract_topic_keywords reversed_order eleven_words ∧
  (extract_topic_keywords reversed_order eleven_words
     ≠ first_ten_keywords eleven_words).
Proof.
  assert (H1 : "alpha" ∈ first_ten_keywords eleven_words) by by_compute.
  assert (H2 : "alpha" ∉ extract_topic_keywords reversed_order eleven_words)
    by by_compute.
  split_and!; [done|done|by_compute|].
  intros Heq. rewrite Heq in H2. exact (H2 H1).
Qed.

(** With the iteration order that follows the insertions the function does
    keep the first ten. *)
Lemma extract_topic_keywords_insertion_order text :
  extract_topic_keywords insertion_order text = first_ten_keywords text.
Proof. reflexivity. Qed.

(** C3, at a text of three keywords. *)
Lemma extract_topic_keywords_spec_witness :
  extract_topic_keywords reversed_order "The Rust borrow checker is HERE"
  = {["rust"; "borrow"; "checker"; "here"]}.
Proof.
  destruct (extract_topic_keywords_spec reversed_order
              "The Rust borrow checker is HERE") as (_ & _ & _ & Hall).
  rewrite Hall.
  - vm_compute. reflexivity.
  - by_compute.
Defined.

(** ** The bounded history *)

Lemma deque_append_length n x d :
  length d ≤ n → length (deque_append n x d) ≤ n.
Proof.
  intros H. unfold deque_append.
  destruct (n <? length (d ++ [x])) eqn:E.
  - rewrite length_drop, length_app. simpl. lia.
  - by apply Nat.ltb_ge in E.
Qed.

Lemma deque_append_full n x d :
  length d = n → 0 < n → deque_append n x d = drop 1 d ++ [x].
Proof.
  intros H Hn. unfold deque_append.
  destruct (n <? length (d ++ [x])) eqn:E.
  - destruct d; [simpl in H; lia|done].
  - apply Nat.ltb_ge in E. rewrite length_app in E. simpl in E. lia.
Qed.

Lemma deque_append_not_full n x d :
  length d < n → deque_append n x d = d ++ [x].
Proof.
  intros H. unfold deque_append.
  destruct (n <? length (d ++ [x])) eqn:E; [|done].
  apply Nat.ltb_lt in E. rewrite length_app in E. simpl in E. lia.
Qed.

(** Appending to the last [n] items of [l] gives the last [n] items of [l]
    with the new item. *)
Lemma deque_append_keep_last n x (l : list Message) :
  deque_append n x (keep_last n l) = keep_last n (l ++ [x]).
Proof.
  unfold keep_last. rewrite length_app. simpl.
  destruct (decide (length l < n)) as [Hlt|Hge].
  - replace (length l - n) with 0 by lia.
    replace (length l + 1 - n) with 0 by lia.
    rewrite !drop_0. by apply deque_append_not_full.
  - destruct (decide (n = 0)) as [->|Hn].
    + rewrite Nat.sub_0_r, drop_all. unfold deque_append. simpl.
      rewrite drop_ge; [done|]. rewrite length_app. simpl. lia.
    + rewrite deque_append_full; [|rewrite length_drop; lia|lia].
      rewrite drop_drop, drop_app_le by lia. do 2 f_equal. lia.
Qed.

(** What is in the deque stays in order; at most the oldest item leaves. *)
Lemma deque_append_suffix n x d b s :
  d = b ++ s → length s < n → ∃ b', deque_append n x d = b' ++ s ++ [x].
Proof.
  intros -> Hs. unfold deque_append.
  destruct (n <? length ((b ++ s) ++ [x])) eqn:E.
  - apply Nat.ltb_lt in E. destruct b as [|y b].
    + rewrite length_app in E. simpl in E. lia.
    + exists b. simpl. by rewrite drop_0, <- app_assoc.
  - exists b. by rewrite <- app_assoc.
Qed.

Lemma messages_add_message role content kws t c :
  messages (add_message role content kws t c) =
  deque_append MAX_HISTORY_LENGTH (new_message role content kws t) (messages c).
Proof. reflexivity. Qed.

Lemma keep_last_short {A} n (l : list A) : length l ≤ n → keep_last n l = l.
Proof.
  intros H. unfold keep_last. replace (length l - n) with 0 by lia.
  apply drop_0.
Qed.

Lemma length_keep_last {A} n (l : list A) : length (keep_last n l) ≤ n.
Proof. unfold keep_last. rewrite length_drop. lia. Qed.

(** Strict first-in first-out: after any appends the history holds the last
    twelve messages appended, in their order. *)
Lemma messages_add_messages entries c :
  length (messages c) ≤ MAX_HISTORY_LENGTH →
  messages (add_messages entries c) =
  keep_last MAX_HISTORY_LENGTH (messages c ++ map entry_message entries).
Proof.
  intros Hc. induction entries as [|e entries IH] using rev_ind.
  - simpl. rewrite app_nil_r. by rewrite keep_last_short.
  - unfold add_messages in *. rewrite foldl_snoc, messages_add_message, IH.
    rewrite deque_append_keep_last, map_app, app_assoc. done.
Qed.

(** ** The entry points *)

Section Store.

Variable hash : PyHash.
Variable clock : nat → Z.

Lemma context_of_Some u g c :
  conversation_histories g !! u = Some c → context_of clock u g = (c, g).
Proof. intros H. unfold context_of. by rewrite H. Qed.

Lemma context_of_None u g :
  conversation_histories g !! u = None →
  context_of clock u g =
  (ConversationContext_init (now clock g),
   store_context u (ConversationContext_init (now clock g)) (tick g)).
Proof. intros H. unfold context_of. by rewrite H. Qed.

(** The context read is the one stored, the topics are untouched, and a
    context created on the way is empty. *)
Lemma context_of_spec u g c g' :
  context_of clock u g = (c, g') →
  conversation_histories g' = <[u := c]> (conversation_histories g)
  ∧ user_topics g' = user_topics g
  ∧ (conversation_histories g !! u = Some c
     ∨ (conversation_histories g !! u = None ∧ messages c = [])).
Proof.
  unfold context_of. destruct (conversation_histories g !! u) as [c0|] eqn:E.
  - intros [= <- <-]. split_and!; [|done|by left].
    by rewrite insert_id.
  - intros [= <- <-]. split_and!; [done|done|by right].
Qed.

(** The three ways through the checks for a message of a user. *)
Lemma check_topic_change_cases content ck nk c g :
  (detect_explicit_topic_change content = true
   ∧ check_topic_change clock content ck nk c g =
       (clear_context (now clock g) c, Some ExplicitReset, tick g))
  ∨ (detect_explicit_topic_change content = false
     ∧ ck ≠ ∅ ∧ detect_topic_change ck nk = true
     ∧ 4 ≤ length (messages c)
     ∧ check_topic_change clock content ck nk c g =
         (clear_context (now clock g) c, Some AutomaticReset, tick g))
  ∨ (detect_explicit_topic_change content = false
     ∧ ¬ (ck ≠ ∅ ∧ detect_topic_change ck nk = true
          ∧ 4 ≤ length (messages c))
     ∧ check_topic_change clock content ck nk c g = (c, None, g)).
Proof.
  unfold check_topic_change.
  destruct (detect_explicit_topic_change content); [by left|right].
  destruct (decide (ck = ∅)) as [->|Hck].
  { right. rewrite bool_decide_eq_true_2 by done. cbn [negb andb].
    split_and!; [done| |done]. by intros (? & _). }
  rewrite bool_decide_eq_false_2 by done. cbn [negb andb].
  destruct (detect_topic_change ck nk);
    [|right; split_and!; [done| |done]; by intros (_ & ? & _)].
  destruct (4 <=? length (messages c)) eqn:E.
  - apply Nat.leb_le in E. left. by split_and!.
  - apply Nat.leb_gt in E. right. split_and!; [done| |done].
    intros (_ & _ & ?). lia.
Qed.

(** [add_to_conversation_history] for a message of a user, in terms of
    the context read and of the outcome of the checks. *)
Lemma add_user_message u content g c0 g0 c1 notice g1 :
  context_of clock u g = (c0, g0) →
  check_topic_change clock content (default ∅ (user_topics g0 !! u))
    (extract_topic_keywords hash content) c0 g0 = (c1, notice, g1) →
  add_to_conversation_history hash clock u "user" content g =
  (notice,
   store_context u
     (add_message "user" content (Some (extract_topic_keywords hash content))
        (now clock g1) c1)
     (tick (store_topic u (extract_topic_keywords hash content) g1))).
Proof.
  intros H0 H1. unfold add_to_conversation_history.
  rewrite H0. rewrite bool_decide_eq_true_2 by done. by rewrite H1.
Qed.

(** [add_to_conversation_history] for any other role: no check, no change
    of the tracked keywords, no keywords stored. *)
Lemma add_other_message u role content g c0 g0 :
  role ≠ "user" →
  context_of clock u g = (c0, g0) →
  add_to_conversation_history hash clock u role content g =
  (None,
   store_context u (add_message role content None (now clock g0) c0) (tick g0)).
Proof.
  intros Hr H0. unfold add_to_conversation_history.
  rewrite H0. by rewrite bool_decide_eq_false_2 by done.
Qed.

End Store.

(** ** What every sequence of calls preserves *)

Lemma wf_context_init t : wf_context (ConversationContext_init t).
Proof. split; [simpl; lia|constructor]. Qed.

Lemma wf_context_clear t c : wf_context (clear_context t c).
Proof. split; [simpl; lia|constructor]. Qed.

Lemma wf_context_add_message role content kws t c :
  wf_context c →
  size (msg_topic_keywords (new_message role content kws t)) ≤ 10 →
  wf_context (add_message role content kws t c).
Proof.
  intros [Hlen Hkw] Hnew. split.
  - rewrite messages_add_message. by apply deque_append_length.
  - rewrite messages_add_message. unfold deque_append.
    assert (Forall (λ m, size (msg_topic_keywords m) ≤ 10)
              (messages c ++ [new_message role content kws t])) as Hall.
    { apply Forall_app. split; [done|]. by constructor. }
    case_match; [by apply Forall_drop|done].
Qed.

Lemma size_new_message_user hash role content t :
  size (msg_topic_keywords
          (new_message role content
             (Some (extract_topic_keywords hash content)) t)) ≤ 10.
Proof.
  cbn [new_message msg_topic_keywords default]. case_match;
    first [apply size_extract_topic_keywords_le | rewrite size_empty; lia].
Qed.

Lemma size_new_message_other role content t :
  size (msg_topic_keywords (new_message role content None t)) ≤ 10.
Proof. change (size (∅ : gset string) ≤ 10). rewrite size_empty. lia. Qed.

Lemma size_union_le (X Y : gset string) : size (X ∪ Y) ≤ size X + size Y.
Proof.
  rewrite size_union_alt.
  assert (size (Y ∖ X) ≤ size Y); [|lia].
  apply subseteq_size. set_solver.
Qed.

Section Invariant.

Variable hash : PyHash.
Variable clock : nat → Z.

Lemma wf_context_of u g c g' :
  wf_globals g → context_of clock u g = (c, g') →
  wf_globals g' ∧ wf_context c.
Proof.
  intros [Hh Ht] H. destruct (context_of_spec clock u g c g' H) as (Eh & Et & Hc).
  assert (wf_context c) as Hwf.
  { destruct Hc as [Hc|[Hc Hm]].
    - by eapply (map_Forall_lookup_1 _ _ _ _ Hh).
    - unfold context_of in H. rewrite Hc in H. injection H as <- _.
      apply wf_context_init. }
  split; [|done]. split.
  - rewrite Eh. by apply map_Forall_insert_2.
  - by rewrite Et.
Qed.

Lemma wf_check_topic_change content ck nk c g c' notice g' :
  wf_globals g → wf_context c →
  check_topic_change clock content ck nk c g = (c', notice, g') →
  wf_globals g' ∧ wf_context c'.
Proof.
  intros Hg Hc H.
  destruct (check_topic_change_cases clock content ck nk c g)
    as [(_ & E)|[(_ & _ & _ & _ & E)|(_ & _ & E)]];
    rewrite E in H; injection H as <- _ <-;
    (split; [done|]); try apply wf_context_clear; done.
Qed.

Lemma wf_add_to_conversation_history u role content g :
  wf_globals g →
  wf_globals (add_to_conversation_history hash clock u role content g).2.
Proof.
  intros Hg.
  destruct (context_of clock u g) as [c0 g0] eqn:E0.
  destruct (wf_context_of u g c0 g0 Hg E0) as [Hg0 Hc0].
  destruct (decide (role = "user")) as [->|Hr].
  - destruct (check_topic_change clock content
                (default ∅ (user_topics g0 !! u))
                (extract_topic_keywords hash content) c0 g0)
      as [[c1 notice] g1] eqn:E1.
    destruct (wf_check_topic_change _ _ _ _ _ _ _ _ Hg0 Hc0 E1) as [[Hh1 Ht1] Hc1].
    rewrite (add_user_message hash clock u content g c0 g0 c1 notice g1 E0 E1).
    split; simpl.
    + apply map_Forall_insert_2; [|done].
      apply wf_context_add_message; [done|apply size_new_message_user].
    + apply map_Forall_insert_2; [|done].
      apply size_extract_topic_keywords_le.
  - rewrite (add_other_message hash clock u role content g c0 g0 Hr E0).
    destruct Hg0 as [Hh0 Ht0]. split; simpl; [|done].
    apply map_Forall_insert_2; [|done].
    apply wf_context_add_message; [done|apply size_new_message_other].
Qed.

Lemma wf_clear_user_context u g :
  wf_globals g → wf_globals (clear_user_context clock u g).2.
Proof.
  intros [Hh Ht]. unfold clear_user_context.
  destruct (conversation_histories g !! u) as [c|]; [|done].
  simpl. case_bool_decide; split; simpl;
    try (apply map_Forall_insert_2; [apply wf_context_clear|done]);
    try done.
  by apply map_Forall_delete.
Qed.

Lemma wf_get_conversation_history u g :
  wf_globals g → wf_globals (get_conversation_history clock u g).2.
Proof.
  intros Hg. unfold get_conversation_history.
  destruct (context_of clock u g) as [c0 g0] eqn:E0. simpl.
  by destruct (wf_context_of u g c0 g0 Hg E0).
Qed.

Lemma wf_do_call g c : wf_globals g → wf_globals (do_call hash clock g c).
Proof.
  destruct c; simpl.
  - apply wf_get_conversation_history.
  - apply wf_add_to_conversation_history.
  - apply wf_clear_user_context.
Qed.

Lemma wf_initial_globals : wf_globals initial_globals.
Proof. split; apply map_Forall_empty. Qed.

Lemma wf_run_calls calls g :
  wf_globals g → wf_globals (run_calls hash clock calls g).
Proof.
  revert g. induction calls as [|c calls IH]; intros g Hg; [done|].
  simpl. by apply IH, wf_do_call.
Qed.

End Invariant.

(** ** One call of [add_to_conversation_history] *)

Lemma topic_keywords_add_message role content (k : gset string) t c :
  topic_keywords (add_message role content (Some k) t c)
  = topic_keywords c ∪ k.
Proof.
  cbn [add_message topic_keywords set_truthy default].
  case_bool_decide as Hk; cbn [negb]; [|done]. subst k. set_solver.
Qed.

Lemma deque_append_bounded n x d :
  0 < n → length d ≤ n →
  deque_append n x d = (if decide (length d = n) then drop 1 d else d) ++ [x].
Proof.
  intros Hn Hle. case_decide as Hd.
  - rewrite deque_append_full by done.
    done.
  - apply deque_append_not_full. lia.
Qed.

Section Step.

Variable hash : PyHash.
Variable clock : nat → Z.

(** What the call stores for the user: after a reset the new message
    alone, else the history with the new message appended; and what it
    tracks. *)
Lemma add_to_conversation_history_step u role content g c0 g0 :
  context_of clock u g = (c0, g0) →
  let nk := extract_topic_keywords hash content in
  let kws := if bool_decide (role = "user") then Some nk else None in
  let r := add_to_conversation_history hash clock u role content g in
  ∃ c',
    conversation_histories r.2 = <[u := c']> (conversation_histories g)
    ∧ user_topics r.2
      = (if bool_decide (role = "user") then <[u := nk]> (user_topics g)
         else user_topics g)
    ∧ match r.1 with
      | Some _ =>
          role = "user"
          ∧ messages c'
            = [new_message role content kws (clock (S (time_calls g0)))]
          ∧ topic_keywords c' = nk
          ∧ last_reset c' = clock (time_calls g0)
      | None =>
          messages c'
          = deque_append MAX_HISTORY_LENGTH
              (new_message role content kws (clock (time_calls g0)))
              (messages c0)
          ∧ topic_keywords c'
            = (if bool_decide (role = "user") then topic_keywords c0 ∪ nk
               else topic_keywords c0)
          ∧ last_reset c' = last_reset c0
      end.
Proof.
  intros E nk kws r. subst r kws.
  pose proof (context_of_spec clock _ _ _ _ E) as (Hh & Ht & _).
  destruct (decide (role = "user")) as [->|Hr].
  - rewrite (bool_decide_eq_true_2 ("user" = "user")) by done.
    pose proof (check_topic_change_cases clock content
                  (default ∅ (user_topics g0 !! u)) nk c0 g0) as Hcases.
    destruct Hcases as [(_ & E1)|[(_ & _ & _ & _ & E1)|(_ & _ & E1)]];
      rewrite (add_user_message hash clock _ _ _ _ _ _ _ _ E E1);
      eexists; cbn [fst snd store_context store_topic tick
                    conversation_histories user_topics];
      rewrite Hh, Ht, insert_insert_eq;
      (split; [reflexivity|]); (split; [reflexivity|]).
    + split_and!; [done|done| |done].
      rewrite topic_keywords_add_message. cbn [clear_context topic_keywords].
      set_solver.
    + split_and!; [done|done| |done].
      rewrite topic_keywords_add_message. cbn [clear_context topic_keywords].
      set_solver.
    + split_and!; [|apply topic_keywords_add_message|done].
      by rewrite messages_add_message.
  - rewrite (bool_decide_eq_false_2 (role = "user")) by done.
    rewrite (add_other_message hash clock _ _ _ _ _ _ Hr E).
    eexists. cbn [fst snd store_context tick conversation_histories
                  user_topics].
    rewrite Hh, Ht, insert_insert_eq.
    split; [reflexivity|]. split; [reflexivity|].
    split_and!; [|done|done]. by rewrite messages_add_message.
Qed.

End Step.

(** C4: whatever calls are made, no stored history holds more than twelve
    messages; appending to a history of twelve drops exactly its oldest
    message and keeps the other eleven in order before the new one; after
    any appends to a new context the history is the last twelve messages
    appended, so a thirteenth append drops exactly the first; and in every
    state that calls lead to, [add_to_conversation_history] appends in that
    way: the history afterwards is the history before, without its oldest
    message when it held twelve, followed by the new message, or the new
    message alone when the call resets the context. *)
Theorem history_bounded_fifo (hash : PyHash) (clock : nat → Z) :
  (∀ calls u c,
     conversation_histories (run_calls hash clock calls initial_globals) !! u
       = Some c →
     length (messages c) ≤ 12)
  ∧ (∀ c role content kws t oldest rest,
       messages c = oldest :: rest → length rest = 11 →
       messages (add_message role content kws t c)
         = rest ++ [new_message role content kws t])
  ∧ (∀ t0 entries,
       let c := add_messages entries (ConversationContext_init t0) in
       length (messages c) ≤ 12
       ∧ messages c = keep_last 12 (map entry_message entries))
  ∧ (∀ t0 first entries,
       length entries = 12 →
       messages (add_messages (first :: entries) (ConversationContext_init t0))
         = map entry_message entries)
  ∧ (∀ calls u role content c,
       let g := run_calls hash clock calls initial_globals in
       let r := add_to_conversation_history hash clock u role content g in
       conversation_histories g !! u = Some c →
       ∃ c' m,
         conversation_histories r.2 !! u = Some c'
         ∧ role_and_content m = (role, content)
         ∧ messages c'
           = match r.1 with
             | Some _ => []
             | None =>
                 if decide (length (messages c) = 12)
                 then drop 1 (messages c) else messages c
             end ++ [m]
         ∧ length (messages c') ≤ 12).
Proof.
  assert (∀ calls u c,
            conversation_histories
              (run_calls hash clock calls initial_globals) !! u = Some c →
            length (messages c) ≤ 12) as Hbound.
  { intros calls u c Hc.
    destruct (wf_run_calls hash clock calls initial_globals wf_initial_globals)
      as [Hh _].
    by destruct (map_Forall_lookup_1 _ _ _ _ Hh Hc). }
  split_and!.
  - exact Hbound.
  - intros c role content kws t oldest rest Hm Hl.
    rewrite messages_add_message, deque_append_full.
    + by rewrite Hm.
    + rewrite Hm. simpl. by rewrite Hl.
    + unfold MAX_HISTORY_LENGTH. lia.
  - intros t0 entries c. subst c.
    rewrite messages_add_messages by (simpl; lia). simpl.
    split; [apply length_keep_last|done].
  - intros t0 first entries Hl.
    rewrite messages_add_messages by (simpl; lia).
    unfold keep_last. simpl. rewrite length_map, Hl. done.
  - intros calls u role content c g r Hc.
    pose proof (Hbound calls u c Hc) as Hlen.
    pose proof (add_to_conversation_history_step hash clock u role content g
                  c g (context_of_Some clock u g c Hc)) as Hstep.
    cbv zeta in Hstep. fold r in Hstep.
    destruct Hstep as (c' & Hh & _ & Hcase).
    rewrite Hh, lookup_insert_eq.
    destruct r.1 as [notice|].
    + destruct Hcase as (_ & Hm & _).
      eexists c', _. split_and!; [reflexivity| |exact Hm|].
      * reflexivity.
      * rewrite Hm. simpl. lia.
    + destruct Hcase as (Hm & _ & _).
      rewrite deque_append_bounded in Hm
        by (unfold MAX_HISTORY_LENGTH; lia).
      eexists c', _. split_and!; [reflexivity| |exact Hm|].
      * reflexivity.
      * rewrite Hm, length_app. unfold MAX_HISTORY_LENGTH in *.
        case_decide; rewrite ?length_drop; simpl; lia.
Qed.

(** C4, at a user with twelve stored messages who gets a thirteenth: the
    bound is reached, the first message is dropped and the other eleven
    stay in order before the new one. *)
Lemma history_bounded_fifo_witness :
  let calls :=
    map (AddMessage 3 "assistant")
      ["m01"; "m02"; "m03"; "m04"; "m05"; "m06"; "m07"; "m08"; "m09"; "m10";
       "m11"; "m12"] in
  let g := run_calls insertion_order Z.of_nat calls initial_globals in
  let r := add_to_conversation_history insertion_order Z.of_nat 3 "assistant"
             "m13" g in
  ∃ c c',
    conversation_histories g !! 3%Z = Some c
    ∧ map msg_content (messages c)
      = ["m01"; "m02"; "m03"; "m04"; "m05"; "m06"; "m07"; "m08"; "m09"; "m10";
         "m11"; "m12"]
    ∧ conversation_histories r.2 !! 3%Z = Some c'
    ∧ map msg_content (messages c')
      = ["m02"; "m03"; "m04"; "m05"; "m06"; "m07"; "m08"; "m09"; "m10"; "m11";
         "m12"; "m13"]
    ∧ length (messages c') ≤ 12.
Proof.
  intros calls g r.
  destruct (history_bounded_fifo insertion_order Z.of_nat)
    as (_ & _ & _ & _ & Hstep).
  assert ((map msg_content ∘ messages) <$> conversation_histories g !! 3%Z
          = Some ["m01"; "m02"; "m03"; "m04"; "m05"; "m06"; "m07"; "m08";
                  "m09"; "m10"; "m11"; "m12"]) as Hm
    by (vm_compute; reflexivity).
  destruct (conversation_histories g !! 3%Z) as [c|] eqn:Hc; [|discriminate].
  injection Hm as Hm.
  assert (r.1 = None) as Hnone by (vm_compute; reflexivity).
  destruct (Hstep calls 3%Z "assistant" "m13" c Hc)
    as (c' & m & Hc' & Hrc & Hm' & Hlen).
  fold g r in Hm'. rewrite Hnone in Hm'.
  exists c, c'. split_and!; [reflexivity|exact Hm|exact Hc'| |exact Hlen].
  rewrite Hm'.
  rewrite decide_True by (by rewrite <- (length_map msg_content), Hm).
  rewrite map_app, <- skipn_map, Hm. simpl.
  by injection Hrc as _ ->.
Defined.

(** C7, counterexample: two messages of a user with six keywords each leave
    twelve keywords in the topic keyword set of the context. *)
Lemma topic_keywords_exceed_ten :
  ∃ c,
    conversation_histories
      (run_calls insertion_order Z.of_nat
         [AddMessage 1 "user" "alpha bravo charlie delta echo foxtrot";
          AddMessage 1 "user" "golf hotel india juliet kilo lima"]
         initial_globals) !! 1%Z = Some c
    ∧ size (topic_keywords c) = 12.
Proof. eexists. split; vm_compute; reflexivity. Qed.

Section Accumulate.

Variable hash : PyHash.
Variable clock : nat → Z.

Lemma topic_keywords_step u role content g c c' :
  conversation_histories g !! u = Some c →
  conversation_histories
    (add_to_conversation_history hash clock u role content g).2 !! u
    = Some c' →
  topic_keywords c'
  = if bool_decide (role = "user")
    then match (add_to_conversation_history hash clock u role content g).1
         with
         | Some _ => ∅
         | None => topic_keywords c
         end ∪ extract_topic_keywords hash content
    else topic_keywords c.
Proof.
  intros Hc Hc'.
  pose proof (add_to_conversation_history_step hash clock u role content g
                c g (context_of_Some clock u g c Hc)) as Hstep.
  cbv zeta in Hstep. destruct Hstep as (c1 & Hh & _ & Hcase).
  rewrite Hh, lookup_insert_eq in Hc'. injection Hc' as <-.
  destruct (add_to_conversation_history hash clock u role content g).1.
  - destruct Hcase as (-> & _ & -> & _).
    rewrite bool_decide_eq_true_2 by done. set_solver.
  - by destruct Hcase as (_ & -> & _).
Qed.

Lemma topic_keywords_add_all u entries :
  ∀ g c,
    conversation_histories g !! u = Some c →
    Forall (λ notice, notice = None) (add_all hash clock u entries g).1 →
    ∃ c',
      conversation_histories (add_all hash clock u entries g).2 !! u = Some c'
      ∧ topic_keywords c' = topic_keywords c ∪ user_keywords hash entries.
Proof.
  induction entries as [|[role content] entries IH]; intros g c Hc Hall.
  - exists c. split; [done|]. unfold user_keywords. simpl. set_solver.
  - cbn [add_all] in *.
    destruct (add_to_conversation_history hash clock u role content g)
      as [notice g1] eqn:E1.
    destruct (add_all hash clock u entries g1) as [notices g2] eqn:E2.
    cbn [fst snd] in *. apply Forall_cons in Hall as [-> Hall].
    pose proof (add_to_conversation_history_step hash clock u role content g
                  c g (context_of_Some clock u g c Hc)) as Hstep.
    cbv zeta in Hstep. rewrite E1 in Hstep. cbn [fst snd] in Hstep.
    destruct Hstep as (c1 & Hh & _ & _ & Hk & _).
    assert (conversation_histories g1 !! u = Some c1) as Hc1
      by (by rewrite Hh, lookup_insert_eq).
    specialize (IH g1 c1 Hc1). rewrite E2 in IH. cbn [fst snd] in IH.
    destruct (IH Hall) as (c' & Hc' & Hk').
    exists c'. split; [done|]. rewrite Hk', Hk.
    unfold user_keywords. rewrite filter_cons. cbn [fst snd].
    case_bool_decide; case_decide; try done; simpl; set_solver.
Qed.

End Accumulate.

(** C7 (as amended): whatever calls are made, the keyword set tracked for a
    user and the keyword set stored with a message hold at most ten
    entries, and a call of [add_to_conversation_history] adds at most ten
    entries to the topic keyword set of the context.  That set
    accumulates: a message of the user that resets the context leaves its
    own keywords in the set, one that does not reset adds its keywords to
    the set, and a message of another role leaves the set as it is; so
    after messages stored without reset the set holds what it held before
    and the keywords of every message of the user among them.  Clearing
    the context empties the set. *)
Theorem tracked_keywords_bounded (hash : PyHash) (clock : nat → Z)
    (calls : list Call) :
  let g := run_calls hash clock calls initial_globals in
  (∀ u k, user_topics g !! u = Some k → size k ≤ 10)
  ∧ (∀ u c m,
       conversation_histories g !! u = Some c → m ∈ messages c →
       size (msg_topic_keywords m) ≤ 10)
  ∧ (∀ u role content c c',
       conversation_histories g !! u = Some c →
       conversation_histories
         (add_to_conversation_history hash clock u role content g).2 !! u
         = Some c' →
       size (topic_keywords c') ≤ size (topic_keywords c) + 10)
  ∧ (∀ u role content c c',
       conversation_histories g !! u = Some c →
       conversation_histories
         (add_to_conversation_history hash clock u role content g).2 !! u
         = Some c' →
       topic_keywords c'
       = if bool_decide (role = "user")
         then match
                (add_to_conversation_history hash clock u role content g).1
              with
              | Some _ => ∅
              | None => topic_keywords c
              end ∪ extract_topic_keywords hash content
         else topic_keywords c)
  ∧ (∀ u entries c,
       conversation_histories g !! u = Some c →
       Forall (λ notice, notice = None) (add_all hash clock u entries g).1 →
       ∃ c',
         conversation_histories (add_all hash clock u entries g).2 !! u
           = Some c'
         ∧ topic_keywords c' = topic_keywords c ∪ user_keywords hash entries)
  ∧ (∀ u c',
       conversation_histories (clear_user_context clock u g).2 !! u = Some c' →
       topic_keywords c' = ∅).
Proof.
  intros g.
  destruct (wf_run_calls hash clock calls initial_globals wf_initial_globals)
    as [Hh Ht].
  fold g in Hh, Ht. split_and!.
  - intros u k Hk. exact (map_Forall_lookup_1 _ _ _ _ Ht Hk).
  - intros u c m Hc Hm.
    destruct (map_Forall_lookup_1 _ _ _ _ Hh Hc) as [_ Hall].
    by eapply Forall_forall in Hall.
  - intros u role content c c' Hc.
    pose proof (context_of_Some clock u g c Hc) as E0.
    destruct (decide (role = "user")) as [->|Hr].
    + destruct (check_topic_change clock content
                  (default ∅ (user_topics g !! u))
                  (extract_topic_keywords hash content) c g)
        as [[c1 notice] g1] eqn:E1.
      rewrite (add_user_message hash clock u content g c g c1 notice g1 E0 E1).
      cbn [snd store_context conversation_histories].
      rewrite lookup_insert_eq. intros [= <-].
      cbn [add_message topic_keywords default].
      assert (size (topic_keywords c1) ≤ size (topic_keywords c)) as Hle.
      { destruct (check_topic_change_cases clock content
                    (default ∅ (user_topics g !! u))
                    (extract_topic_keywords hash content) c g)
          as [(_ & E)|[(_ & _ & _ & _ & E)|(_ & _ & E)]];
          rewrite E in E1; injection E1 as <- _ _;
          cbn [clear_context topic_keywords]; rewrite ?size_empty; lia. }
      pose proof (size_extract_topic_keywords_le hash content).
      case_match; [|lia]. unfold id.
      pose proof (size_union_le (topic_keywords c1)
                    (extract_topic_keywords hash content)). lia.
    + rewrite (add_other_message hash clock u role content g c g Hr E0).
      cbn [snd store_context conversation_histories].
      rewrite lookup_insert_eq. intros [= <-].
      cbn [add_message topic_keywords set_truthy]. lia.
  - intros u role content c c'. apply topic_keywords_step.
  - intros u entries c. apply topic_keywords_add_all.
  - intros u c'. unfold clear_user_context.
    destruct (conversation_histories g !! u) as [c|] eqn:Hc.
    + cbn [snd]. case_bool_decide;
        cbn [delete_topic store_context conversation_histories];
        rewrite lookup_insert_eq; by intros [= <-].
    + cbn [snd]. rewrite Hc. done.
Qed.

(** C7, at the two messages of the counterexample: the tracked keywords
    are the six of the second message, and the set of the context holds
    the twelve of both. *)
Lemma tracked_keywords_bounded_witness :
  let calls := [AddMessage 1 "user" "alpha bravo charlie delta echo foxtrot"] in
  let g := run_calls insertion_order Z.of_nat calls initial_globals in
  let r := add_all insertion_order Z.of_nat 1
             [("user", "golf hotel india juliet kilo lima")] g in
  (∃ k, user_topics g !! 1%Z = Some k ∧ size k ≤ 10)
  ∧ ∃ c',
      conversation_histories r.2 !! 1%Z = Some c'
      ∧ topic_keywords c'
        = {["alpha"; "bravo"; "charlie"; "delta"; "echo"; "foxtrot"]}
          ∪ {["golf"; "hotel"; "india"; "juliet"; "kilo"; "lima"]}.
Proof.
  intros calls g r.
  destruct (tracked_keywords_bounded insertion_order Z.of_nat calls)
    as (Htracked & _ & _ & _ & Hall & _).
  fold g in Htracked, Hall. split.
  - assert (user_topics g !! 1%Z
            = Some {["alpha"; "bravo"; "charlie"; "delta"; "echo"; "foxtrot"]})
      as Hk by (vm_compute; reflexivity).
    eexists. split; [exact Hk|]. exact (Htracked 1%Z _ Hk).
  - assert (topic_keywords <$> conversation_histories g !! 1%Z
            = Some {["alpha"; "bravo"; "charlie"; "delta"; "echo"; "foxtrot"]})
      as Hk by (vm_compute; reflexivity).
    destruct (conversation_histories g !! 1%Z) as [c|] eqn:Hc; [|discriminate].
    injection Hk as Hk.
    destruct (Hall 1%Z [("user", "golf hotel india juliet kilo lima")] c Hc)
      as (c' & Hc' & Hk').
    + assert (r.1 = [None]) as Hr by (vm_compute; reflexivity).
      fold r. rewrite Hr. by repeat constructor.
    + exists c'. split; [exact Hc'|]. rewrite Hk', Hk. by f_equal.
Defined.

(** ** Resets *)

Lemma get_conversation_history_Some clock u g c :
  conversation_histories g !! u = Some c →
  get_conversation_history clock u g =
  (map (λ msg, (msg_role msg, msg_content msg))
     (get_relevant_messages c (default ∅ (user_topics g !! u))), g).
Proof.
  intros H. unfold get_conversation_history.
  by rewrite (context_of_Some clock u g c H).
Qed.

Lemma get_relevant_messages_empty c k :
  messages c = [] → get_relevant_messages c k = [].
Proof.
  intros H. unfold get_relevant_messages. rewrite H. by case_bool_decide.
Qed.

(** C8 (as amended): [clear_user_context] answers whether the user has a
    context, not whether the context holds anything.  For a user without
    context it answers [False] and changes nothing; for a user with a
    context, empty or not, it answers [True], the context is emptied (no
    message, no keyword, the time of the reset recorded), the keywords
    tracked for the user are removed, and the history fetched next is
    empty. *)
Theorem clear_user_context_spec (clock : nat → Z) (u : Z) (g : Globals) :
  ((clear_user_context clock u g).1 = true ↔
   is_Some (conversation_histories g !! u))
  ∧ (conversation_histories g !! u = None →
     clear_user_context clock u g = (false, g))
  ∧ (∀ c, conversation_histories g !! u = Some c →
       (clear_user_context clock u g).1 = true
       ∧ conversation_histories (clear_user_context clock u g).2 !! u
         = Some (clear_context (now clock g) c)
       ∧ user_topics (clear_user_context clock u g).2 !! u = None
       ∧ (get_conversation_history clock u
            (clear_user_context clock u g).2).1 = []).
Proof.
  assert (∀ c, conversation_histories g !! u = Some c →
               conversation_histories (clear_user_context clock u g).2 !! u
               = Some (clear_context (now clock g) c)) as Hstored.
  { intros c Hc. unfold clear_user_context. rewrite Hc. cbn [snd].
    case_bool_decide; cbn [conversation_histories store_context delete_topic];
      apply lookup_insert_eq. }
  split_and!.
  - unfold clear_user_context.
    destruct (conversation_histories g !! u) as [c|]; cbn [fst].
    + split; [by eexists|done].
    + split; [done|by intros [? ?]].
  - intros H. unfold clear_user_context. by rewrite H.
  - intros c Hc. split_and!.
    + unfold clear_user_context. by rewrite Hc.
    + by apply Hstored.
    + unfold clear_user_context. rewrite Hc. cbn [snd].
      case_bool_decide as Ht;
        cbn [user_topics store_context delete_topic tick].
      * apply lookup_delete_eq.
      * cbn [user_topics store_context tick] in Ht.
        destruct (user_topics g !! u) eqn:E; [|done].
        destruct Ht. by eexists.
    + rewrite (get_conversation_history_Some _ _ _ _ (Hstored c Hc)).
      cbn [fst]. by rewrite get_relevant_messages_empty.
Qed.

(** C8, counterexample: a user who has only read the history, and a user
    whose context has just been cleared, have nothing to clear, and the
    answer is [True]. *)
Lemma clear_user_context_true_on_empty :
  let g := run_calls insertion_order Z.of_nat [GetHistory 5] initial_globals in
  let g' := run_calls insertion_order Z.of_nat
              [AddMessage 6 "user" "please explain monads"; ClearContext 6]
              initial_globals in
  stored_history 5 g = []
  ∧ user_topics g !! 5%Z = None
  ∧ (clear_user_context Z.of_nat 5 g).1 = true
  ∧ stored_history 6 g' = []
  ∧ user_topics g' !! 6%Z = None
  ∧ (clear_user_context Z.of_nat 6 g').1 = true.
Proof. split_and!; vm_compute; reflexivity. Qed.

(** C8, at a user with one stored message, at a user with an empty
    context and at a user the store does not know. *)
Lemma clear_user_context_spec_witness :
  let g := run_calls insertion_order Z.of_nat
             [AddMessage 5 "user" "please explain monads"; GetHistory 7]
             initial_globals in
  clear_user_context Z.of_nat 6 g = (false, g)
  ∧ (clear_user_context Z.of_nat 5 g).1 = true
  ∧ (get_conversation_history Z.of_nat 5
       (clear_user_context Z.of_nat 5 g).2).1 = []
  ∧ (clear_user_context Z.of_nat 7 g).1 = true.
Proof.
  intros g.
  destruct (clear_user_context_spec Z.of_nat 6 g) as (_ & H6 & _).
  destruct (clear_user_context_spec Z.of_nat 5 g) as (_ & _ & H5).
  destruct (clear_user_context_spec Z.of_nat 7 g) as (H7 & _).
  assert (is_Some (conversation_histories g !! 5%Z)) as [c Hc]
    by (by_compute).
  destruct (H5 c Hc) as (Ht & _ & _ & He).
  split_and!.
  - apply H6. vm_compute. reflexivity.
  - exact Ht.
  - exact He.
  - apply H7. by_compute.
Defined.

Lemma set_truthy_default (k : gset string) :
  (if set_truthy (Some k) then default ∅ (Some k) else ∅) = k.
Proof. simpl. by case_bool_decide. Qed.

Lemma union_truthy (k0 k : gset string) :
  (if set_truthy (Some k) then k0 ∪ default ∅ (Some k) else k0) = k0 ∪ k.
Proof.
  simpl. case_bool_decide as E; simpl; [|done].
  rewrite E. by rewrite (right_id_L ∅ (∪)).
Qed.

(** C5: a message of a user whose lower-cased content contains one of the
    reset phrases empties the context before the message is stored,
    whatever the history and the tracked keywords were: afterwards the
    history holds the new message alone, the topic keywords are those of
    the new message, the reset time is the reading of the clock at the
    reset, and the notification is the explicit one. *)
Theorem explicit_reset_clears (hash : PyHash) (clock : nat → Z) (u : Z)
    (content : string) (g : Globals) (phrase : string) (pre suf : list ascii) :
  phrase ∈ AUTO_RESET_KEYWORDS →
  Py.lower_chars (Py.chars content) = pre ++ Py.chars phrase ++ suf →
  ∃ n c',
    let g' := (add_to_conversation_history hash clock u "user" content g).2 in
    let nk := extract_topic_keywords hash content in
    (add_to_conversation_history hash clock u "user" content g).1
      = Some ExplicitReset
    ∧ time_calls g ≤ n
    ∧ conversation_histories g' !! u = Some c'
    ∧ messages c' = [new_message "user" content (Some nk) (clock (S n))]
    ∧ topic_keywords c' = nk
    ∧ last_reset c' = clock n
    ∧ user_topics g' !! u = Some nk.
Proof.
  intros Hin Hsub.
  assert (detect_explicit_topic_change content = true) as Hex.
  { apply detect_explicit_topic_change_spec. by exists phrase, pre, suf. }
  destruct (context_of clock u g) as [c0 g0] eqn:E0.
  assert (time_calls g ≤ time_calls g0) as Hn.
  { unfold context_of in E0. case_match; injection E0 as <- <-; simpl; lia. }
  destruct (check_topic_change_cases clock content
              (default ∅ (user_topics g0 !! u))
              (extract_topic_keywords hash content) c0 g0)
    as [(_ & E)|[(Hne & _)|(Hne & _)]]; [|congruence..].
  exists (time_calls g0).
  eexists. cbn zeta.
  rewrite (add_user_message hash clock u content g c0 g0 _ _ _ E0 E).
  cbn [fst snd store_context tick store_topic conversation_histories
       user_topics]. rewrite !lookup_insert_eq.
  split_and!; [done|done|done|done| | |done].
  - cbn [add_message topic_keywords clear_context].
    rewrite union_truthy. by rewrite (left_id_L ∅ (∪)).
  - done.
Qed.

(** C5, at a user whose history is not empty and whose new message has the
    keywords of the one before. *)
Lemma explicit_reset_clears_witness :
  let g := run_calls insertion_order Z.of_nat
             [AddMessage 5 "user" "please explain monads"] initial_globals in
  ∃ n c',
    (add_to_conversation_history insertion_order Z.of_nat 5 "user"
       "New topic: please explain monads" g).1 = Some ExplicitReset
    ∧ conversation_histories
        (add_to_conversation_history insertion_order Z.of_nat 5 "user"
           "New topic: please explain monads" g).2 !! 5%Z = Some c'
    ∧ length (messages c') = 1
    ∧ last_reset c' = Z.of_nat n.
Proof.
  intros g.
  destruct (explicit_reset_clears insertion_order Z.of_nat 5
              "New topic: please explain monads" g "new topic" []
              (Py.chars ": please explain monads"))
    as (n & c' & H1 & _ & H3 & H4 & _ & H6 & _).
  - by_compute.
  - vm_compute. reflexivity.
  - exists n, c'. split_and!; [done|done| |done]. by rewrite H4.
Defined.

(** ** Topic drift *)

(** On the sizes that keyword sets have, the binary64 comparison with
    [1 - 0.7] (which is 0.30000000000000004) holds exactly when the ratio
    is at most 3/10: the quotient 3/10 itself rounds below the bound. *)
Lemma below_threshold_small i u :
  0 < u → u ≤ 20 → i ≤ u → below_threshold i u = (10 * i <=? 3 * u).
Proof.
  intros H0 H20 Hi.
  assert (forallb (λ u, forallb (λ i,
            Bool.eqb (below_threshold i u) (10 * i <=? 3 * u))
            (seq 0 21)) (seq 1 20) = true) as Hall
    by (vm_compute; reflexivity).
  rewrite forallb_forall in Hall.
  specialize (Hall u). rewrite forallb_forall in Hall.
  apply Bool.eqb_prop, Hall; apply in_seq; lia.
Qed.

Lemma size_nonempty (k : gset string) : k ≠ ∅ → size k ≠ 0.
Proof. intros Hk E. apply Hk, leibniz_equiv, size_empty_inv, E. Qed.

Lemma detect_topic_change_small (old_keywords new_keywords : gset string) :
  size old_keywords ≤ 10 → size new_keywords ≤ 10 →
  detect_topic_change old_keywords new_keywords = true ↔
  old_keywords ≠ ∅ ∧ new_keywords ≠ ∅ ∧
  10 * size (old_keywords ∩ new_keywords)
    ≤ 3 * size (old_keywords ∪ new_keywords).
Proof.
  intros Ho Hn. unfold detect_topic_change.
  destruct (decide (old_keywords = ∅)) as [->|Hoe].
  { rewrite bool_decide_eq_true_2 by done. simpl. split; [done|]. by intros []. }
  destruct (decide (new_keywords = ∅)) as [->|Hne].
  { rewrite (bool_decide_eq_true_2 (∅ = ∅)) by done. rewrite orb_true_r.
    split; [done|]. by intros (_ & ? & _). }
  rewrite !bool_decide_eq_false_2 by done. cbn [orb].
  pose proof (size_union_le old_keywords new_keywords) as Hu.
  assert (size (old_keywords ∩ new_keywords)
            ≤ size (old_keywords ∪ new_keywords)) as Hiu
    by (apply subseteq_size; set_solver).
  assert (0 < size (old_keywords ∪ new_keywords)) as Hpos.
  { assert (size old_keywords ≤ size (old_keywords ∪ new_keywords))
      by (apply subseteq_size; set_solver).
    pose proof (size_nonempty old_keywords Hoe). lia. }
  destruct (size (old_keywords ∪ new_keywords) =? 0) eqn:E0.
  { apply Nat.eqb_eq in E0. lia. }
  fold (below_threshold (size (old_keywords ∩ new_keywords))
          (size (old_keywords ∪ new_keywords))).
  rewrite below_threshold_small by lia.
  rewrite Nat.leb_le. split; [by intros ?|by intros (_ & _ & ?)].
Qed.

(** Two equal sets of at most ten keywords are no change of topic. *)
Lemma detect_topic_change_same (k : gset string) :
  size k ≤ 10 → detect_topic_change k k = false.
Proof.
  intros Hk. apply not_true_is_false. intros H.
  apply detect_topic_change_small in H as (Hne & _ & H); [|done..].
  replace (k ∩ k) with k in H by set_solver.
  replace (k ∪ k) with k in H by set_solver.
  pose proof (size_nonempty k Hne). lia.
Qed.

(** C6 (as amended): a message of a user without reset phrase never gets
    the explicit notification; when fewer than four messages are stored
    the history is kept, the message is appended to it and there is no
    notification, whatever the keywords; the automatic reset happens
    exactly when four or more messages are stored, keywords are tracked
    and [detect_topic_change] holds of the tracked and the new keywords;
    and that comparison, done in binary64 against [1 - 0.7], holds exactly
    when both sets are non-empty and the ratio of the sizes of their
    intersection and union is at most 3/10 (3/10 included).  When the
    reset happens, the history is cleared: it holds the new message alone,
    the keywords of the context are those of the message and the time of
    the reset is recorded.  When it does not, the history is kept and the
    message appended (at the bound the oldest message goes), and the
    keywords of the message join those of the context.  In both cases the
    keywords of the message become the tracked ones. *)
Theorem automatic_reset_guard (hash : PyHash) (clock : nat → Z) (u : Z)
    (content : string) (g : Globals) (c0 : ConversationContext) (g0 : Globals) :
  detect_explicit_topic_change content = false →
  context_of clock u g = (c0, g0) →
  size (default ∅ (user_topics g !! u)) ≤ 10 →
  let tracked := default ∅ (user_topics g !! u) in
  let nk := extract_topic_keywords hash content in
  let r := add_to_conversation_history hash clock u "user" content g in
  r.1 ≠ Some ExplicitReset
  ∧ (length (messages c0) < 4 →
     r.1 = None
     ∧ ∃ c', conversation_histories r.2 !! u = Some c'
             ∧ messages c' =
               messages c0
                 ++ [new_message "user" content (Some nk) (now clock g0)])
  ∧ (r.1 = Some AutomaticReset ↔
     4 ≤ length (messages c0) ∧ tracked ≠ ∅
     ∧ detect_topic_change tracked nk = true)
  ∧ (detect_topic_change tracked nk = true ↔
     tracked ≠ ∅ ∧ nk ≠ ∅
     ∧ 10 * size (tracked ∩ nk) ≤ 3 * size (tracked ∪ nk))
  ∧ (r.1 = Some AutomaticReset →
     ∃ c', conversation_histories r.2 !! u = Some c'
           ∧ messages c' =
             [new_message "user" content (Some nk)
                (clock (S (time_calls g0)))]
           ∧ topic_keywords c' = nk
           ∧ last_reset c' = now clock g0)
  ∧ (r.1 = None →
     ∃ c', conversation_histories r.2 !! u = Some c'
           ∧ messages c' =
             deque_append MAX_HISTORY_LENGTH
               (new_message "user" content (Some nk) (now clock g0))
               (messages c0)
           ∧ topic_keywords c' = topic_keywords c0 ∪ nk
           ∧ last_reset c' = last_reset c0)
  ∧ user_topics r.2 !! u = Some nk.
Proof.
  intros Hex E0 Hsize tracked nk r.
  destruct (context_of_spec clock u g c0 g0 E0) as (_ & Et & _).
  assert (default ∅ (user_topics g0 !! u) = tracked) as Htr
    by (unfold tracked; by rewrite Et).
  pose proof (check_topic_change_cases clock content
                (default ∅ (user_topics g0 !! u)) nk c0 g0) as Hcases.
  rewrite Htr in Hcases.
  assert (∀ c1 notice g1,
            check_topic_change clock content tracked nk c0 g0
              = (c1, notice, g1) →
            r = (notice,
                 store_context u
                   (add_message "user" content (Some nk) (now clock g1) c1)
                   (tick (store_topic u nk g1)))) as Hr.
  { intros c1 notice g1 E1. rewrite <- Htr in E1.
    apply (add_user_message hash clock u content g c0 g0 c1 notice g1 E0 E1). }
  pose proof (add_to_conversation_history_step hash clock u "user" content g
                c0 g0 E0) as Hstep.
  cbv zeta in Hstep. fold r nk in Hstep.
  rewrite (bool_decide_eq_true_2 ("user" = "user")) in Hstep by done.
  destruct Hstep as (c' & Hh & Hu & Hcase).
  split_and!.
  - destruct Hcases as [(? & _)|[(_ & _ & _ & _ & E)|(_ & _ & E)]];
      [congruence|..]; rewrite (Hr _ _ _ E); done.
  - intros Hlt.
    destruct Hcases as [(? & _)|[(_ & _ & _ & ? & _)|(_ & _ & E)]];
      [congruence|lia|].
    rewrite (Hr _ _ _ E). split; [done|].
    eexists. cbn [snd store_context conversation_histories].
    rewrite lookup_insert_eq. split; [done|].
    rewrite messages_add_message. apply deque_append_not_full.
    unfold MAX_HISTORY_LENGTH. lia.
  - destruct Hcases as [(? & _)|[(_ & ? & ? & ? & E)|(_ & Hn & E)]];
      [congruence|..]; rewrite (Hr _ _ _ E); cbn [fst].
    + split; [by intros _|done].
    + split; [done|]. intros (? & ? & ?). destruct Hn. done.
  - apply detect_topic_change_small; [done|].
    apply size_extract_topic_keywords_le.
  - intros Hauto. rewrite Hauto in Hcase.
    destruct Hcase as (_ & Hm & Hk & Hl).
    exists c'. by rewrite Hh, lookup_insert_eq.
  - intros Hnone. rewrite Hnone in Hcase.
    destruct Hcase as (Hm & Hk & Hl).
    exists c'. by rewrite Hh, lookup_insert_eq.
  - by rewrite Hu, lookup_insert_eq.
Qed.

(** C6, at a user with one stored message whose next message shares no
    keyword with it, and at a user with four stored messages whose next
    message shares no keyword with the tracked ones: the first keeps the
    history, the second gets the automatic reset and a history of one
    message. *)
Lemma automatic_reset_guard_witness :
  let g := run_calls insertion_order Z.of_nat
             [AddMessage 1 "user" "alpha bravo charlie"] initial_globals in
  let g4 := run_calls insertion_order Z.of_nat
              [AddMessage 1 "assistant" "first answer";
               AddMessage 1 "assistant" "second answer";
               AddMessage 1 "assistant" "third answer"] g in
  let r4 := add_to_conversation_history insertion_order Z.of_nat 1 "user"
              "delta echo foxtrot" g4 in
  detect_topic_change (default ∅ (user_topics g !! 1%Z))
    (extract_topic_keywords insertion_order "delta echo foxtrot") = true
  ∧ (add_to_conversation_history insertion_order Z.of_nat 1 "user"
       "delta echo foxtrot" g).1 = None
  ∧ r4.1 = Some AutomaticReset
  ∧ ∃ c', conversation_histories r4.2 !! 1%Z = Some c'
          ∧ map role_and_content (messages c')
            = [("user", "delta echo foxtrot")].
Proof.
  intros g g4 r4.
  destruct (automatic_reset_guard insertion_order Z.of_nat 1
              "delta echo foxtrot" g
              (context_of Z.of_nat 1 g).1 (context_of Z.of_nat 1 g).2)
    as (_ & Hsparse & _ & _).
  { vm_compute. reflexivity. }
  { apply surjective_pairing. }
  { by_compute. }
  destruct (automatic_reset_guard insertion_order Z.of_nat 1
              "delta echo foxtrot" g4
              (context_of Z.of_nat 1 g4).1 (context_of Z.of_nat 1 g4).2)
    as (_ & _ & Hfires & _ & Hcleared & _).
  { vm_compute. reflexivity. }
  { apply surjective_pairing. }
  { by_compute. }
  fold r4 in Hfires, Hcleared.
  assert (r4.1 = Some AutomaticReset) as Hauto.
  { apply Hfires. split_and!.
    - by_compute.
    - by_compute.
    - vm_compute. reflexivity. }
  split_and!.
  - vm_compute. reflexivity.
  - apply Hsparse. by_compute.
  - exact Hauto.
  - destruct (Hcleared Hauto) as (c' & Hc' & Hm & _).
    exists c'. split; [exact Hc'|]. by rewrite Hm.
Defined.

(** C6, counterexample: four messages are stored, the tracked keywords and
    the new ones share three keywords out of ten in all, so the similarity
    is 3/10 and not below it, and the automatic reset happens. *)
Lemma automatic_reset_at_three_tenths :
  let g := run_calls insertion_order Z.of_nat
             [AddMessage 1 "user" "alpha bravo charlie delta echo foxtrot";
              AddMessage 1 "assistant" "first answer";
              AddMessage 1 "assistant" "second answer";
              AddMessage 1 "assistant" "third answer"] initial_globals in
  let content := "alpha bravo charlie golf hotel india juliet" in
  let tracked := default ∅ (user_topics g !! 1%Z) in
  let nk := extract_topic_keywords insertion_order content in
  detect_explicit_topic_change content = false
  ∧ size (tracked ∩ nk) = 3
  ∧ size (tracked ∪ nk) = 10
  ∧ ¬ (10 * size (tracked ∩ nk) < 3 * size (tracked ∪ nk))
  ∧ (add_to_conversation_history insertion_order Z.of_nat 1 "user" content g).1
    = Some AutomaticReset.
Proof.
  intros g content tracked nk.
  assert (size (tracked ∩ nk) = 3) as Hi by (vm_compute; reflexivity).
  assert (size (tracked ∪ nk) = 10) as Hu by (vm_compute; reflexivity).
  split_and!; [vm_compute; reflexivity|done|done| |vm_compute; reflexivity].
  rewrite Hi, Hu. lia.
Qed.

(** ** The relevant history *)

Lemma index_lt x l : x ∈ l → index x l < length l.
Proof.
  induction l as [|y l IH]; [by intros ?%elem_of_nil|].
  simpl. destruct (decide (y = x)); [lia|].
  intros [?|?]%elem_of_cons; [congruence|]. apply IH in H. lia.
Qed.

(** In a list without equal items [list.index] gives the position. *)
Lemma index_lookup l i x : NoDup l → l !! i = Some x → index x l = i.
Proof.
  revert i. induction l as [|y l IH]; intros i Hnd Hi; [done|].
  apply NoDup_cons in Hnd as [Hy Hnd]. simpl.
  destruct i as [|i]; simpl in Hi.
  - injection Hi as ->. by rewrite decide_True.
  - rewrite decide_False.
    + f_equal. by apply IH.
    + intros ->. apply Hy. by eapply list_elem_of_lookup_2.
Qed.

Lemma filter_ext_elem {A} (P Q : A → Prop)
    `{∀ x, Decision (P x)} `{∀ x, Decision (Q x)} (l : list A) :
  (∀ x, x ∈ l → P x ↔ Q x) → filter P l = filter Q l.
Proof.
  induction l as [|x l IH]; intros Hl; [done|].
  rewrite !filter_cons.
  rewrite IH by (intros y Hy; apply Hl; by right).
  destruct (Hl x) as [H1 H2]; [by left|].
  destruct (decide (P x)), (decide (Q x)); tauto.
Qed.

Lemma filter_all {A} (P : A → Prop) `{∀ x, Decision (P x)} (l : list A) :
  (∀ x, x ∈ l → P x) → filter P l = l.
Proof.
  induction l as [|x l IH]; intros Hl; [done|].
  rewrite filter_cons_True by (apply Hl; by left).
  f_equal. apply IH. intros y Hy. apply Hl. by right.
Qed.

Lemma get_relevant_messages_no_topic c :
  get_relevant_messages c ∅ = messages c.
Proof. unfold get_relevant_messages. by rewrite bool_decide_eq_true_2. Qed.

Lemma overlaps_iff k m :
  (msg_topic_keywords m ≠ ∅ ∧ 0 < size (msg_topic_keywords m ∩ k))
  ↔ overlaps k m.
Proof.
  unfold overlaps. split.
  - intros [_ H] E. rewrite E, size_empty in H. lia.
  - intros H. split.
    + intros E. apply H. rewrite E. set_solver.
    + pose proof (size_nonempty _ H). lia.
Qed.

(** When the stored messages differ from each other, the selection is the
    intended one: the last four and, of the older ones, those that share a
    keyword with the tracked set, in the order of the history. *)
Lemma get_relevant_messages_distinct c k :
  NoDup (messages c) → k ≠ ∅ →
  get_relevant_messages c k = recent_and_related k (messages c).
Proof.
  intros Hnd Hk. unfold get_relevant_messages, recent_and_related.
  rewrite bool_decide_eq_false_2 by done.
  set (ms := messages c) in *. set (n := length ms).
  match goal with |- filter ?P _ = _ => set (relevant := P) end.
  transitivity (filter relevant (take (n - 4) ms ++ drop (n - 4) ms));
    [by rewrite take_drop|].
  rewrite filter_app. subst relevant. f_equal.
  - apply filter_ext_elem. intros m Hm.
    apply elem_of_take in Hm as (i & Hi & Hlt).
    rewrite (index_lookup ms i m Hnd Hi). rewrite <- overlaps_iff.
    apply lookup_lt_Some in Hi. fold n in Hi. split; [|by right].
    intros [?|?]; [lia|done].
  - apply filter_all. intros m Hm.
    apply list_elem_of_lookup in Hm as (i & Hi).
    rewrite lookup_drop in Hi.
    rewrite (index_lookup ms _ m Hnd Hi). left. lia.
Qed.

(** Without tracked keywords the whole history is returned, oldest first. *)
Lemma get_conversation_history_no_topic clock u g c :
  conversation_histories g !! u = Some c →
  default ∅ (user_topics g !! u) = ∅ →
  (get_conversation_history clock u g).1 = map role_and_content (messages c).
Proof.
  intros Hc Hk. rewrite (get_conversation_history_Some clock u g c Hc), Hk.
  cbn [fst]. by rewrite get_relevant_messages_no_topic.
Qed.

(** With tracked keywords and stored messages that differ from each other,
    the history returned is the intended selection. *)
Lemma get_conversation_history_distinct clock u g c k :
  conversation_histories g !! u = Some c →
  user_topics g !! u = Some k → k ≠ ∅ → NoDup (messages c) →
  (get_conversation_history clock u g).1 =
  map role_and_content (recent_and_related k (messages c)).
Proof.
  intros Hc Hk Hne Hnd.
  rewrite (get_conversation_history_Some clock u g c Hc), Hk.
  cbn [fst default]. by rewrite get_relevant_messages_distinct.
Qed.

(** C2, at the failing input: two equal answers stored at the same reading
    of the clock are the second and third of six messages; the third is one
    of the last four, but [list.index] finds it at the position of the
    second, so the history returned lacks it. *)
Theorem get_conversation_history_drops_recent :
  let g := run_calls insertion_order coarse_clock twice_ok initial_globals in
  let k : gset string := {["rust"; "lifetimes"]} in
  ∃ c,
    conversation_histories g !! 1%Z = Some c
    ∧ user_topics g !! 1%Z = Some k ∧ k ≠ ∅
    ∧ map role_and_content (messages c) =
        [("user", "rust lifetimes"); ("assistant", "ok"); ("assistant", "ok");
         ("assistant", "borrowing comes first"); ("assistant", "then elision");
         ("assistant", "anything else")]
    ∧ map role_and_content (recent_and_related k (messages c)) =
        [("user", "rust lifetimes"); ("assistant", "ok");
         ("assistant", "borrowing comes first"); ("assistant", "then elision");
         ("assistant", "anything else")]
    ∧ (get_conversation_history coarse_clock 1 g).1 =
        [("user", "rust lifetimes");
         ("assistant", "borrowing comes first"); ("assistant", "then elision");
         ("assistant", "anything else")].
Proof.
  intros g k. eexists.
  split_and!; [vm_compute; reflexivity|vm_compute; reflexivity|by_compute|
               vm_compute; reflexivity..].
Qed.

(** ** Admission of a request *)

Lemma run_length_spec c n s :
  n ≤ run_length c s ↔ ∃ suf, s = replicate n c ++ suf.
Proof.
  revert s. induction n as [|n IH]; intros s.
  - split; [by exists s|lia].
  - destruct s as [|c' s]; simpl.
    + split; [lia|]. by intros [suf H].
    + destruct (decide (c' = c)) as [->|Hne].
      * rewrite <- Nat.succ_le_mono, IH. split.
        -- intros [suf ->]. by exists suf.
        -- intros [suf [= ->]]. by exists suf.
      * split; [lia|]. intros [suf [= -> _]]. done.
Qed.

Lemma search_repeated_spec n s :
  search_repeated n s = true ↔
  ∃ pre c suf, s = pre ++ replicate (S n) c ++ suf ∧ c ≠ "010"%char.
Proof.
  induction s as [|c s IH]; simpl.
  - split; [done|]. intros (pre & c & suf & H & _). by destruct pre.
  - rewrite orb_true_iff, andb_true_iff, negb_true_iff, bool_decide_eq_false,
      Nat.leb_le, run_length_spec, IH. split.
    + intros [[Hc [suf ->]]|(pre & c' & suf & -> & Hc)].
      * by exists [], c, suf.
      * by exists (c :: pre), c', suf.
    + intros (pre & c' & suf & H & Hc). destruct pre as [|c0 pre].
      * left. injection H as -> ->. split; [done|]. by exists suf.
      * right. injection H as _ ->. by exists pre, c', suf.
Qed.

(** *** Character classes *)

Lemma lower_char_a c :
  Py.lower_char c = "a"%char ↔ c = "a"%char ∨ c = "A"%char.
Proof.
  split.
  - destruct c as [[] [] [] [] [] [] [] []]; vm_compute; intros H;
      first [discriminate H | by left | by right].
  - by intros [->| ->].
Qed.

Lemma lower_char_alpha c :
  Py.is_ascii_lower (Py.lower_char c) = true → Py.is_word c = true.
Proof. destruct c as [[] [] [] [] [] [] [] []]; vm_compute; done. Qed.

Lemma lower_chars_word tok :
  Forall (λ c, Py.is_ascii_lower c = true) (Py.lower_chars tok) →
  Forall (λ c, Py.is_word c = true) tok.
Proof.
  unfold Py.lower_chars. induction tok as [|c tok IH]; simpl; [done|].
  intros [Hc Ht]%Forall_cons. constructor; [by apply lower_char_alpha|eauto].
Qed.

Lemma low_content_token_word tok :
  low_content_token tok → Forall (λ c, Py.is_word c = true) tok.
Proof.
  intros [H|[H|[[_ H]|[_ H]]]].
  - apply lower_chars_word. rewrite H. by repeat constructor.
  - apply lower_chars_word. rewrite H. by repeat constructor.
  - eapply Forall_impl; [exact H|]. by intros c [->| ->].
  - eapply Forall_impl; [exact H|]. by intros c ->.
Qed.

Lemma is_low_content_spec run :
  is_low_content run = true ↔ low_content_token run.
Proof.
  unfold is_low_content, low_content_token.
  rewrite !orb_true_iff, !andb_true_iff, !bool_decide_eq_true, !Nat.leb_le.
  rewrite !forallb_forall, !Forall_forall.
  setoid_rewrite <- list_elem_of_In. setoid_rewrite bool_decide_eq_true.
  assert ((∀ x, x ∈ Py.lower_chars run → x = "a"%char) ↔
          (∀ x, x ∈ run → x = "a"%char ∨ x = "A"%char)) as ->.
  { unfold Py.lower_chars. split.
    - intros H x Hx. apply lower_char_a, H, list_elem_of_In, in_map.
      by apply list_elem_of_In.
    - intros H x Hx. apply list_elem_of_In, in_map_iff in Hx as (y & <- & Hy).
      apply lower_char_a, H. by apply list_elem_of_In. }
  tauto.
Qed.

Lemma search_low_content_spec s :
  search_low_content s = true ↔ has_low_content s.
Proof.
  unfold search_low_content, has_low_content, Py.word_runs.
  rewrite existsb_exists. split.
  - intros (r & Hr & Hlow). apply is_low_content_spec in Hlow.
    apply list_elem_of_In, elem_of_fields in Hr as (pre & suf & -> & _ & He & Hs).
    exists pre, r, suf. split_and!; try done.
    + intros c Hc. by apply negb_true_iff, He.
    + intros c Hc. by apply negb_true_iff, Hs.
  - intros (pre & tok & suf & -> & Hlow & He & Hs). exists tok. split.
    + apply list_elem_of_In, elem_of_fields. exists pre, suf.
      split_and!; try done.
      * eapply Forall_impl; [by apply low_content_token_word|].
        intros c Hc. simpl. by rewrite Hc.
      * intros c Hc. by apply negb_true_iff, He.
      * intros c Hc. by apply negb_true_iff, Hs.
    + by apply is_low_content_spec.
Qed.

(** *** Whitespace *)

Lemma lstrip_nil s :
  Py.lstrip s = [] ↔ Forall (λ c, Py.is_space c = true) s.
Proof.
  induction s as [|c s IH]; simpl; [done|].
  destruct (Py.is_space c) eqn:E.
  - rewrite IH. split; [by constructor|]. by intros [_ ?]%Forall_cons.
  - split; [done|]. intros [? _]%Forall_cons. congruence.
Qed.

Lemma strip_nil s :
  Py.strip s = [] ↔ Forall (λ c, Py.is_space c = true) s.
Proof.
  unfold Py.strip. split.
  - intros H. apply (f_equal reverse) in H. rewrite reverse_involutive in H.
    change (reverse []) with (@nil ascii) in H.
    apply lstrip_nil in H. rewrite Forall_reverse in H.
    destruct (Py.lstrip s) as [|c s'] eqn:E; [by apply lstrip_nil|].
    apply Forall_cons in H as [Hc _].
    assert (Py.is_space c = false); [|congruence].
    clear -E. induction s as [|d s IH]; [done|]. simpl in E.
    destruct (Py.is_space d) eqn:Ed; [by apply IH|]. by injection E as ->.
  - intros H. apply lstrip_nil in H. by rewrite H.
Qed.

Lemma blank_spec text :
  bool_decide (text = "") || bool_decide (Py.strip (Py.chars text) = [])
    = true ↔ blank text.
Proof.
  rewrite orb_true_iff, !bool_decide_eq_true, strip_nil. unfold blank. split.
  - intros [->|?]; [constructor|done].
  - by right.
Qed.

Lemma elem_of_join_space c parts :
  c ∈ Py.join_space parts → c = " "%char ∨ ∃ p, p ∈ parts ∧ c ∈ p.
Proof.
  induction parts as [|p parts IH]; [by intros ?%elem_of_nil|].
  destruct parts as [|q parts].
  - simpl. intros H. right. exists p. split; [by left|done].
  - change (Py.join_space (p :: q :: parts))
      with (p ++ " "%char :: Py.join_space (q :: parts)).
    rewrite elem_of_app, elem_of_cons. intros [H|[H|H]].
    + right. exists p. split; [by left|done].
    + by left.
    + destruct (IH H) as [?|(p' & Hp' & Hc)]; [by left|].
      right. exists p'. split; [by right|done].
Qed.

(** The normalized text has no whitespace but single spaces. *)
Lemma normalize_whitespace_chars text c :
  c ∈ normalize_whitespace text → c = " "%char ∨ Py.is_space c = false.
Proof.
  unfold normalize_whitespace, Py.split. intros H.
  apply elem_of_join_space in H as [?|(p & Hp & Hc)]; [by left|]. right.
  apply list_elem_of_filter in Hp as [_ Hp].
  apply elem_of_fields in Hp as (_ & _ & _ & Hfree & _).
  by eapply Forall_forall in Hfree.
Qed.

Lemma search_repeated_normalized n text :
  search_repeated n (normalize_whitespace text) = true ↔
  has_run_over n (normalize_whitespace text).
Proof.
  rewrite search_repeated_spec. unfold has_run_over. split.
  - intros (pre & c & suf & H & _). by exists pre, c, suf.
  - intros (pre & c & suf & H). exists pre, c, suf. split; [done|].
    intros ->.
    destruct (normalize_whitespace_chars text "010"%char) as [?|?]; [|done..].
    rewrite H. simpl. rewrite elem_of_app. right. by left.
Qed.

Section Validate.

Variable text : string.
Variable max_length : nat.

Lemma validate_blank :
  blank text →
  validate_and_sanitize_input text max_length = (false, "", EmptyInput).
Proof.
  intros Hb%blank_spec. unfold validate_and_sanitize_input. by rewrite Hb.
Qed.

Lemma not_blank_spec :
  ¬ blank text →
  bool_decide (text = "") || bool_decide (Py.strip (Py.chars text) = [])
    = false.
Proof. intros Hb. apply not_true_iff_false. by rewrite blank_spec. Qed.

Lemma validate_too_long :
  ¬ blank text → max_length < length (normalize_whitespace text) →
  validate_and_sanitize_input text max_length
  = (false, "",
     InputTooLong max_length (length (normalize_whitespace text))).
Proof.
  intros Hb%not_blank_spec Hl%Nat.ltb_lt.
  unfold validate_and_sanitize_input. cbv zeta. by rewrite Hb, Hl.
Qed.

Lemma validate_too_short :
  ¬ blank text →
  length (normalize_whitespace text) ≤ max_length →
  length (normalize_whitespace text) < 3 →
  validate_and_sanitize_input text max_length = (false, "", InputTooShort).
Proof.
  intros Hb%not_blank_spec Hl%Nat.ltb_ge Hs%Nat.ltb_lt.
  unfold validate_and_sanitize_input. cbv zeta. by rewrite Hb, Hl, Hs.
Qed.

(** The two abuse heuristics say what they are meant to say of the
    normalized text. *)
Lemma abuse_spec :
  (length (normalize_whitespace text) <? 20)
    && search_low_content (normalize_whitespace text)
  || search_repeated 20 (normalize_whitespace text) = true ↔
  (length (normalize_whitespace text) < 20
   ∧ has_low_content (normalize_whitespace text))
  ∨ has_run_over 20 (normalize_whitespace text).
Proof.
  rewrite orb_true_iff, andb_true_iff, Nat.ltb_lt, search_low_content_spec.
  by rewrite search_repeated_normalized.
Qed.

Lemma validate_invalid :
  ¬ blank text →
  3 ≤ length (normalize_whitespace text) ≤ max_length →
  (length (normalize_whitespace text) < 20
   ∧ has_low_content (normalize_whitespace text))
  ∨ has_run_over 20 (normalize_whitespace text) →
  validate_and_sanitize_input text max_length = (false, "", InvalidInput).
Proof.
  intros Hb%not_blank_spec [Hs%Nat.ltb_ge Hl%Nat.ltb_ge] Ha%abuse_spec.
  unfold validate_and_sanitize_input. cbv zeta. by rewrite Hb, Hl, Hs, Ha.
Qed.

Lemma validate_accepted :
  ¬ blank text →
  3 ≤ length (normalize_whitespace text) ≤ max_length →
  ¬ (length (normalize_whitespace text) < 20
     ∧ has_low_content (normalize_whitespace text)) →
  ¬ has_run_over 20 (normalize_whitespace text) →
  validate_and_sanitize_input text max_length
  = (true, Py.str (normalize_whitespace text), NoError).
Proof.
  intros Hb%not_blank_spec [Hs%Nat.ltb_ge Hl%Nat.ltb_ge] Hlow Hrun.
  assert ((length (normalize_whitespace text) <? 20)
            && search_low_content (normalize_whitespace text)
          || search_repeated 20 (normalize_whitespace text) = false) as Ha.
  { apply not_true_iff_false. rewrite abuse_spec. tauto. }
  unfold validate_and_sanitize_input. cbv zeta. by rewrite Hb, Hl, Hs, Ha.
Qed.

End Validate.

Lemma validate_aaaaa :
  validate_and_sanitize_input "aaaaa" 4000 = (false, "", InvalidInput).
Proof. vm_compute. reflexivity. Qed.

Lemma validate_4096 :
  validate_and_sanitize_input (repeat_char "x" 4096) 4000
  = (false, "", InputTooLong 4000 4096).
Proof. vm_compute. reflexivity. Qed.

Lemma validate_sentence :
  validate_and_sanitize_input sentence_of_fifty 4000
  = (true, sentence_of_fifty, NoError).
Proof. vm_compute. reflexivity. Qed.

(** C9 (as amended): the input is rejected, with the reason of the first
    case that applies, when it is blank; when its whitespace-normalized
    form is longer than the bound (the message gives the bound and the
    length); when that form has fewer than three characters; when that
    form is shorter than twenty characters and holds between word
    boundaries, case ignored, "spam", "test", three or more "a" or three or
    more "1", or when it holds a run of more than twenty equal characters.
    Every other input is accepted and returned in normalized form.  So
    "aaaaa" is rejected, 4096 letters are rejected as too long, and a
    sentence of fifty characters is accepted as it is. *)
Theorem validate_and_sanitize_input_spec (text : string) (max_length : nat) :
  let cleaned := normalize_whitespace text in
  let r := validate_and_sanitize_input text max_length in
  (blank text → r = (false, "", EmptyInput))
  ∧ (¬ blank text → max_length < length cleaned →
     r = (false, "", InputTooLong max_length (length cleaned)))
  ∧ (¬ blank text → length cleaned ≤ max_length → length cleaned < 3 →
     r = (false, "", InputTooShort))
  ∧ (¬ blank text → 3 ≤ length cleaned ≤ max_length →
     (length cleaned < 20 ∧ has_low_content cleaned) ∨ has_run_over 20 cleaned →
     r = (false, "", InvalidInput))
  ∧ (¬ blank text → 3 ≤ length cleaned ≤ max_length →
     ¬ (length cleaned < 20 ∧ has_low_content cleaned) →
     ¬ has_run_over 20 cleaned →
     r = (true, Py.str cleaned, NoError))
  ∧ validate_and_sanitize_input "aaaaa" 4000 = (false, "", InvalidInput)
  ∧ validate_and_sanitize_input (repeat_char "x" 4096) 4000
    = (false, "", InputTooLong 4000 4096)
  ∧ validate_and_sanitize_input sentence_of_fifty 4000
    = (true, sentence_of_fifty, NoError).
Proof.
  intros cleaned r. subst cleaned r. split_and!.
  - apply validate_blank.
  - apply validate_too_long.
  - apply validate_too_short.
  - apply validate_invalid.
  - apply validate_accepted.
  - exact validate_aaaaa.
  - exact validate_4096.
  - exact validate_sentence.
Qed.

(** C9, counterexample: a short input that is a run of one letter is
    accepted when the letter is not "a"; an input of 4096 characters that
    holds a run of 4086 spaces is accepted, since the run and the length
    are gone once whitespace is normalized; and an input of four
    characters is rejected as shorter than three. *)
Lemma validate_and_sanitize_input_literal :
  validate_and_sanitize_input "bbbbb" 4000 = (true, "bbbbb", NoError)
  ∧ String.length ("hello" +:+ repeat_char " " 4086 +:+ "world") = 4096
  ∧ validate_and_sanitize_input
      ("hello" +:+ repeat_char " " 4086 +:+ "world") 4000
    = (true, "hello world", NoError)
  ∧ validate_and_sanitize_input " ab " 4000 = (false, "", InputTooShort).
Proof. split_and!; vm_compute; reflexivity. Qed.

(** C9, at a short input that holds the word "spam". *)
Lemma validate_and_sanitize_input_spec_witness :
  validate_and_sanitize_input "  this is   Spam " 4000
  = (false, "", InvalidInput).
Proof.
  destruct (validate_and_sanitize_input_spec "  this is   Spam " 4000)
    as (_ & _ & _ & Hinvalid & _).
  apply Hinvalid.
  - intros Hb. unfold blank in Hb.
    assert (Py.is_space "t" = true) as Ht.
    { eapply Forall_forall in Hb; [exact Hb|].
      apply list_elem_of_In. vm_compute. right. right. left. reflexivity. }
    vm_compute in Ht. discriminate Ht.
  - vm_compute. split; [lia|]. apply Nat.leb_le. reflexivity.
  - left. split; [vm_compute; lia|].
    exists (Py.chars "this is "), (Py.chars "Spam"), [].
    split_and!.
    + vm_compute. reflexivity.
    + left. vm_compute. reflexivity.
    + intros c Hc. vm_compute in Hc. injection Hc as <-. reflexivity.
    + intros c Hc. discriminate Hc.
Defined.

(** ** The retry loop *)

Section RetryLoop.

Variable hash : PyHash.
Variable clock : nat → Z.
Variable job : Job.

Lemma retry_loop_return result script rc p crm g tr :
  rc < max_retries → result ≠ ResultNone →
  retry_loop hash clock job (Returns result :: script) rc p crm g tr =
  let '(call, p', crm', g') := prepare_call hash clock job p crm g in
  Some (LoopResult result p' crm', g', tr ++ [call]).
Proof.
  intros Hrc%Nat.ltb_lt Hres. cbn [retry_loop]. rewrite Hrc. cbn [negb].
  destruct (prepare_call hash clock job p crm g) as [[[call p'] crm'] g'].
  by destruct result.
Qed.

Lemma retry_loop_none script rc p crm g tr :
  rc < max_retries →
  retry_loop hash clock job (Returns ResultNone :: script) rc p crm g tr =
  let '(call, p', crm', g') := prepare_call hash clock job p crm g in
  retry_loop hash clock job script rc p' crm' g' (tr ++ [call]).
Proof.
  intros Hrc%Nat.ltb_lt. cbn [retry_loop]. rewrite Hrc. cbn [negb].
  by destruct (prepare_call hash clock job p crm g) as [[[call p'] crm'] g'].
Qed.

Lemma retry_loop_raise error script rc p crm g tr :
  S rc < max_retries →
  retry_loop hash clock job (Raises error :: script) rc p crm g tr =
  let '(call, p', crm', g') := prepare_call hash clock job p crm g in
  retry_loop hash clock job script (S rc) p' crm' g'
    (if job_has_message job
     then ((tr ++ [call]) ++ [Sleep (2 ^ S rc)])
          ++ [RetryNotice (S rc + 1) max_retries]
     else (tr ++ [call]) ++ [Sleep (2 ^ S rc)]).
Proof.
  intros Hrc. assert ((rc <? max_retries) = true) as H1
    by (apply Nat.ltb_lt; lia).
  apply Nat.ltb_lt in Hrc.
  cbn [retry_loop]. rewrite H1. cbn [negb].
  destruct (prepare_call hash clock job p crm g) as [[[call p'] crm'] g'].
  by rewrite Hrc.
Qed.

Lemma retry_loop_last_raise error script rc p crm g tr :
  S rc = max_retries →
  retry_loop hash clock job (Raises error :: script) rc p crm g tr =
  let '(call, p', crm', g') := prepare_call hash clock job p crm g in
  Some (LoopRaised error, g', tr ++ [call]).
Proof.
  intros Hrc. assert ((rc <? max_retries) = true) as H1
    by (apply Nat.ltb_lt; lia).
  assert ((S rc <? max_retries) = false) as H2
    by (apply Nat.ltb_ge; lia).
  cbn [retry_loop]. rewrite H1. cbn [negb].
  destruct (prepare_call hash clock job p crm g) as [[[call p'] crm'] g'].
  by rewrite H2.
Qed.

Lemma prepare_call_kind p crm g :
  kind (prepare_call hash clock job p crm g).1.1.1 = Calling.
Proof.
  unfold prepare_call.
  destruct (get_conversation_history clock (job_user_id job) g) as [h g1].
  destruct (negb (wants_image job)); [|done].
  by destruct (add_to_conversation_history hash clock (job_user_id job)
                 "user" (job_prompt job) g1).
Qed.

End RetryLoop.

(** Name the outcome of the preparation of the next call of the model and
    record that its event is a model call. *)
Ltac step_call c p crm g :=
  match goal with
  | |- context [prepare_call ?hash ?clock ?job ?p0 ?crm0 ?g0] =>
      let K := fresh "K" in
      pose proof (prepare_call_kind hash clock job p0 crm0 g0) as K;
      destruct (prepare_call hash clock job p0 crm0 g0) as [[[c p] crm] g];
      cbn [fst] in K
  end.

Lemma model_calls_kind tr :
  length (model_calls tr) = count_calls (map kind tr).
Proof.
  unfold model_calls, count_calls.
  induction tr as [|[p h|s|a m] tr IH]; simpl.
  - done.
  - apply (f_equal S). exact IH.
  - exact IH.
  - exact IH.
Qed.

Lemma sleeps_kind tr :
  sleeps tr =
  omap (λ k, match k with Sleeping s => Some s | _ => None end) (map kind tr).
Proof.
  induction tr as [|[p h|s|a m] tr IH]; simpl.
  - done.
  - exact IH.
  - apply (f_equal (cons s)). exact IH.
  - exact IH.
Qed.

Lemma retry_notices_kind tr :
  retry_notices tr =
  omap (λ k, match k with Noticing a m => Some (a, m) | _ => None end)
    (map kind tr).
Proof.
  induction tr as [|[p h|s|a m] tr IH]; simpl.
  - done.
  - exact IH.
  - exact IH.
  - apply (f_equal (cons (a, m))). exact IH.
Qed.

Lemma not_none_returns r : not_none (Returns r) → r ≠ ResultNone.
Proof. intros H ->. by apply H. Qed.

Section RetryPolicy.

Variable hash : PyHash.
Variable clock : nat → Z.
Variable job : Job.

Lemma run_job_success_first result rest g :
  result ≠ ResultNone →
  ∃ p crm g' tr,
    run_job hash clock job (Returns result :: rest) g
      = Some (LoopResult result p crm, g', tr)
    ∧ map kind tr = backoff_schedule job 0.
Proof.
  intros Hr. unfold run_job.
  rewrite retry_loop_return by first [done | unfold max_retries; lia].
  step_call c1 p1 crm1 g1.
  eexists _, _, _, _. split; [done|]. simpl. by rewrite K.
Qed.

Lemma run_job_success_second e1 result rest g :
  result ≠ ResultNone →
  ∃ p crm g' tr,
    run_job hash clock job (Raises e1 :: Returns result :: rest) g
      = Some (LoopResult result p crm, g', tr)
    ∧ map kind tr = backoff_schedule job 1.
Proof.
  intros Hr. unfold run_job.
  rewrite retry_loop_raise by (unfold max_retries; lia).
  step_call c1 p1 crm1 g1.
  rewrite retry_loop_return by first [done | unfold max_retries; lia].
  step_call c2 p2 crm2 g2.
  eexists _, _, _, _. split; [done|].
  unfold backoff_schedule, notice_of.
  destruct (job_has_message job); simpl; by rewrite K, K0.
Qed.

Lemma run_job_success_third e1 e2 result rest g :
  result ≠ ResultNone →
  ∃ p crm g' tr,
    run_job hash clock job (Raises e1 :: Raises e2 :: Returns result :: rest) g
      = Some (LoopResult result p crm, g', tr)
    ∧ map kind tr = backoff_schedule job 2.
Proof.
  intros Hr. unfold run_job.
  rewrite retry_loop_raise by (unfold max_retries; lia).
  step_call c1 p1 crm1 g1.
  rewrite retry_loop_raise by (unfold max_retries; lia).
  step_call c2 p2 crm2 g2.
  rewrite retry_loop_return by first [done | unfold max_retries; lia].
  step_call c3 p3 crm3 g3.
  eexists _, _, _, _. split; [done|].
  unfold backoff_schedule, notice_of.
  destruct (job_has_message job); simpl; by rewrite K, K0, K1.
Qed.

Lemma run_job_exhausted e1 e2 e3 rest g :
  ∃ g' tr,
    run_job hash clock job (Raises e1 :: Raises e2 :: Raises e3 :: rest) g
      = Some (LoopRaised e3, g', tr)
    ∧ map kind tr = backoff_schedule job 2.
Proof.
  unfold run_job.
  rewrite retry_loop_raise by (unfold max_retries; lia).
  step_call c1 p1 crm1 g1.
  rewrite retry_loop_raise by (unfold max_retries; lia).
  step_call c2 p2 crm2 g2.
  rewrite retry_loop_last_raise by done.
  step_call c3 p3 crm3 g3.
  eexists _, _. split; [done|].
  unfold backoff_schedule, notice_of.
  destruct (job_has_message job); simpl; by rewrite K, K0, K1.
Qed.

Lemma count_calls_schedule k : count_calls (backoff_schedule job k) = S k.
Proof.
  unfold backoff_schedule, count_calls, notice_of.
  rewrite omap_app, length_app. simpl.
  assert (∀ s, length (omap
            (λ k0, match k0 with Calling => Some () | _ => None end)
            (flat_map (λ i, [Calling; Sleeping (2 ^ i)]
               ++ (if job_has_message job
                   then [Noticing (i + 1) max_retries] else []))
               (seq s k))) = k) as ->; [|lia].
  induction k as [|k IH]; intros s; [done|].
  cbn [seq flat_map]. rewrite omap_app, length_app, IH.
  by destruct (job_has_message job).
Qed.

(** Every script without a [None] result of at least three calls ends the
    loop, within three calls. *)
Lemma run_job_cases script g :
  Forall not_none script →
  (length script < 3 ∧ run_job hash clock job script g = None)
  ∨ ∃ exit g' tr k,
      run_job hash clock job script g = Some (exit, g', tr)
      ∧ map kind tr = backoff_schedule job k ∧ k ≤ 2.
Proof.
  intros Hs.
  destruct script as [|[e1|r1] script].
  { left. split; [simpl; lia|done]. }
  2:{ right. apply Forall_cons in Hs as [H1 _].
      destruct (run_job_success_first r1 script g) as (p & crm & g' & tr & E & Hk).
      { by apply not_none_returns. }
      exists (LoopResult r1 p crm), g', tr, 0. split_and!; [done|done|lia]. }
  apply Forall_cons in Hs as [_ Hs].
  destruct script as [|[e2|r2] script].
  { left. split; [simpl; lia|].
    unfold run_job. cbn [retry_loop]. simpl.
    by destruct (prepare_call hash clock job (job_prompt job) None g)
      as [[[c p] crm] g']. }
  2:{ right. apply Forall_cons in Hs as [H2 _].
      destruct (run_job_success_second e1 r2 script g)
        as (p & crm & g' & tr & E & Hk).
      { by apply not_none_returns. }
      exists (LoopResult r2 p crm), g', tr, 1. split_and!; [done|done|lia]. }
  apply Forall_cons in Hs as [_ Hs].
  destruct script as [|[e3|r3] script].
  { left. split; [simpl; lia|].
    unfold run_job.
    rewrite retry_loop_raise by (unfold max_retries; lia).
    destruct (prepare_call hash clock job (job_prompt job) None g)
      as [[[c p] crm] g'].
    cbn [retry_loop]. simpl.
    by destruct (prepare_call hash clock job p crm g') as [[[c' p'] crm'] g'']. }
  - right. destruct (run_job_exhausted e1 e2 e3 script g) as (g' & tr & E & Hk).
    exists (LoopRaised e3), g', tr, 2. split_and!; [done|done|lia].
  - right. apply Forall_cons in Hs as [H3 _].
    destruct (run_job_success_third e1 e2 r3 script g)
      as (p & crm & g' & tr & E & Hk).
    { by apply not_none_returns. }
    exists (LoopResult r3 p crm), g', tr, 2. split_and!; [done|done|lia].
Qed.

End RetryPolicy.

(** The retry policy when no call returns [None]: for a job whose model
    call raises or returns a value other than [None] at every attempt, the
    loop ends as soon as three
    attempts are available, after at most three calls; after the k-th
    raising attempt, k = 1, 2, the worker sleeps 2^k seconds and then, when
    the update of the job has a message, sends the notice of attempt k+1 of
    3 (no notice otherwise), before it calls again; two failures and a
    success give the result with the sleeps 2 and 4 and, for an update with
    a message, the two notices; a third failure in a row goes to the outer
    handler after three calls and the same two sleeps. *)
Theorem retry_policy (hash : PyHash) (clock : nat → Z) (job : Job)
    (g : Globals) :
  (∀ script,
     Forall not_none script → 3 ≤ length script →
     ∃ exit g' tr k,
       run_job hash clock job script g = Some (exit, g', tr)
       ∧ k ≤ 2 ∧ length (model_calls tr) = S k
       ∧ map kind tr = backoff_schedule job k)
  ∧ (∀ script exit g' tr,
       Forall not_none script →
       run_job hash clock job script g = Some (exit, g', tr) →
       length (model_calls tr) ≤ 3)
  ∧ (∀ e1 e2 result rest,
       result ≠ ResultNone →
       ∃ p crm g' tr,
         run_job hash clock job
           (Raises e1 :: Raises e2 :: Returns result :: rest) g
           = Some (LoopResult result p crm, g', tr)
         ∧ map kind tr =
             [Calling; Sleeping 2] ++ notice_of job 2
             ++ [Calling; Sleeping 4] ++ notice_of job 3 ++ [Calling]
         ∧ sleeps tr = [2; 4]
         ∧ retry_notices tr =
             if job_has_message job then [(2, 3); (3, 3)] else [])
  ∧ (∀ e1 e2 e3 rest,
       ∃ g' tr,
         run_job hash clock job
           (Raises e1 :: Raises e2 :: Raises e3 :: rest) g
           = Some (LoopRaised e3, g', tr)
         ∧ length (model_calls tr) = 3
         ∧ sleeps tr = [2; 4]).
Proof.
  split_and!.
  - intros script Hs Hl.
    destruct (run_job_cases hash clock job script g Hs)
      as [[? _]|(exit & g' & tr & k & E & Hk & Hle)]; [lia|].
    exists exit, g', tr, k. split_and!; try done.
    by rewrite model_calls_kind, Hk, count_calls_schedule.
  - intros script exit g' tr Hs E.
    destruct (run_job_cases hash clock job script g Hs)
      as [[_ E']|(exit' & g'' & tr' & k & E' & Hk & Hle)]; [congruence|].
    rewrite E in E'. injection E' as _ _ <-.
    rewrite model_calls_kind, Hk, count_calls_schedule. lia.
  - intros e1 e2 result rest Hr.
    destruct (run_job_success_third hash clock job e1 e2 result rest g Hr)
      as (p & crm & g' & tr & E & Hk).
    exists p, crm, g', tr.
    rewrite sleeps_kind, retry_notices_kind, Hk.
    unfold backoff_schedule, notice_of.
    by destruct (job_has_message job).
  - intros e1 e2 e3 rest.
    destruct (run_job_exhausted hash clock job e1 e2 e3 rest g)
      as (g' & tr & E & Hk).
    exists g', tr. rewrite model_calls_kind, sleeps_kind, Hk.
    unfold backoff_schedule, notice_of.
    by destruct (job_has_message job).
Qed.

(** A call that returns [None] is not counted: after [n] such calls the
    loop calls once more, without any sleep. *)
Lemma none_results_not_counted hash clock job n result g :
  result ≠ ResultNone →
  ∃ exit g' tr,
    run_job hash clock job
      (replicate n (Returns ResultNone) ++ [Returns result]) g
      = Some (exit, g', tr)
    ∧ map kind tr = replicate (S n) Calling.
Proof.
  intros Hr. unfold run_job.
  assert (∀ p crm g tr, ∃ exit g' tr',
            retry_loop hash clock job
              (replicate n (Returns ResultNone) ++ [Returns result])
              0 p crm g tr = Some (exit, g', tr ++ tr')
            ∧ map kind tr' = replicate (S n) Calling) as Hloop.
  { induction n as [|n IH]; intros p crm g0 tr.
    - cbn [replicate app].
      rewrite retry_loop_return by first [done | unfold max_retries; lia].
      step_call c1 p1 crm1 g1.
      eexists _, _, [c1]. split; [done|]. simpl. by rewrite K.
    - cbn [replicate app].
      rewrite retry_loop_none by (unfold max_retries; lia).
      step_call c1 p1 crm1 g1.
      destruct (IH p1 crm1 g1 (tr ++ [c1])) as (exit & g' & tr' & E & Hk).
      exists exit, g', (c1 :: tr'). split.
      + rewrite E. by rewrite <- app_assoc.
      + cbn [map]. rewrite K, Hk. done. }
  destruct (Hloop (job_prompt job) None g []) as (exit & g' & tr' & E & Hk).
  by exists exit, g', tr'.
Qed.

(** A job whose update has no message fails twice and
    succeeds with both sleeps and without any notice; and a call that
    returns [None] is neither counted nor followed by a sleep, so that
    four calls are made when the first three return [None]. *)
Lemma retry_without_notice :
  let script := [Raises "timeout"; Raises "timeout"; Returns (ResultStr "ok")] in
  let run := run_job insertion_order Z.of_nat (text_job "hello there" false)
               script initial_globals in
  let nones := [Returns ResultNone; Returns ResultNone; Returns ResultNone;
                Returns (ResultStr "ok")] in
  let run' := run_job insertion_order Z.of_nat (text_job "hello there" true)
                nones initial_globals in
  exit_of run = Some (LoopResult (ResultStr "ok") "hello there" None)
  ∧ sleeps <$> trace_of run = Some [2; 4]
  ∧ retry_notices <$> trace_of run = Some []
  ∧ exit_of run' = Some (LoopResult (ResultStr "ok") "hello there" None)
  ∧ length ∘ model_calls <$> trace_of run' = Some 4
  ∧ sleeps <$> trace_of run' = Some [].
Proof. split_and!; vm_compute; reflexivity. Qed.

(** The retry policy at a job whose update has a message and whose third
    call succeeds. *)
Lemma retry_policy_witness :
  ∃ g' tr,
    run_job insertion_order Z.of_nat (text_job "hello there" true)
      [Raises "timeout"; Raises "timeout"; Returns (ResultStr "ok")]
      initial_globals
    = Some (LoopResult (ResultStr "ok") "hello there" None, g', tr)
    ∧ sleeps tr = [2; 4]
    ∧ retry_notices tr = [(2, 3); (3, 3)].
Proof.
  destruct (retry_policy insertion_order Z.of_nat
              (text_job "hello there" true) initial_globals)
    as (_ & _ & Hthird & _).
  destruct (Hthird "timeout" "timeout" (ResultStr "ok") [])
    as (p & crm & g' & tr & E & _ & Hs & Hn); [discriminate|].
  exists g', tr. split_and!; [|done|done].
  rewrite E. f_equal. f_equal. f_equal.
  assert (exit_of (Some (LoopResult (ResultStr "ok") p crm, g', tr))
          = Some (LoopResult (ResultStr "ok") "hello there" None)) as Hx.
  { rewrite <- E. vm_compute. reflexivity. }
  by injection Hx as -> ->.
Defined.

Lemma count_calls_replicate n : count_calls (replicate n Calling) = n.
Proof.
  unfold count_calls. induction n as [|n IH]; [done|].
  cbn [replicate omap list_omap length]. by rewrite <- IH at 2.
Qed.

Lemma omap_replicate_None {A B} (f : A → option B) x n :
  f x = None → omap f (replicate n x) = [].
Proof.
  intros Hf. induction n as [|n IH]; [done|].
  cbn [replicate omap list_omap]. rewrite Hf. exact IH.
Qed.

Section NoneResults.

Variable hash : PyHash.
Variable clock : nat → Z.
Variable job : Job.

Lemma retry_loop_none_results n :
  ∀ p crm g tr,
    retry_loop hash clock job (replicate n (Returns ResultNone)) 0 p crm g tr
    = None.
Proof.
  induction n as [|n IH]; intros p crm g tr; [done|].
  cbn [replicate]. rewrite retry_loop_none by (unfold max_retries; lia).
  step_call c1 p1 crm1 g1. apply IH.
Qed.

Lemma retry_loop_none_then_result n result :
  result ≠ ResultNone →
  ∀ p crm g tr,
    ∃ p' crm' g' tr',
      retry_loop hash clock job
        (replicate n (Returns ResultNone) ++ [Returns result]) 0 p crm g tr
      = Some (LoopResult result p' crm', g', tr ++ tr')
      ∧ map kind tr' = replicate (S n) Calling.
Proof.
  intros Hr. induction n as [|n IH]; intros p crm g tr.
  - cbn [replicate app].
    rewrite retry_loop_return by first [done | unfold max_retries; lia].
    step_call c1 p1 crm1 g1.
    eexists _, _, _, [c1]. split; [done|]. simpl. by rewrite K.
  - cbn [replicate app].
    rewrite retry_loop_none by (unfold max_retries; lia).
    step_call c1 p1 crm1 g1.
    destruct (IH p1 crm1 g1 (tr ++ [c1])) as (p' & crm' & g' & tr' & E & Hk).
    exists p', crm', g', (c1 :: tr'). split.
    + rewrite E. by rewrite <- app_assoc.
    + cbn [map]. rewrite K, Hk. done.
Qed.

End NoneResults.

(** C1: a call of the model that returns [None] is not counted as an
    attempt.  The loop goes on as long as the calls return [None]: it is
    still running after any number of such calls; and when [n] calls that
    return [None] are followed by one that returns a result, the job gets
    that result after [n + 1] calls, without any sleep and without any
    notice.  So more than three calls are made for one job as soon as
    three calls return [None]. *)
Theorem none_results_are_not_attempts (hash : PyHash) (clock : nat → Z)
    (job : Job) (g : Globals) :
  (∀ n, run_job hash clock job (replicate n (Returns ResultNone)) g = None)
  ∧ (∀ n result,
       result ≠ ResultNone →
       ∃ p crm g' tr,
         run_job hash clock job
           (replicate n (Returns ResultNone) ++ [Returns result]) g
         = Some (LoopResult result p crm, g', tr)
         ∧ length (model_calls tr) = S n
         ∧ sleeps tr = []
         ∧ retry_notices tr = []).
Proof.
  split.
  - intros n. apply retry_loop_none_results.
  - intros n result Hr. unfold run_job.
    destruct (retry_loop_none_then_result hash clock job n result Hr
                (job_prompt job) None g [])
      as (p & crm & g' & tr & E & Hk).
    exists p, crm, g', tr. split; [exact E|].
    rewrite model_calls_kind, sleeps_kind, retry_notices_kind, Hk.
    split_and!.
    + apply count_calls_replicate.
    + by apply omap_replicate_None.
    + by apply omap_replicate_None.
Qed.

(** C1, at a job whose first three calls return [None] and whose fourth
    call returns a text: four calls are made, without sleep. *)
Lemma none_results_are_not_attempts_witness :
  ∃ g' tr,
    run_job insertion_order Z.of_nat (text_job "hello there" true)
      [Returns ResultNone; Returns ResultNone; Returns ResultNone;
       Returns (ResultStr "ok")] initial_globals
    = Some (LoopResult (ResultStr "ok") "hello there" None, g', tr)
    ∧ length (model_calls tr) = 4
    ∧ sleeps tr = []
    ∧ retry_notices tr = [].
Proof.
  destruct (none_results_are_not_attempts insertion_order Z.of_nat
              (text_job "hello there" true) initial_globals) as [_ Hcalls].
  destruct (Hcalls 3 (ResultStr "ok"))
    as (p & crm & g' & tr & E & Hn & Hs & Hr); [discriminate|].
  exists g', tr. split_and!; [|done|done|done].
  change ([Returns ResultNone; Returns ResultNone; Returns ResultNone;
           Returns (ResultStr "ok")])
    with (replicate 3 (Returns ResultNone) ++ [Returns (ResultStr "ok")]).
  rewrite E. f_equal. f_equal. f_equal.
  assert (exit_of (Some (LoopResult (ResultStr "ok") p crm, g', tr))
          = Some (LoopResult (ResultStr "ok") "hello there" None)) as Hx.
  { rewrite <- E. vm_compute. reflexivity. }
  by injection Hx as -> ->.
Defined.

(** ** The prompt in the history, attempt after attempt *)

Section Attempts.

Variable hash : PyHash.
Variable clock : nat → Z.
Variable u : Z.
Variable prompt : string.

Lemma is_prompt_new kws t : is_prompt prompt (new_message "user" prompt kws t).
Proof. done. Qed.

(** Whatever the store, an attempt leaves the prompt at the end of the
    history, unless the prompt asks for a reset. *)
Lemma attempt_any g :
  detect_explicit_topic_change prompt = false →
  stored hash u prompt 1 (attempt hash clock u prompt g).2.
Proof.
  intros Hex. unfold attempt.
  set (g1 := (get_conversation_history clock u g).2).
  set (nk := extract_topic_keywords hash prompt).
  destruct (context_of clock u g1) as [c0 g0] eqn:E0.
  destruct (check_topic_change clock prompt (default ∅ (user_topics g0 !! u))
              nk c0 g0) as [[c1 notice] g2] eqn:E1.
  rewrite (add_user_message hash clock u prompt g1 c0 g0 c1 notice g2 E0 E1).
  eexists. cbn [snd store_context tick store_topic conversation_histories
                user_topics].
  rewrite !lookup_insert_eq. split_and!; [done| |done].
  destruct (deque_append_suffix MAX_HISTORY_LENGTH
              (new_message "user" prompt (Some nk) (now clock g2))
              (messages c1) (messages c1) [])
    as [b Hb]; [by rewrite app_nil_r|unfold MAX_HISTORY_LENGTH; simpl; lia|].
  exists b, [new_message "user" prompt (Some nk) (now clock g2)].
  unfold nk in *.
  split_and!; [by rewrite messages_add_message, Hb|done|].
  constructor; [apply is_prompt_new|constructor].
Qed.

(** After an attempt, the next one finds the keywords of the prompt tracked:
    it resets nothing, notifies nothing and appends one more copy. *)
Lemma attempt_stored j g :
  detect_explicit_topic_change prompt = false →
  stored hash u prompt j g → j < MAX_HISTORY_LENGTH →
  (attempt hash clock u prompt g).1 = None
  ∧ stored hash u prompt (S j) (attempt hash clock u prompt g).2.
Proof.
  intros Hex (c & Hc & (base & copies & Hm & Hl & Hall) & Ht) Hj.
  set (nk := extract_topic_keywords hash prompt) in *.
  unfold attempt. rewrite (get_conversation_history_Some clock u g c Hc).
  cbn [snd].
  pose proof (context_of_Some clock u g c Hc) as E0.
  assert (check_topic_change clock prompt (default ∅ (user_topics g !! u))
            nk c g = (c, None, g)) as E1.
  { destruct (check_topic_change_cases clock prompt
                (default ∅ (user_topics g !! u)) nk c g)
      as [(? & _)|[(_ & _ & Hd & _)|(_ & _ & E)]]; [congruence| |done].
    rewrite Ht in Hd. cbn [default] in Hd.
    rewrite detect_topic_change_same in Hd; [done|].
    apply size_extract_topic_keywords_le. }
  rewrite (add_user_message hash clock u prompt g c g c None g E0 E1).
  split; [done|].
  eexists. cbn [snd store_context tick store_topic conversation_histories
                user_topics].
  rewrite !lookup_insert_eq. split_and!; [done| |done].
  destruct (deque_append_suffix MAX_HISTORY_LENGTH
              (new_message "user" prompt (Some nk) (now clock g))
              (messages c) base copies Hm) as [b Hb]; [lia|].
  exists b, (copies ++ [new_message "user" prompt (Some nk) (now clock g)]).
  unfold nk in *.
  split_and!.
  - by rewrite messages_add_message, Hb.
  - rewrite length_app. simpl. lia.
  - apply Forall_app. split; [done|].
    constructor; [apply is_prompt_new|constructor].
Qed.

(** An attempt with a prompt that asks for a reset leaves the prompt alone
    in the history. *)
Lemma attempt_explicit g :
  detect_explicit_topic_change prompt = true →
  (attempt hash clock u prompt g).1 = Some ExplicitReset
  ∧ ∃ c m, conversation_histories (attempt hash clock u prompt g).2 !! u
             = Some c
           ∧ messages c = [m] ∧ is_prompt prompt m.
Proof.
  intros Hex. unfold attempt.
  set (g1 := (get_conversation_history clock u g).2).
  destruct (context_of clock u g1) as [c0 g0] eqn:E0.
  destruct (check_topic_change_cases clock prompt
              (default ∅ (user_topics g0 !! u))
              (extract_topic_keywords hash prompt) c0 g0)
    as [(_ & E)|[(? & _)|(? & _)]]; [|congruence..].
  rewrite (add_user_message hash clock u prompt g1 c0 g0 _ _ _ E0 E).
  split; [done|]. eexists _, _.
  cbn [snd store_context tick store_topic conversation_histories].
  rewrite lookup_insert_eq. split_and!; [done|done|apply is_prompt_new].
Qed.

Lemma stored_attempts n j g :
  detect_explicit_topic_change prompt = false →
  stored hash u prompt j g → j + n ≤ MAX_HISTORY_LENGTH →
  stored hash u prompt (j + n) (attempts hash clock u prompt n g).
Proof.
  intros Hex. revert j g. induction n as [|n IH]; intros j g Hs Hj.
  - by rewrite Nat.add_0_r.
  - cbn [attempts]. replace (j + S n) with (S j + n) by lia.
    apply IH; [|lia]. apply attempt_stored; [done|done|lia].
Qed.

End Attempts.

Section TextJob.

Variable hash : PyHash.
Variable clock : nat → Z.
Variable job : Job.

Lemma prepare_call_text p crm g :
  wants_image job = false →
  prepare_call hash clock job p crm g =
  (ModelCall p (get_conversation_history clock (job_user_id job) g).1, p,
   (attempt hash clock (job_user_id job) (job_prompt job) g).1,
   (attempt hash clock (job_user_id job) (job_prompt job) g).2).
Proof.
  intros Hi. unfold prepare_call, attempt. rewrite Hi. cbn [negb].
  destruct (get_conversation_history clock (job_user_id job) g) as [h g1].
  cbn [fst snd].
  by destruct (add_to_conversation_history hash clock (job_user_id job)
                 "user" (job_prompt job) g1).
Qed.

(** The loop of a job that asks for no image, when the first calls raise
    and the next one returns: one attempt per call. *)
Lemma retry_loop_text errs result rest rc crm g tr :
  wants_image job = false → result ≠ ResultNone →
  rc + length errs < max_retries →
  let gk := attempts hash clock (job_user_id job) (job_prompt job)
              (length errs) g in
  let last := attempt hash clock (job_user_id job) (job_prompt job) gk in
  ∃ tr',
    retry_loop hash clock job (map Raises errs ++ Returns result :: rest)
      rc (job_prompt job) crm g tr
    = Some (LoopResult result (job_prompt job) last.1, last.2, tr')
    ∧ length (model_calls tr') = length (model_calls tr) + S (length errs).
Proof.
  intros Hi Hr. revert rc crm g tr.
  induction errs as [|e errs IH]; intros rc crm g tr Hrc.
  - cbn [map app length attempts].
    rewrite retry_loop_return by first [done | lia].
    rewrite prepare_call_text by done.
    eexists. split; [done|].
    unfold model_calls. rewrite omap_app, length_app. simpl. lia.
  - cbn [map app length attempts]. cbn [length] in Hrc.
    rewrite retry_loop_raise by lia.
    rewrite prepare_call_text by done.
    match goal with
    | |- context [retry_loop _ _ _ _ ?rc' _ ?crm' ?g' ?tr0] =>
        destruct (IH rc' crm' g' tr0) as [tr' [E Hl]]; [lia|]
    end.
    exists tr'. split; [done|]. rewrite Hl.
    unfold model_calls.
    destruct (job_has_message job); rewrite !omap_app, !length_app; simpl; lia.
Qed.

End TextJob.

(** C10 (as amended): for a job that asks for no image, the prompt is
    appended at every attempt, before the call.  When the first k calls
    raise, k at most 2, and the next one returns a result, k+1 calls are
    made and the store is the one that k+1 attempts leave.  If the prompt
    holds no reset phrase, the history of the user then ends with k+1
    copies of the prompt and, when k is at least 1, the notification kept
    is the one of the last attempt, that is none.  If the prompt holds a
    reset phrase, every attempt empties the history first, so that the
    history is one copy of the prompt, and the notification is the
    explicit one. *)
Theorem prompt_stored_per_attempt (hash : PyHash) (clock : nat → Z) (job : Job)
    (g : Globals) (errs : list string) (result : ApiResult)
    (rest : list Attempt) :
  wants_image job = false → result ≠ ResultNone → length errs ≤ 2 →
  ∃ notice g' tr c,
    run_job hash clock job (map Raises errs ++ Returns result :: rest) g
      = Some (LoopResult result (job_prompt job) notice, g', tr)
    ∧ length (model_calls tr) = S (length errs)
    ∧ (notice, g')
      = attempt hash clock (job_user_id job) (job_prompt job)
          (attempts hash clock (job_user_id job) (job_prompt job)
             (length errs) g)
    ∧ conversation_histories g' !! job_user_id job = Some c
    ∧ (detect_explicit_topic_change (job_prompt job) = false →
       ends_with_copies (job_prompt job) (S (length errs)) c
       ∧ (1 ≤ length errs → notice = None))
    ∧ (detect_explicit_topic_change (job_prompt job) = true →
       notice = Some ExplicitReset
       ∧ ∃ m, messages c = [m] ∧ is_prompt (job_prompt job) m).
Proof.
  intros Hi Hr Hk.
  destruct (retry_loop_text hash clock job errs result rest 0 None g [] Hi Hr)
    as [tr [E Hl]]; [unfold max_retries; lia|].
  set (u := job_user_id job) in *. set (prompt := job_prompt job) in *.
  set (gk := attempts hash clock u prompt (length errs) g) in *.
  set (last := attempt hash clock u prompt gk) in *.
  destruct (detect_explicit_topic_change prompt) eqn:Hex.
  - destruct (attempt_explicit hash clock u prompt gk Hex)
      as (Hn & c & m & Hc & Hm & Hp).
    exists last.1, last.2, tr, c.
    split_and!; [done|done|by destruct last|done|done|].
    intros _. split; [done|]. by exists m.
  - assert (∃ c, conversation_histories last.2 !! u = Some c
                 ∧ ends_with_copies prompt (S (length errs)) c
                 ∧ (1 ≤ length errs → last.1 = None))
      as (c & Hc & Hcopies & Hnone).
    { subst last gk. destruct errs as [|e errs].
      - destruct (attempt_any hash clock u prompt g Hex)
          as (c & Hc & Hcopies & _).
        exists c. split_and!; [done|done|simpl; lia].
      - cbn [length] in *. cbn [attempts].
        pose proof (attempt_any hash clock u prompt g Hex) as H1.
        apply (stored_attempts hash clock u prompt (length errs)) in H1;
          [|done|unfold MAX_HISTORY_LENGTH; lia].
        apply (attempt_stored hash clock u prompt) in H1
          as [Hn (c & Hc & Hcopies & _)];
          [|done|unfold MAX_HISTORY_LENGTH; lia].
        exists c. by split_and!. }
    exists last.1, last.2, tr, c.
    split_and!; [done|done|by destruct last|done| |done].
    intros _. by split.
Qed.

(** C10, at a prompt without reset phrase whose first call raises. *)
Lemma prompt_stored_per_attempt_witness :
  ∃ g',
    globals_of
      (run_job insertion_order Z.of_nat (text_job "explain lifetimes" true)
         [Raises "timeout"; Returns (ResultStr "ok")] initial_globals)
    = Some g'
    ∧ ∃ c, conversation_histories g' !! 1%Z = Some c
           ∧ ends_with_copies "explain lifetimes" 2 c.
Proof.
  destruct (prompt_stored_per_attempt insertion_order Z.of_nat
              (text_job "explain lifetimes" true) initial_globals
              ["timeout"] (ResultStr "ok") [])
    as (notice & g' & tr & c & E & _ & _ & Hc & Hplain & _).
  - vm_compute. reflexivity.
  - discriminate.
  - simpl. lia.
  - exists g'. split.
    + unfold globals_of. cbn [map app] in E. by rewrite E.
    + exists c. split; [done|]. apply Hplain. vm_compute. reflexivity.
Defined.

(** C10, counterexample: the prompt holds a reset phrase, its first call
    raises and the second returns; two calls are made and the prompt is
    stored once, not twice. *)
Lemma prompt_stored_once :
  let run := run_job insertion_order Z.of_nat
               (text_job "new topic: explain lifetimes" true)
               [Raises "timeout"; Returns (ResultStr "ok")] initial_globals in
  length ∘ model_calls <$> trace_of run = Some 2
  ∧ stored_history 1 <$> globals_of run
    = Some [("user", "new topic: explain lifetimes")].
Proof. split; vm_compute; reflexivity. Qed.

(** ** Further properties of the context store *)

Section StoreFrame.

Variable hash : PyHash.
Variable clock : nat → Z.

Lemma check_topic_change_globals content ck nk c g c' notice g' :
  check_topic_change clock content ck nk c g = (c', notice, g') →
  conversation_histories g' = conversation_histories g
  ∧ user_topics g' = user_topics g
  ∧ time_calls g ≤ time_calls g'.
Proof.
  unfold check_topic_change.
  repeat case_match; intros; simplify_eq; simpl; split_and!; auto.
Qed.

(** The context that [add_to_conversation_history] stores and the
    keywords that it tracks afterwards. *)
Lemma add_to_conversation_history_stored u role content g :
  ∃ c' b t,
    conversation_histories
      (add_to_conversation_history hash clock u role content g).2
      = <[u := c']> (conversation_histories g)
    ∧ messages c' =
        b ++ [new_message role content
                (if bool_decide (role = "user")
                 then Some (extract_topic_keywords hash content) else None) t]
    ∧ user_topics (add_to_conversation_history hash clock u role content g).2
      = (if bool_decide (role = "user")
         then <[u := extract_topic_keywords hash content]> (user_topics g)
         else user_topics g).
Proof.
  destruct (context_of clock u g) as [c0 g0] eqn:E.
  pose proof (context_of_spec clock _ _ _ _ E) as (Hh & Ht & _).
  destruct (decide (role = "user")) as [->|Hr].
  - destruct (check_topic_change clock content
                (default ∅ (user_topics g0 !! u))
                (extract_topic_keywords hash content) c0 g0)
      as [[c1 notice] g1] eqn:E2.
    rewrite (add_user_message hash clock _ _ _ _ _ _ _ _ E E2).
    apply check_topic_change_globals in E2 as (Hh1 & Ht1 & _).
    destruct (deque_append_suffix MAX_HISTORY_LENGTH
                (new_message "user" content
                   (Some (extract_topic_keywords hash content))
                   (now clock g1))
                (messages c1) (messages c1) [])
      as [b Hb]; [by rewrite app_nil_r | simpl; unfold MAX_HISTORY_LENGTH; lia |].
    eexists _, b, _. simpl. rewrite Hh1, Ht1, Hh, Ht, insert_insert_eq.
    split_and!; [reflexivity | | reflexivity].
    rewrite messages_add_message. exact Hb.
  - rewrite (add_other_message hash clock _ _ _ _ _ _ Hr E).
    destruct (deque_append_suffix MAX_HISTORY_LENGTH
                (new_message role content None (now clock g0))
                (messages c0) (messages c0) [])
      as [b Hb]; [by rewrite app_nil_r | simpl; unfold MAX_HISTORY_LENGTH; lia |].
    eexists _, b, _. simpl. rewrite Hh, Ht, insert_insert_eq.
    rewrite bool_decide_eq_false_2 by done.
    split_and!; [reflexivity | | reflexivity].
    rewrite messages_add_message. exact Hb.
Qed.

Lemma get_conversation_history_stored u g :
  ∃ c,
    conversation_histories (get_conversation_history clock u g).2
      = <[u := c]> (conversation_histories g)
    ∧ user_topics (get_conversation_history clock u g).2 = user_topics g.
Proof.
  unfold get_conversation_history.
  destruct (context_of clock u g) as [c0 g0] eqn:E.
  apply context_of_spec in E as (Hh & Ht & _).
  exists c0. simpl. by rewrite Hh, Ht.
Qed.

Lemma clear_user_context_other u v g :
  u ≠ v → stored_for v (clear_user_context clock u g).2 = stored_for v g.
Proof.
  intros Hne. unfold clear_user_context, stored_for.
  destruct (conversation_histories g !! u); [|done].
  simpl. case_bool_decide; simpl;
    by rewrite ?lookup_insert_ne, ?lookup_delete_ne.
Qed.

Lemma do_call_other g c v :
  call_user c ≠ v → stored_for v (do_call hash clock g c) = stored_for v g.
Proof.
  destruct c as [u|u role content|u]; simpl; intros Hne.
  - destruct (get_conversation_history_stored u g) as (c & Hh & Ht).
    unfold stored_for. by rewrite Hh, Ht, lookup_insert_ne.
  - destruct (add_to_conversation_history_stored u role content g)
      as (c & b & t & Hh & _ & Ht).
    unfold stored_for. rewrite Hh, Ht, lookup_insert_ne by done.
    case_bool_decide; by rewrite ?lookup_insert_ne.
  - by apply clear_user_context_other.
Qed.

Lemma do_call_is_Some g c u :
  is_Some (conversation_histories g !! u) →
  is_Some (conversation_histories (do_call hash clock g c) !! u).
Proof.
  intros Hu. destruct (decide (call_user c = u)) as [<-|Hne].
  - destruct c as [u|u role content|u]; simpl in *.
    + destruct (get_conversation_history_stored u g) as (c & -> & _).
      by rewrite lookup_insert_eq.
    + destruct (add_to_conversation_history_stored u role content g)
        as (c & b & t & -> & _).
      by rewrite lookup_insert_eq.
    + unfold clear_user_context. destruct Hu as [c ->]. simpl.
      case_bool_decide; simpl; by rewrite lookup_insert_eq.
  - pose proof (do_call_other g c u Hne) as H.
    apply (f_equal fst) in H. simpl in H. by rewrite H.
Qed.

Lemma run_calls_is_Some calls g u :
  is_Some (conversation_histories g !! u) →
  is_Some (conversation_histories (run_calls hash clock calls g) !! u).
Proof.
  revert g. induction calls as [|c calls IH]; intros g Hu; [done|].
  apply IH. by apply do_call_is_Some.
Qed.

End StoreFrame.

(** X1.  The calls made for other users leave what is stored for a user
    as it is: neither the context nor the tracked keywords change. *)
Theorem other_users_untouched (hash : PyHash) (clock : nat → Z)
    (calls : list Call) (v : Z) (g : Globals) :
  Forall (λ c, call_user c ≠ v) calls →
  stored_for v (run_calls hash clock calls g) = stored_for v g.
Proof.
  revert g. induction calls as [|c calls IH]; intros g Hall; [done|].
  apply Forall_cons in Hall as [Hc Hall].
  change (run_calls hash clock (c :: calls) g)
    with (run_calls hash clock calls (do_call hash clock g c)).
  rewrite IH by done. by apply do_call_other.
Qed.

Lemma other_users_untouched_witness :
  let g := run_calls insertion_order Z.of_nat
             [AddMessage 5 "user" "please explain monads"] initial_globals in
  stored_for 5 (run_calls insertion_order Z.of_nat
                  [AddMessage 6 "user" "new topic: sailing"; ClearContext 7;
                   GetHistory 8] g)
  = stored_for 5 g.
Proof.
  intros g.
  apply (other_users_untouched insertion_order Z.of_nat
           [AddMessage 6 "user" "new topic: sailing"; ClearContext 7;
            GetHistory 8] 5 g).
  repeat constructor; simpl; lia.
Defined.

(** X2.  A message of another role than "user" is stored without any
    check: no reset is notified, the tracked keywords of the user and the
    keywords of the context stay, and the message, with no keywords, is the
    last one of the history. *)
Theorem other_roles_only_append (hash : PyHash) (clock : nat → Z) (u : Z)
    (role content : string) (g : Globals) :
  role ≠ "user" →
  let r := add_to_conversation_history hash clock u role content g in
  r.1 = None
  ∧ user_topics r.2 = user_topics g
  ∧ ∃ c' m,
      conversation_histories r.2 !! u = Some c'
      ∧ last (messages c') = Some m
      ∧ role_and_content m = (role, content)
      ∧ msg_topic_keywords m = ∅
      ∧ topic_keywords c' =
          default ∅ (topic_keywords <$> conversation_histories g !! u)
      ∧ length (messages c') ≤
          S (length (default [] (messages <$> conversation_histories g !! u))).
Proof.
  intros Hr r. subst r.
  destruct (context_of clock u g) as [c0 g0] eqn:E.
  pose proof (context_of_spec clock _ _ _ _ E) as (Hh & Ht & _).
  rewrite (add_other_message hash clock _ _ _ _ _ _ Hr E). simpl.
  split_and!; [done|done|].
  assert (topic_keywords c0 =
            default ∅ (topic_keywords <$> conversation_histories g !! u)
          ∧ messages c0 =
            default [] (messages <$> conversation_histories g !! u))
    as [Hk Hm].
  { destruct (conversation_histories g !! u) as [c|] eqn:Hl.
    - rewrite (context_of_Some clock _ _ _ Hl) in E. by simplify_eq.
    - rewrite (context_of_None clock _ _ Hl) in E. by simplify_eq. }
  destruct (deque_append_suffix MAX_HISTORY_LENGTH
              (new_message role content None (now clock g0))
              (messages c0) (messages c0) [])
    as [b Hb]; [by rewrite app_nil_r | simpl; unfold MAX_HISTORY_LENGTH; lia |].
  simpl in Hb.
  eexists _, _. rewrite lookup_insert_eq. split; [reflexivity|].
  rewrite messages_add_message, Hb. rewrite last_snoc.
  split_and!; try reflexivity; [exact Hk|].
  rewrite <- Hb, <- Hm. unfold deque_append.
  case_match; rewrite ?length_drop, length_app; simpl; lia.
Qed.

Lemma other_roles_only_append_witness :
  let g := run_calls insertion_order Z.of_nat
             [AddMessage 5 "user" "please explain monads"] initial_globals in
  (add_to_conversation_history insertion_order Z.of_nat 5 "assistant"
     "A monad is a monoid in the category of endofunctors" g).1 = None.
Proof.
  intros g.
  apply (other_roles_only_append insertion_order Z.of_nat 5 "assistant"
           "A monad is a monoid in the category of endofunctors" g).
  discriminate.
Defined.

(** X3.  A message of the user that has just been stored is the last entry
    of the history that is read next, also when equal messages were stored
    before it. *)
Theorem stored_prompt_is_read_last (hash : PyHash) (clock : nat → Z) (u : Z)
    (content : string) (g : Globals) :
  ∃ earlier,
    (get_conversation_history clock u
       (add_to_conversation_history hash clock u "user" content g).2).1
    = earlier ++ [("user", content)].
Proof.
  destruct (add_to_conversation_history_stored hash clock u "user" content g)
    as (c' & b & t & Hh & Hm & Ht).
  rewrite bool_decide_eq_true_2 in Hm, Ht by done.
  assert (conversation_histories
            (add_to_conversation_history hash clock u "user" content g).2 !! u
          = Some c') as Hc by (by rewrite Hh, lookup_insert_eq).
  rewrite (get_conversation_history_Some clock _ _ _ Hc). simpl.
  rewrite Ht, lookup_insert_eq. simpl.
  destruct (decide (extract_topic_keywords hash content = ∅)) as [He|He].
  - rewrite He, get_relevant_messages_no_topic, Hm, map_app.
    by eexists.
  - unfold get_relevant_messages.
    rewrite bool_decide_eq_false_2 by done.
    rewrite Hm, filter_app, map_app.
    rewrite filter_cons_True, filter_nil; [by eexists|].
    right. simpl. rewrite bool_decide_eq_false_2 by done. simpl.
    split; [done|].
    rewrite (intersection_idemp_L (extract_topic_keywords hash content)).
    pose proof (size_nonempty _ He). lia.
Qed.

(** X4.  The history that is read is part of the stored one, in the stored
    order, and a second read gives the same answer and changes nothing. *)
Theorem get_conversation_history_reads (clock : nat → Z) (u : Z)
    (g : Globals) :
  let r := get_conversation_history clock u g in
  r.1 `sublist_of` stored_history u g
  ∧ get_conversation_history clock u r.2 = r
  ∧ (is_Some (conversation_histories g !! u) → r.2 = g).
Proof.
  intros r. subst r. unfold stored_history.
  destruct (conversation_histories g !! u) as [c|] eqn:Hl.
  - rewrite (get_conversation_history_Some clock _ _ _ Hl). simpl.
    split_and!.
    + apply fmap_sublist. unfold get_relevant_messages.
      case_bool_decide; [done|]. apply sublist_filter.
    + apply (get_conversation_history_Some clock _ _ _ Hl).
    + done.
  - assert (get_conversation_history clock u g =
            ([], store_context u (ConversationContext_init (now clock g))
                   (tick g))) as Hr.
    { unfold get_conversation_history.
      rewrite (context_of_None clock _ _ Hl). simpl.
      by rewrite get_relevant_messages_empty. }
    rewrite Hr. simpl. split_and!.
    + done.
    + erewrite get_conversation_history_Some
        by (simpl; apply lookup_insert_eq).
      simpl. by rewrite get_relevant_messages_empty.
    + by intros [? ?].
Qed.

(** X5.  A context is never removed: once a user has one, which every read
    and every stored message gives them, [clear_user_context] answers
    [True] for them after any further calls. *)
Theorem contexts_persist (hash : PyHash) (clock : nat → Z) (u : Z)
    (g : Globals) :
  (∀ calls,
     is_Some (conversation_histories g !! u) →
     is_Some (conversation_histories (run_calls hash clock calls g) !! u)
     ∧ (clear_user_context clock u (run_calls hash clock calls g)).1 = true)
  ∧ is_Some (conversation_histories
               (get_conversation_history clock u g).2 !! u)
  ∧ ∀ role content,
      is_Some (conversation_histories
                 (add_to_conversation_history hash clock u role content g).2
               !! u).
Proof.
  split_and!.
  - intros calls Hu.
    pose proof (run_calls_is_Some hash clock calls g u Hu) as [c Hc].
    split; [by eexists|]. unfold clear_user_context. by rewrite Hc.
  - destruct (get_conversation_history_stored clock u g) as (c & -> & _).
    by rewrite lookup_insert_eq.
  - intros role content.
    destruct (add_to_conversation_history_stored hash clock u role content g)
      as (c & b & t & -> & _).
    by rewrite lookup_insert_eq.
Qed.

Lemma contexts_persist_witness :
  let g := run_calls insertion_order Z.of_nat [GetHistory 5] initial_globals in
  (clear_user_context Z.of_nat 5
     (run_calls insertion_order Z.of_nat
        [ClearContext 5; AddMessage 6 "user" "hello there"; ClearContext 5]
        g)).1 = true.
Proof.
  intros g.
  apply (contexts_persist insertion_order Z.of_nat 5 g).
  by eexists.
Defined.

(** X6.  After [clear_user_context] has answered [True] the statistics of
    the user show no message and no keyword, the topic "None" and the
    reading of the clock at the reset; for a user without context the
    statistics are the same but for the reset, which is "Never".  In every
    state that calls lead to, the statistics count at most twelve
    messages. *)
Theorem get_context_stats_spec (hash : PyHash) (clock : nat → Z) (u : Z) :
  (∀ g,
     is_Some (conversation_histories g !! u) →
     get_context_stats hash u (clear_user_context clock u g).2 =
     {| stat_messages := 0; stat_topic_keywords := 0;
        stat_current_topic := "None";
        stat_last_reset := Some (now clock g) |})
  ∧ (∀ g,
       conversation_histories g !! u = None →
       get_context_stats hash u (clear_user_context clock u g).2 =
       {| stat_messages := 0; stat_topic_keywords := 0;
          stat_current_topic := "None"; stat_last_reset := None |})
  ∧ (∀ calls,
       stat_messages
         (get_context_stats hash u
            (run_calls hash clock calls initial_globals)) ≤ 12).
Proof.
  split_and!.
  - intros g [c Hc]. unfold clear_user_context, get_context_stats.
    rewrite Hc. simpl.
    case_bool_decide; simpl; by rewrite lookup_insert_eq.
  - intros g Hc. unfold clear_user_context, get_context_stats.
    rewrite Hc. simpl. by rewrite ?Hc.
  - intros calls. unfold get_context_stats.
    destruct (conversation_histories _ !! u) as [c|] eqn:Hc; simpl; [|lia].
    pose proof (wf_run_calls hash clock calls initial_globals
                  wf_initial_globals) as [Hwf _].
    apply (map_Forall_lookup_1 _ _ _ _ Hwf) in Hc as [Hlen _].
    exact Hlen.
Qed.

Lemma get_context_stats_spec_witness :
  let g := run_calls insertion_order Z.of_nat
             [AddMessage 5 "user" "please explain monads"] initial_globals in
  stat_messages
    (get_context_stats insertion_order 5 (clear_user_context Z.of_nat 5 g).2)
  = 0
  ∧ stat_messages (get_context_stats insertion_order 5 g) = 1.
Proof.
  intros g. split; [|reflexivity].
  rewrite (proj1 (get_context_stats_spec insertion_order Z.of_nat 5) g);
    [reflexivity|].
  by eexists.
Defined.

(** X7.  The test of a topic change does not depend on which of the two
    sets is the old one, and it is negative when one of them is empty; for
    sets of at most ten keywords, as the extraction gives them, it is
    positive when the sets are not empty and share nothing, and negative
    when they are equal. *)
Theorem detect_topic_change_symmetric :
  (∀ old_keywords new_keywords,
     detect_topic_change old_keywords new_keywords
     = detect_topic_change new_keywords old_keywords)
  ∧ (∀ k, detect_topic_change ∅ k = false ∧ detect_topic_change k ∅ = false)
  ∧ (∀ old_keywords new_keywords,
       size old_keywords ≤ 10 → size new_keywords ≤ 10 →
       old_keywords ≠ ∅ → new_keywords ≠ ∅ →
       old_keywords ## new_keywords →
       detect_topic_change old_keywords new_keywords = true)
  ∧ (∀ k, size k ≤ 10 → detect_topic_change k k = false).
Proof.
  split_and!.
  - intros old_keywords new_keywords. unfold detect_topic_change.
    assert (old_keywords ∩ new_keywords = new_keywords ∩ old_keywords) as ->
      by set_solver.
    assert (old_keywords ∪ new_keywords = new_keywords ∪ old_keywords) as ->
      by set_solver.
    by rewrite (orb_comm (bool_decide (old_keywords = ∅))).
  - intros k. unfold detect_topic_change.
    rewrite (bool_decide_eq_true_2 (∅ = ∅)) by done.
    by rewrite orb_true_r.
  - intros old_keywords new_keywords Ho Hn Hoe Hne Hd.
    apply detect_topic_change_small; [done|done|].
    split_and!; [done|done|].
    assert (old_keywords ∩ new_keywords = ∅) as -> by set_solver.
    rewrite size_empty. lia.
  - apply detect_topic_change_same.
Qed.

Lemma detect_topic_change_symmetric_witness :
  detect_topic_change {["rust"; "lifetimes"]} {["sailing"]} = true.
Proof.
  apply (proj1 (proj2 (proj2 detect_topic_change_symmetric))).
  - by_compute.
  - by_compute.
  - by_compute.
  - by_compute.
  - by_compute.
Defined.

(** ** The store under a clock that moves on *)

Lemma StronglySorted_lt_NoDup (l : list Z) : StronglySorted Z.lt l → NoDup l.
Proof.
  induction 1 as [|x l Hs IH Hx]; constructor; [|done].
  intros Hin. rewrite Forall_forall in Hx. specialize (Hx _ Hin). lia.
Qed.

Lemma ordered_context_NoDup bound c :
  ordered_context bound c → NoDup (messages c).
Proof.
  intros [Hs _]. apply (NoDup_fmap_1 msg_timestamp).
  by apply StronglySorted_lt_NoDup.
Qed.

Lemma ordered_context_mono bound bound' c :
  (bound ≤ bound')%Z → ordered_context bound c → ordered_context bound' c.
Proof.
  intros Hle [Hs Hb]. split; [done|].
  eapply Forall_impl; [exact Hb|]. simpl. intros m Hm. lia.
Qed.

Lemma ordered_context_empty bound c :
  messages c = [] → ordered_context bound c.
Proof. intros Hm. unfold ordered_context. rewrite Hm. by repeat constructor. Qed.

Section Ordered.

Variable hash : PyHash.
Variable clock : nat → Z.
Hypothesis clock_increasing : increasing clock.

Lemma clock_le n m : n ≤ m → (clock n ≤ clock m)%Z.
Proof.
  intros Hle. destruct (decide (n = m)) as [->|Hne]; [lia|].
  assert (n < m) as Hlt by lia. apply clock_increasing in Hlt. lia.
Qed.

Lemma ordered_context_add_message role content kws n m c :
  n ≤ m → ordered_context (clock n) c →
  ordered_context (clock (S m)) (add_message role content kws (clock m) c).
Proof.
  intros Hle [Hs Hb].
  assert (clock m < clock (S m))%Z as Hlt by (apply clock_increasing; lia).
  pose proof (clock_le n m Hle) as Hnm.
  assert (ordered_context (clock (S m))
            {| messages := messages c ++ [new_message role content kws (clock m)];
               current_topic := current_topic c;
               topic_keywords := topic_keywords c;
               last_reset := last_reset c |}) as [Hs' Hb'].
  { split; simpl.
    - rewrite map_app. apply StronglySorted_app_2; [|done|by repeat constructor].
      intros x1 x2 Hx1 Hx2. apply list_elem_of_fmap in Hx1 as (m1 & -> & Hm1).
      apply list_elem_of_singleton in Hx2 as ->. simpl.
      rewrite Forall_forall in Hb. specialize (Hb _ Hm1). lia.
    - apply Forall_app. split.
      + eapply Forall_impl; [exact Hb|]. simpl. intros; lia.
      + repeat constructor. simpl. lia. }
  simpl in Hs', Hb'.
  split; rewrite messages_add_message; unfold deque_append; case_match.
  - rewrite <- skipn_map.
    rewrite <- (take_drop 1 (map msg_timestamp _)) in Hs'.
    by apply StronglySorted_app_1_r in Hs'.
  - done.
  - by apply Forall_drop.
  - done.
Qed.

Lemma ordered_globals_store g g' u c :
  ordered_globals clock g →
  conversation_histories g' = <[u := c]> (conversation_histories g) →
  time_calls g ≤ time_calls g' →
  ordered_context (clock (time_calls g')) c →
  ordered_globals clock g'.
Proof.
  intros Hg Hh Hle Hc. unfold ordered_globals. rewrite Hh.
  apply map_Forall_insert_2; [done|].
  eapply map_Forall_impl; [exact Hg|]. simpl. intros v c' Hc'.
  eapply ordered_context_mono; [|exact Hc']. by apply clock_le.
Qed.

Lemma ordered_context_of u g c g' :
  ordered_globals clock g → context_of clock u g = (c, g') →
  ordered_context (clock (time_calls g')) c
  ∧ time_calls g ≤ time_calls g'.
Proof.
  intros Hg E. destruct (conversation_histories g !! u) as [c0|] eqn:Hl.
  - rewrite (context_of_Some clock _ _ _ Hl) in E. simplify_eq.
    split; [|done]. by apply (map_Forall_lookup_1 _ _ _ _ Hg) in Hl.
  - rewrite (context_of_None clock _ _ Hl) in E. simplify_eq.
    split; [by apply ordered_context_empty | simpl; lia].
Qed.

Lemma ordered_check_topic_change content ck nk c g c' notice g' :
  ordered_context (clock (time_calls g)) c →
  check_topic_change clock content ck nk c g = (c', notice, g') →
  ordered_context (clock (time_calls g')) c'
  ∧ time_calls g ≤ time_calls g'.
Proof.
  intros Hc. unfold check_topic_change.
  repeat case_match; intros; simplify_eq; simpl;
    (split; [first [done | by apply ordered_context_empty] | lia]).
Qed.

Lemma ordered_add_to_conversation_history u role content g :
  ordered_globals clock g →
  ordered_globals clock
    (add_to_conversation_history hash clock u role content g).2.
Proof.
  intros Hg.
  destruct (context_of clock u g) as [c0 g0] eqn:E.
  pose proof (context_of_spec clock _ _ _ _ E) as (Hh & _ & _).
  pose proof (ordered_context_of _ _ _ _ Hg E) as [Hc0 Hle0].
  destruct (decide (role = "user")) as [->|Hr].
  - destruct (check_topic_change clock content
                (default ∅ (user_topics g0 !! u))
                (extract_topic_keywords hash content) c0 g0)
      as [[c1 notice] g1] eqn:E2.
    rewrite (add_user_message hash clock _ _ _ _ _ _ _ _ E E2).
    pose proof (ordered_check_topic_change _ _ _ _ _ _ _ _ Hc0 E2)
      as [Hc1 Hle1].
    apply check_topic_change_globals in E2 as (Hh1 & _ & _).
    eapply (ordered_globals_store g _ u); [done| | |].
    + simpl. by rewrite Hh1, Hh, insert_insert_eq.
    + simpl. lia.
    + apply (ordered_context_add_message _ _ _ (time_calls g1) (time_calls g1));
        [lia | exact Hc1].
  - rewrite (add_other_message hash clock _ _ _ _ _ _ Hr E).
    eapply (ordered_globals_store g _ u); [done| | |].
    + simpl. by rewrite Hh, insert_insert_eq.
    + simpl. lia.
    + apply (ordered_context_add_message _ _ _ (time_calls g0) (time_calls g0));
        [lia | exact Hc0].
Qed.

Lemma ordered_do_call g c :
  ordered_globals clock g → ordered_globals clock (do_call hash clock g c).
Proof.
  intros Hg. destruct c as [u|u role content|u]; simpl.
  - unfold get_conversation_history.
    destruct (context_of clock u g) as [c0 g0] eqn:E.
    pose proof (context_of_spec clock _ _ _ _ E) as (Hh & _ & _).
    pose proof (ordered_context_of _ _ _ _ Hg E) as [Hc0 Hle0].
    simpl. by eapply (ordered_globals_store g _ u).
  - by apply ordered_add_to_conversation_history.
  - unfold clear_user_context.
    destruct (conversation_histories g !! u) as [c|] eqn:Hl; [|done].
    simpl. eapply (ordered_globals_store g _ u); [done| | |].
    + by case_bool_decide.
    + case_bool_decide; simpl; lia.
    + by apply ordered_context_empty.
Qed.

Lemma ordered_run_calls calls g :
  ordered_globals clock g → ordered_globals clock (run_calls hash clock calls g).
Proof.
  revert g. induction calls as [|c calls IH]; intros g Hg; [done|].
  apply IH. by apply ordered_do_call.
Qed.

End Ordered.

(** X8.  When every reading of the clock is later than the one before, the
    stored messages of a user are pairwise distinct, and a read with
    tracked keywords gives the older messages that share a keyword with
    them, followed by the last four messages. *)
Theorem increasing_clock_selection (hash : PyHash) (clock : nat → Z)
    (calls : list Call) (u : Z) (c : ConversationContext) :
  increasing clock →
  let g := run_calls hash clock calls initial_globals in
  conversation_histories g !! u = Some c →
  NoDup (messages c)
  ∧ ∀ k, user_topics g !! u = Some k → k ≠ ∅ →
      (get_conversation_history clock u g).1 =
      map role_and_content (recent_and_related k (messages c)).
Proof.
  intros Hclock g Hc.
  assert (ordered_globals clock g) as Hg.
  { apply ordered_run_calls; [done|]. apply map_Forall_empty. }
  pose proof (map_Forall_lookup_1 _ _ _ _ Hg Hc) as Hord.
  apply ordered_context_NoDup in Hord.
  split; [done|]. intros k Hk Hne.
  by apply get_conversation_history_distinct.
Qed.

Lemma increasing_clock_selection_witness :
  ∃ c,
    conversation_histories
      (run_calls insertion_order Z.of_nat twice_ok initial_globals) !! 1%Z
    = Some c
    ∧ NoDup (messages c).
Proof.
  eexists. split; [reflexivity|].
  eapply (increasing_clock_selection insertion_order Z.of_nat twice_ok 1).
  - intros n m Hnm. lia.
  - reflexivity.
Defined.

(** ** Properties of the user database *)

Lemma PLANS_free : PLANS !! "free" = Some free_plan.
Proof. vm_compute. reflexivity. Qed.

Lemma PLANS_premium_plus :
  PLANS !! "premium_plus"
  = Some {| daily_images := -1; daily_tokens_limit := -1 |}.
Proof. vm_compute. reflexivity. Qed.

Lemma PLANS_premium :
  PLANS !! "premium"
  = Some {| daily_images := 50; daily_tokens_limit := 500000 |}.
Proof. vm_compute. reflexivity. Qed.

Lemma PLANS_names plan :
  is_Some (PLANS !! plan) ↔
  plan = "free" ∨ plan = "premium" ∨ plan = "premium_plus".
Proof.
  split.
  - intros Hp. apply elem_of_dom in Hp.
    assert (dom PLANS = ({["free"; "premium"; "premium_plus"]} : gset string))
      as Hd by (by_compute).
    rewrite Hd in Hp. set_solver.
  - intros [-> | [-> | ->]]; by_compute.
Qed.

Lemma check_user_limits_unlimited r tools :
  plan_name r = "premium_plus" → check_user_limits r tools = (true, LimitsOkay).
Proof.
  intros Hp. unfold check_user_limits. rewrite Hp, PLANS_premium_plus. simpl.
  by destruct (has_image_tool tools).
Qed.

(** X9.  A user who is not in the table is created on the plan
    "premium_plus" with no usage, and their row is stored; whoever is on
    that plan passes the check of the limits, whatever they have used and
    whatever the tools. *)
Theorem new_user_is_unlimited (t : Z) (user_data : TelegramUser)
    (db : Database) :
  users db !! tg_id user_data = None →
  let r := get_or_create_user t user_data db in
  users r.2 !! tg_id user_data = Some r.1
  ∧ r.1 = new_user_row t user_data
  ∧ usage_stats r.2 = usage_stats db
  ∧ (∀ v, v ≠ tg_id user_data → users r.2 !! v = users db !! v)
  ∧ ∀ images tokens tools,
      check_user_limits (with_usage images tokens r.1) tools
      = (true, LimitsOkay).
Proof.
  intros Hl r. subst r. unfold get_or_create_user. rewrite Hl. simpl.
  split_and!; try done.
  - by rewrite lookup_insert_eq.
  - intros v Hv. by rewrite lookup_insert_ne.
  - intros. by apply check_user_limits_unlimited.
Qed.

Lemma new_user_is_unlimited_witness :
  let ada := {| tg_id := 7; tg_first_name := "Ada"; tg_username := None |} in
  check_user_limits
    (with_usage 1000 1000000 (get_or_create_user 0 ada empty_database).1)
    image_request
  = (true, LimitsOkay).
Proof.
  intros ada.
  apply (new_user_is_unlimited 0 ada empty_database).
  reflexivity.
Defined.

(** X10.  For a user who is in the table, the counters of the day are set
    to zero when the last visit was on an earlier day and kept when it was
    on the same day; the visit and the names of the user are recorded, and
    the row returned is the row stored. *)
Theorem daily_counters_reset (t : Z) (user_data : TelegramUser)
    (db : Database) (user : UserRow) :
  users db !! tg_id user_data = Some user →
  let r := get_or_create_user t user_data db in
  users r.2 !! tg_id user_data = Some r.1
  ∧ last_seen r.1 = t
  ∧ first_name r.1 = tg_first_name user_data
  ∧ username r.1 = tg_username user_data
  ∧ ((date_of (last_seen user) < date_of t)%Z →
     daily_images_used r.1 = 0%Z ∧ daily_tokens_used r.1 = 0%Z)
  ∧ ((date_of t ≤ date_of (last_seen user))%Z →
     daily_images_used r.1 = daily_images_used user
     ∧ daily_tokens_used r.1 = daily_tokens_used user).
Proof.
  intros Hl r. subst r. unfold get_or_create_user. rewrite Hl.
  cbn [fst snd users]. rewrite lookup_insert_eq.
  split_and!; try done.
  - intros Hlt. apply Z.ltb_lt in Hlt. rewrite Hlt.
    by repeat case_match.
  - intros Hle. apply Z.ltb_ge in Hle. rewrite Hle.
    by repeat case_match.
Qed.

Lemma daily_counters_reset_witness :
  let db := database_of (with_usage 0 500 (new_user_row 0 ada)) in
  daily_tokens_used (get_or_create_user 20 ada db).1 = 500%Z
  ∧ daily_tokens_used
      (get_or_create_user (microseconds_per_day + 5) ada db).1 = 0%Z.
Proof.
  intros db. split.
  - destruct (daily_counters_reset 20 ada db
                (with_usage 0 500 (new_user_row 0 ada)) eq_refl)
      as (_ & _ & _ & _ & _ & Hsame).
    destruct Hsame as [_ Htokens]; [vm_compute; discriminate|].
    exact Htokens.
  - destruct (daily_counters_reset (microseconds_per_day + 5) ada db
                (with_usage 0 500 (new_user_row 0 ada)) eq_refl)
      as (_ & _ & _ & _ & Hlater & _).
    destruct Hlater as [_ Htokens]; [by_compute|].
    exact Htokens.
Defined.

Ltac ltb_facts :=
  repeat match goal with
         | H : (_ <? _)%Z = true |- _ => apply Z.ltb_lt in H
         | H : (_ <? _)%Z = false |- _ => apply Z.ltb_ge in H
         end.

Lemma update_user_unknown f user_id db :
  users db !! user_id = None → update_user f user_id db = db.
Proof.
  intros Hl. unfold update_user. rewrite alter_id' by done. by destruct db.
Qed.

Lemma add_days_spec t days e :
  add_days t days = Some e ↔
  (Z.abs days ≤ 999999999)%Z
  ∧ e = (t + days * microseconds_per_day)%Z
  ∧ (0 ≤ e ≤ datetime_max)%Z.
Proof.
  unfold add_days, timedelta_days, is_datetime.
  destruct (Z.abs days <=? 999999999)%Z eqn:Ed.
  - apply Z.leb_le in Ed. cbv zeta.
    destruct (0 <=? t + days * microseconds_per_day)%Z eqn:E0;
      destruct (t + days * microseconds_per_day <=? datetime_max)%Z eqn:E1;
      cbn [andb];
      rewrite ?Z.leb_le, ?Z.leb_gt in *;
      (split; [intros [= <-] | intros (_ & -> & ? & ?)]);
      first [done | lia | split_and!; done].
  - apply Z.leb_gt in Ed. split; [done|]. intros (? & _). lia.
Qed.

(** X11.  A paid plan that is set for a number of days holds until that
    time has passed: when the expiry can be computed, the plan is set, the
    next visit of the user up to the expiry keeps plan, expiry and model,
    and a later visit puts the user on the plan "free" with the model of
    that plan and removes the expiry; when the number of days is too large
    for [timedelta] or leads outside the years 1 to 9999, [set_user_plan]
    raises.  A plan set without duration is kept at every later visit. *)
Theorem plan_expires (t0 t : Z) (user_data : TelegramUser) (plan : string)
    (duration_days : option Z) (db : Database) :
  is_Some (users db !! tg_id user_data) →
  plan = "premium" ∨ plan = "premium_plus" →
  match duration_days with
  | Some days =>
      match add_days t0 days with
      | Some expiry =>
          ∃ db',
            set_user_plan t0 (tg_id user_data) plan (Some days) db
            = Some (true, db')
            ∧ let r := (get_or_create_user t user_data db').1 in
              ((t ≤ expiry)%Z →
               plan_name r = plan
               ∧ subscription_expiry_date r = Some expiry
               ∧ current_model r = "mistral-large-latest")
              ∧ ((expiry < t)%Z →
                 plan_name r = "free"
                 ∧ subscription_expiry_date r = None
                 ∧ current_model r = "mistral-medium-latest")
      | None =>
          set_user_plan t0 (tg_id user_data) plan (Some days) db = None
      end
  | None =>
      ∃ db',
        set_user_plan t0 (tg_id user_data) plan None db = Some (true, db')
        ∧ let r := (get_or_create_user t user_data db').1 in
          plan_name r = plan ∧ subscription_expiry_date r = None
          ∧ current_model r = "mistral-large-latest"
  end.
Proof.
  intros [user Hu] Hplan. unfold set_user_plan.
  assert (is_Some (PLANS !! plan)) as Hp by (apply PLANS_names; tauto).
  assert (plan ≠ "free") as Hnf by (by destruct Hplan as [-> | ->]).
  rewrite (bool_decide_eq_true_2 _ Hp). cbn [negb].
  rewrite (bool_decide_eq_true_2 (is_Some (users db !! tg_id user_data)))
    by by eexists.
  rewrite (bool_decide_eq_false_2 (plan = "free")) by done.
  destruct duration_days as [days|].
  - destruct (add_days t0 days) as [expiry|]; cbn [fmap option_fmap option_map];
      [|done].
    eexists. split; [reflexivity|].
    unfold get_or_create_user, update_user. cbn [users fst].
    rewrite lookup_alter_eq, Hu.
    cbn [fmap option_fmap option_map plan_name subscription_expiry_date
         last_seen].
    rewrite (bool_decide_eq_false_2 (plan = "free")) by done. simpl.
    split; intros Hd; repeat case_match; ltb_facts; simpl in *;
      try lia; done.
  - eexists. split; [reflexivity|].
    unfold get_or_create_user, update_user. cbn [users fst].
    rewrite lookup_alter_eq, Hu.
    cbn [fmap option_fmap option_map plan_name subscription_expiry_date
         last_seen].
    rewrite (bool_decide_eq_false_2 (plan = "free")) by done. simpl.
    by repeat case_match.
Qed.

Lemma plan_expires_witness :
  let db := database_of (new_user_row 0 ada) in
  (∃ db', set_user_plan 10 7 "premium" (Some 30%Z) db = Some (true, db'))
  ∧ set_user_plan 10 7 "premium" (Some 4000000%Z) db = None.
Proof.
  intros db. split.
  - destruct (plan_expires 10 20 ada "premium" (Some 30%Z) db)
      as (db' & Hs & _); [by eexists | by left |].
    by exists db'.
  - apply (plan_expires 10 20 ada "premium" (Some 4000000%Z) db);
      [by eexists | by left].
Defined.

(** X12.  [set_user_plan] raises exactly when the plan is one of the three
    plans and a duration is given whose expiry cannot be computed (more
    than 999999999 days in magnitude, or a date outside the years 1 to
    9999).  Otherwise it answers [True] exactly when the plan is one of
    the three plans and the user is in the table; when it answers [False]
    the database is unchanged.  It never changes other users or the usage
    log, and on success only plan, expiry and model of the row change. *)
Theorem set_user_plan_spec (t : Z) (user_id : Z) (plan : string)
    (duration_days : option Z) (db : Database) :
  let s := set_user_plan t user_id plan duration_days db in
  (s = None ↔
   (plan = "free" ∨ plan = "premium" ∨ plan = "premium_plus")
   ∧ ∃ days, duration_days = Some days
             ∧ ¬ ((Z.abs days ≤ 999999999)%Z
                  ∧ (0 ≤ t + days * microseconds_per_day ≤ datetime_max)%Z))
  ∧ ∀ answer db',
      s = Some (answer, db') →
      (answer = true ↔
       (plan = "free" ∨ plan = "premium" ∨ plan = "premium_plus")
       ∧ is_Some (users db !! user_id))
      ∧ (answer = false → db' = db)
      ∧ usage_stats db' = usage_stats db
      ∧ (∀ v, v ≠ user_id → users db' !! v = users db !! v)
      ∧ (∀ user, answer = true → users db !! user_id = Some user →
           ∃ r, users db' !! user_id = Some r
                ∧ plan_name r = plan
                ∧ subscription_expiry_date r
                  = (days ← duration_days; add_days t days)
                ∧ current_model r
                  = (if bool_decide (plan = "free")
                     then "mistral-medium-latest"
                     else "mistral-large-latest")
                ∧ daily_images_used r = daily_images_used user
                ∧ daily_tokens_used r = daily_tokens_used user
                ∧ first_name r = first_name user ∧ username r = username user
                ∧ last_seen r = last_seen user).
Proof.
  intros s. subst s. unfold set_user_plan.
  pose proof (PLANS_names plan) as Hnames.
  assert (∀ days, add_days t days = None ↔
                  ¬ ((Z.abs days ≤ 999999999)%Z
                     ∧ (0 ≤ t + days * microseconds_per_day
                        ≤ datetime_max)%Z)) as Hnone.
  { intros days. split.
    - intros Hn (Hd & Hr).
      assert (add_days t days = Some (t + days * microseconds_per_day)%Z)
        as Hs by (by apply add_days_spec).
      congruence.
    - intros Hn. destruct (add_days t days) as [e|] eqn:E; [|done].
      apply add_days_spec in E as (? & -> & ?). by destruct Hn. }
  destruct (decide (is_Some (PLANS !! plan))) as [Hp|Hp].
  - rewrite (bool_decide_eq_true_2 _ Hp). cbn [negb].
    assert (∀ expiry_date answer db',
              Some
                (bool_decide (is_Some (users db !! user_id)),
                 update_user
                   (λ r, {| first_name := first_name r; username := username r;
                            plan_name := plan;
                            daily_images_used := daily_images_used r;
                            daily_tokens_used := daily_tokens_used r;
                            subscription_expiry_date := expiry_date;
                            last_seen := last_seen r;
                            current_model :=
                              if bool_decide (plan = "free")
                              then "mistral-medium-latest"
                              else "mistral-large-latest" |})
                   user_id db) = Some (answer, db') →
              (answer = true ↔
               (plan = "free" ∨ plan = "premium" ∨ plan = "premium_plus")
               ∧ is_Some (users db !! user_id))
              ∧ (answer = false → db' = db)
              ∧ usage_stats db' = usage_stats db
              ∧ (∀ v, v ≠ user_id → users db' !! v = users db !! v)
              ∧ (∀ user, answer = true → users db !! user_id = Some user →
                   ∃ r, users db' !! user_id = Some r
                        ∧ plan_name r = plan
                        ∧ subscription_expiry_date r = expiry_date
                        ∧ current_model r
                          = (if bool_decide (plan = "free")
                             then "mistral-medium-latest"
                             else "mistral-large-latest")
                        ∧ daily_images_used r = daily_images_used user
                        ∧ daily_tokens_used r = daily_tokens_used user
                        ∧ first_name r = first_name user
                        ∧ username r = username user
                        ∧ last_seen r = last_seen user)) as Hdone.
    { intros expiry_date answer db' [= <- <-]. split_and!.
      - rewrite bool_decide_eq_true. tauto.
      - intros Hf. apply bool_decide_eq_false in Hf.
        apply update_user_unknown.
        destruct (users db !! user_id); [|done]. destruct Hf. by eexists.
      - done.
      - intros v Hv. unfold update_user. simpl. by rewrite lookup_alter_ne.
      - intros user _ Hu. unfold update_user. simpl.
        rewrite lookup_alter_eq, Hu. simpl. by eexists. }
    destruct duration_days as [days|]; cbn [mbind option_bind].
    + destruct (add_days t days) as [expiry|] eqn:E;
        cbn [fmap option_fmap option_map].
      * split; [|apply Hdone].
        split; [done|]. intros (_ & d & [= <-] & Hn).
        apply Hnone in Hn. congruence.
      * split; [|done]. split; [|done]. intros _.
        split; [tauto|]. exists days. split; [done|]. by apply Hnone.
    + split; [|apply Hdone].
      split; [done|]. by intros (_ & d & ? & _).
  - rewrite (bool_decide_eq_false_2 _ Hp). cbn [negb].
    split.
    + split; [done|]. tauto.
    + intros answer db' [= <- <-]. split_and!; try done.
      split; [done|]. tauto.
Qed.

Lemma set_user_plan_spec_witness :
  let db := database_of (new_user_row 0 ada) in
  set_user_plan 10 8 "premium" None db = Some (false, db)
  ∧ set_user_plan 10 7 "gold" (Some 30%Z) db = Some (false, db)
  ∧ set_user_plan 10 7 "premium" (Some 1000000000%Z) db = None.
Proof.
  intros db.
  split_and!.
  - reflexivity.
  - reflexivity.
  - apply (set_user_plan_spec 10 7 "premium" (Some 1000000000%Z) db).
    split; [tauto|]. eexists. split; [reflexivity|].
    intros [Hd _]. simpl in Hd. lia.
Defined.

Section Usage.

Variable t : Z.
Variable user_id : Z.

Lemma users_log_usage tokens images db :
  users (log_usage t user_id tokens images db) = users db.
Proof. done. Qed.

Lemma logged_log_usage tokens images db :
  logged user_id (date_of t) (log_usage t user_id tokens images db)
  = ((logged user_id (date_of t) db).1 + tokens,
     (logged user_id (date_of t) db).2 + images)%Z.
Proof.
  unfold logged, log_usage. simpl.
  destruct (usage_stats db !! (user_id, date_of t)) as [[a b]|] eqn:E;
    by rewrite lookup_insert_eq.
Qed.

Lemma logged_log_usage_other tokens images db v day :
  (v, day) ≠ (user_id, date_of t) →
  logged v day (log_usage t user_id tokens images db) = logged v day db.
Proof.
  intros Hne. unfold logged, log_usage. simpl.
  destruct (usage_stats db !! (user_id, date_of t)) as [[a b]|] eqn:E;
    by rewrite lookup_insert_ne.
Qed.

Lemma logged_fst db :
  default 0%Z (fst <$> usage_stats db !! (user_id, date_of t))
  = (logged user_id (date_of t) db).1.
Proof.
  unfold logged. by destruct (usage_stats db !! (user_id, date_of t)) as [[? ?]|].
Qed.

End Usage.

(** X13.  [update_token_usage] raises [OverflowError] when the number of
    tokens does not fit a 64-bit integer, and leaves a REAL in the counter
    when the sum does not; in the range of the 64-bit integers, it and
    [increment_image_usage] raise the counter of the day of the user and
    the usage logged for the user and the day by the same amount, leave
    the other counter as it is, and change no other user and no other
    day. *)
Theorem usage_is_counted_and_logged (t : Z) (user_id : Z) (db : Database)
    (user : UserRow) :
  users db !! user_id = Some user →
  (∀ token_count,
     is_int64 token_count = false →
     update_token_usage t user_id token_count db = SqlOverflowError)
  ∧ (∀ token_count,
       is_int64 token_count = true →
       is_int64 (daily_tokens_used user + token_count) = false →
       update_token_usage t user_id token_count db = SqlReal)
  ∧ (∀ token_count,
       is_int64 token_count = true →
       is_int64 (daily_tokens_used user + token_count) = true →
       is_int64 ((logged user_id (date_of t) db).1 + token_count) = true →
       ∃ db',
         update_token_usage t user_id token_count db = SqlDone db'
         ∧ users db' !! user_id =
           Some (with_usage (daily_images_used user)
                   (daily_tokens_used user + token_count) user)
         ∧ logged user_id (date_of t) db' =
           ((logged user_id (date_of t) db).1 + token_count,
            (logged user_id (date_of t) db).2 + 0)%Z
         ∧ (∀ v, v ≠ user_id → users db' !! v = users db !! v)
         ∧ (∀ v day, (v, day) ≠ (user_id, date_of t) →
              logged v day db' = logged v day db))
  ∧ (is_int64 (daily_images_used user + 1) = true →
     is_int64 ((logged user_id (date_of t) db).2 + 1) = true →
     let db' := increment_image_usage t user_id db in
     users db' !! user_id =
       Some (with_usage (daily_images_used user + 1)
               (daily_tokens_used user) user)
     ∧ logged user_id (date_of t) db' =
       ((logged user_id (date_of t) db).1 + 0,
        (logged user_id (date_of t) db).2 + 1)%Z
     ∧ (∀ v, v ≠ user_id → users db' !! v = users db !! v)
     ∧ (∀ v day, (v, day) ≠ (user_id, date_of t) →
          logged v day db' = logged v day db)).
Proof.
  intros Hu. split_and!.
  - intros token_count Hn. unfold update_token_usage. by rewrite Hn.
  - intros token_count Hn Hs. unfold update_token_usage.
    rewrite Hn, Hu. cbn [negb fmap option_fmap option_map default].
    unfold id. by rewrite Hs.
  - intros token_count Hn Hs Hl. unfold update_token_usage.
    change (usage_stats (update_user _ user_id db)) with (usage_stats db).
    rewrite (logged_fst t user_id db), Hl, Hn, Hu.
    cbn [negb fmap option_fmap option_map default]. unfold id.
    rewrite Hs. cbn [negb]. eexists. split; [reflexivity|].
    rewrite logged_log_usage, users_log_usage.
    unfold update_user. cbn [users usage_stats].
    split_and!.
    + by rewrite lookup_alter_eq, Hu.
    + done.
    + intros v Hv. by rewrite lookup_alter_ne.
    + intros v day Hne. by rewrite logged_log_usage_other.
  - intros _ _ db'. subst db'. unfold increment_image_usage.
    rewrite logged_log_usage, users_log_usage.
    unfold update_user. cbn [users usage_stats].
    split_and!.
    + by rewrite lookup_alter_eq, Hu.
    + done.
    + intros v Hv. by rewrite lookup_alter_ne.
    + intros v day Hne. by rewrite logged_log_usage_other.
Qed.

Lemma usage_is_counted_and_logged_witness :
  let db := database_of (new_user_row 0 ada) in
  (∃ db',
     update_token_usage 5 7 120 db = SqlDone db'
     ∧ logged 7 0 db' = (120, 0)%Z)
  ∧ update_token_usage 5 7 (2 ^ 63) db = SqlOverflowError
  ∧ logged 7 0 (increment_image_usage 5 7 db) = (0, 1)%Z.
Proof.
  intros db.
  destruct (usage_is_counted_and_logged 5 7 db (new_user_row 0 ada) eq_refl)
    as (Hover & _ & Htokens & Himage).
  split_and!.
  - destruct (Htokens 120%Z eq_refl eq_refl eq_refl)
      as (db' & Hd & _ & Hlog & _).
    exists db'. split; [exact Hd | exact Hlog].
  - apply Hover. reflexivity.
  - destruct (Himage eq_refl eq_refl) as (_ & Hlog & _). exact Hlog.
Defined.

Lemma users_increment_image_usage t user_id db user (n : nat) :
  users db !! user_id = Some user →
  users (Nat.iter n (increment_image_usage t user_id) db) !! user_id
  = Some (with_usage (daily_images_used user + Z.of_nat n) (daily_tokens_used user)
            user).
Proof.
  intros Hu. induction n as [|n IH].
  - simpl. rewrite Hu, Z.add_0_r. by destruct user.
  - rewrite Nat.iter_succ. unfold increment_image_usage at 1.
    rewrite users_log_usage. unfold update_user. cbn [users].
    rewrite lookup_alter_eq, IH. simpl. unfold with_usage. simpl.
    do 2 f_equal. lia.
Qed.

(** X14.  A user on the plan "free" who has made [n] more images today is
    let through for a further image exactly as long as fewer than three
    are counted, while the check of a text request is not affected by
    images; at the first visit on a later day an image is allowed
    again. *)
Theorem free_image_quota (t t' : Z) (user_data : TelegramUser)
    (db : Database) (user : UserRow) (n : nat) :
  users db !! tg_id user_data = Some user →
  plan_name user = "free" →
  let db' := Nat.iter n (increment_image_usage t (tg_id user_data)) db in
  ∃ r,
    users db' !! tg_id user_data = Some r
    ∧ daily_images_used r = (daily_images_used user + Z.of_nat n)%Z
    ∧ ((check_user_limits r image_request).1 = true ↔
       (daily_images_used user + Z.of_nat n < 3)%Z)
    ∧ (∀ tools, has_image_tool tools = false →
         check_user_limits r tools = check_user_limits user tools)
    ∧ ((date_of (last_seen user) < date_of t')%Z →
       check_user_limits (get_or_create_user t' user_data db').1 image_request
       = (true, LimitsOkay)).
Proof.
  intros Hu Hfree db'. subst db'.
  pose proof (users_increment_image_usage t _ _ _ n Hu) as Hn.
  eexists. split; [exact Hn|]. split_and!.
  - done.
  - unfold check_user_limits. simpl. rewrite Hfree, PLANS_free. simpl.
    destruct (3 <=? daily_images_used user + Z.of_nat n)%Z eqn:E; simpl.
    + apply Z.leb_le in E. split; [done|lia].
    + apply Z.leb_gt in E. done.
  - intros tools Ht. unfold check_user_limits. by rewrite Ht.
  - intros Hlater. unfold get_or_create_user. rewrite Hn.
    cbn [fst last_seen with_usage plan_name subscription_expiry_date].
    apply Z.ltb_lt in Hlater. rewrite Hlater, Hfree.
    rewrite (bool_decide_eq_true_2 ("free" = "free")) by done.
    cbn [negb andb]. unfold check_user_limits.
    cbn [touch reset_daily_usage plan_name with_usage daily_images_used].
    by rewrite Hfree, PLANS_free.
Qed.

Lemma free_image_quota_witness :
  let db := database_of free_row in
  ∃ r,
    users (Nat.iter 3 (increment_image_usage 2 7) db) !! 7%Z = Some r
    ∧ daily_images_used r = 3%Z.
Proof.
  intros db.
  destruct (free_image_quota 2 3 ada db free_row 3 eq_refl eq_refl)
    as (r & Hr & Hcount & _).
  exists r. split; [exact Hr | exact Hcount].
Defined.

(** ** The end of a job *)

Lemma mentions_spec phrase e :
  Py.contains phrase (Py.lower e) = true ↔ mentions phrase e.
Proof.
  unfold Py.contains, mentions. rewrite chars_lower.
  apply contains_chars_spec.
Qed.

(** X15.  The message of the outer handler is chosen by the first of these
    tests that holds of the text of the exception, case ignored: it
    mentions "rate limit"; "api key" or "unauthorized"; "timeout";
    "network" or "connection"; none of them. *)
Theorem classify_error_spec (e : string) :
  (classify_error e = RateLimit ↔ mentions "rate limit" e)
  ∧ (classify_error e = AuthenticationIssue ↔
     ¬ mentions "rate limit" e
     ∧ (mentions "api key" e ∨ mentions "unauthorized" e))
  ∧ (classify_error e = RequestTimeout ↔
     ¬ mentions "rate limit" e ∧ ¬ mentions "api key" e
     ∧ ¬ mentions "unauthorized" e ∧ mentions "timeout" e)
  ∧ (classify_error e = ConnectionIssue ↔
     ¬ mentions "rate limit" e ∧ ¬ mentions "api key" e
     ∧ ¬ mentions "unauthorized" e ∧ ¬ mentions "timeout" e
     ∧ (mentions "network" e ∨ mentions "connection" e))
  ∧ (classify_error e = TechnicalIssue ↔
     ¬ mentions "rate limit" e ∧ ¬ mentions "api key" e
     ∧ ¬ mentions "unauthorized" e ∧ ¬ mentions "timeout" e
     ∧ ¬ mentions "network" e ∧ ¬ mentions "connection" e).
Proof.
  rewrite <- !mentions_spec. unfold classify_error.
  destruct (Py.contains "rate limit" (Py.lower e));
    destruct (Py.contains "api key" (Py.lower e));
    destruct (Py.contains "unauthorized" (Py.lower e));
    destruct (Py.contains "timeout" (Py.lower e));
    destruct (Py.contains "network" (Py.lower e));
    destruct (Py.contains "connection" (Py.lower e));
    simpl; intuition congruence.
Qed.

Section Exchange.

Variable hash : PyHash.
Variable clock : nat → Z.

(** A message of the user followed by a message of another role. *)
Lemma exchange_stored u prompt role content g :
  role ≠ "user" →
  let g1 := (add_to_conversation_history hash clock u "user" prompt g).2 in
  let r := add_to_conversation_history hash clock u role content g1 in
  r.1 = None
  ∧ (∃ earlier,
       stored_history u r.2 = earlier ++ [("user", prompt); (role, content)])
  ∧ user_topics r.2 !! u = Some (extract_topic_keywords hash prompt).
Proof.
  intros Hr g1 r. subst r g1.
  destruct (add_to_conversation_history_stored hash clock u "user" prompt g)
    as (c1 & b & t & Hh & Hm & Ht).
  rewrite bool_decide_eq_true_2 in Hm, Ht by done.
  set (g1 := (add_to_conversation_history hash clock u "user" prompt g).2)
    in *.
  assert (conversation_histories g1 !! u = Some c1) as Hc1
    by (by rewrite Hh, lookup_insert_eq).
  rewrite (add_other_message hash clock _ _ _ _ _ _ Hr
             (context_of_Some clock _ _ _ Hc1)).
  cbn [fst snd]. split_and!; [done| |].
  - unfold stored_history, store_context. cbn [snd conversation_histories].
    rewrite lookup_insert_eq. cbn [fmap option_fmap option_map default].
    rewrite messages_add_message.
    destruct (deque_append_suffix MAX_HISTORY_LENGTH
                (new_message role content None (now clock g1))
                (messages c1) b _ Hm)
      as [b' Hb]; [simpl; unfold MAX_HISTORY_LENGTH; lia|].
    unfold id. rewrite Hb, map_app. by eexists.
  - simpl. by rewrite Ht, lookup_insert_eq.
Qed.

End Exchange.



(** X17.  When the third call of the model raises too, the job fails with
    the message that the text of the third exception selects; the message
    is sent if the update has a message, nothing is charged and, for a job
    without image tool, no message of the assistant is stored: the history
    ends with the prompt. *)
Theorem failed_job_reports (hash : PyHash) (clock : nat → Z)
    (render_tool_calls : list (string * string) → string) (job : Job)
    (g : Globals) (e1 e2 e3 : string) (rest : list Attempt) :
  ∃ g' tr,
    worker_job hash clock render_tool_calls job
      (Raises e1 :: Raises e2 :: Raises e3 :: rest) g
    = Some (JobFailed (classify_error e3), g', tr,
            if job_has_message job then [ReplyError (classify_error e3)]
            else [])
    ∧ length (model_calls tr) = 3
    ∧ (wants_image job = false →
       ∃ earlier,
         stored_history (job_user_id job) g'
         = earlier ++ [("user", job_prompt job)]).
Proof.
  unfold worker_job, run_job.
  rewrite (retry_loop_raise hash clock job e1) by (unfold max_retries; lia).
  destruct (prepare_call hash clock job (job_prompt job) None g)
    as [[[c1 p1] crm1] g1] eqn:E1.
  rewrite (retry_loop_raise hash clock job e2) by (unfold max_retries; lia).
  destruct (prepare_call hash clock job p1 crm1 g1)
    as [[[c2 p2] crm2] g2] eqn:E2.
  rewrite (retry_loop_last_raise hash clock job e3) by done.
  destruct (prepare_call hash clock job p2 crm2 g2)
    as [[[c3 p3] crm3] g3] eqn:E3.
  cbn [finish_job handle_error]. eexists _, _.
  split_and!.
  - reflexivity.
  - pose proof (prepare_call_kind hash clock job (job_prompt job) None g) as K1.
    pose proof (prepare_call_kind hash clock job p1 crm1 g1) as K2.
    pose proof (prepare_call_kind hash clock job p2 crm2 g2) as K3.
    rewrite E1 in K1. rewrite E2 in K2. rewrite E3 in K3.
    cbn [fst] in K1, K2, K3.
    destruct c1, c2, c3; try discriminate.
    by destruct (job_has_message job).
  - intros Hw. rewrite (prepare_call_text hash clock job _ _ _ Hw) in E3.
    injection E3 as _ _ _ <-. unfold attempt.
    destruct (add_to_conversation_history_stored hash clock (job_user_id job)
                "user" (job_prompt job)
                (get_conversation_history clock (job_user_id job) g2).2)
      as (c & b & t & Hh & Hmsg & _).
    unfold stored_history. rewrite Hh, lookup_insert_eq. simpl.
    rewrite Hmsg, map_app. by eexists.
Qed.

(** X18.  A job with the image tool sends the prompt to the model behind a
    fixed prefix and stores nothing: when the call gives the path of a
    picture, the history and the tracked keywords of the user are as
    before, an image is charged, and the file is removed after the photo
    is sent.  Without a message to reply to the photo is not sent and the
    job fails, but the image is charged and the file removed all the
    same. *)
Theorem image_job_completes (hash : PyHash) (clock : nat → Z)
    (render_tool_calls : list (string * string) → string) (job : Job)
    (g : Globals) (path : string) (rest : list Attempt) :
  wants_image job = true → path ≠ "" → ends_with ".png" path = true →
  ∃ g',
    worker_job hash clock render_tool_calls job
      (Returns (ResultStr path) :: rest) g
    = Some (if job_has_message job then JobDone
            else JobFailed TechnicalIssue,
            g',
            [ModelCall
               ("Generate a high-quality, detailed image of: "
                +:+ job_prompt job)
               (get_conversation_history clock (job_user_id job) g).1],
            if job_has_message job
            then [IncrementImageUsage (job_user_id job); ReplyPhoto path;
                  RemoveFile path]
            else [IncrementImageUsage (job_user_id job); RemoveFile path])
    ∧ stored_history (job_user_id job) g' = stored_history (job_user_id job) g
    ∧ user_topics g' = user_topics g.
Proof.
  intros Hw Hne Hpng.
  unfold worker_job, run_job.
  rewrite (retry_loop_return hash clock job (ResultStr path))
    by (done || unfold max_retries; lia).
  unfold prepare_call. rewrite Hw. cbn [negb].
  destruct (get_conversation_history clock (job_user_id job) g)
    as [history g'] eqn:E.
  cbn [finish_job]. rewrite (bool_decide_eq_false_2 (path = "")) by done.
  rewrite Hpng. unfold finish_image, handle_error.
  assert (classify_error (none_attribute_error "reply_photo") = TechnicalIssue)
    as -> by (vm_compute; reflexivity).
  exists g'. split_and!.
  - by destruct (job_has_message job).
  - unfold stored_history.
    destruct (conversation_histories g !! job_user_id job) as [c|] eqn:Hc.
    + rewrite (get_conversation_history_Some clock _ _ _ Hc) in E.
      injection E as _ <-. by rewrite Hc.
    + unfold get_conversation_history in E.
      rewrite (context_of_None clock _ _ Hc) in E.
      injection E as _ <-. simpl. by rewrite lookup_insert_eq.
  - destruct (get_conversation_history_stored clock (job_user_id job) g)
      as (c & _ & Ht).
    by rewrite E in Ht.
Qed.

Lemma image_job_completes_witness :
  ∃ g',
    worker_job insertion_order Z.of_nat (λ _, "calls")
      {| job_user_id := 1; job_has_message := false;
         job_prompt := "a red kite";
         job_tools := [BuiltinTool "image_generation"] |}
      [Returns (ResultStr "out/kite.png")] initial_globals
    = Some (JobFailed TechnicalIssue, g',
            [ModelCall
               "Generate a high-quality, detailed image of: a red kite" []],
            [IncrementImageUsage 1; RemoveFile "out/kite.png"])
    ∧ stored_history 1 g' = []
    ∧ user_topics g' = ∅.
Proof.
  apply (image_job_completes insertion_order Z.of_nat (λ _, "calls")
           {| job_user_id := 1; job_has_message := false;
              job_prompt := "a red kite";
              job_tools := [BuiltinTool "image_generation"] |}
           initial_globals "out/kite.png" []).
  - reflexivity.
  - discriminate.
  - reflexivity.
Defined.

(** ** Sending a reply *)

Lemma strip_blank text :
  bool_decide (Py.strip (Py.chars text) = []) = true ↔ blank text.
Proof. rewrite bool_decide_eq_true. apply strip_nil. Qed.

(** X19.  [send_formatted_message] sends nothing for a blank text.
    Otherwise it calls [reply_text] up to three times and stops at the
    first call that is accepted; it raises only when the last call, which
    then carries the text as it is and no parse mode, was refused too.  A
    text with markdown or a code block goes out first as it is in the mode
    "Markdown", and the mode "MarkdownV2" is only used for a text with
    neither, when it is the preferred mode. *)
Theorem send_formatted_message_spec (escape_markdown : string → string)
    (outcome : nat → bool) (text parse_mode_preference : string) :
  let r := send_formatted_message escape_markdown outcome text
             parse_mode_preference in
  (blank text → r = ([], true))
  ∧ (¬ blank text →
     ∃ n,
       length r.1 = S n ∧ n ≤ 2
       ∧ (∀ i, i < n → outcome i = false)
       ∧ r.2 = outcome n
       ∧ (r.2 = false →
          last r.1 = Some {| reply_text := text; reply_mode := ModePlain |})
       ∧ (has_markdown text || has_code_blocks text = true →
          head r.1
          = Some {| reply_text := text; reply_mode := ModeMarkdown |})
       ∧ (∀ reply, reply ∈ r.1 → reply_mode reply = ModeMarkdownV2 →
            parse_mode_preference = "MarkdownV2"
            ∧ has_markdown text || has_code_blocks text = false
            ∧ reply_text reply = escape_markdown text)).
Proof.
  intros r. subst r. unfold send_formatted_message, try_reply.
  split.
  - intros Hb%strip_blank. by rewrite Hb.
  - intros Hb. rewrite <- strip_blank in Hb. apply not_true_is_false in Hb.
    rewrite Hb.
    destruct (has_markdown text) eqn:Hm; destruct (has_code_blocks text) eqn:Hc;
      destruct (bool_decide (parse_mode_preference = "MarkdownV2")) eqn:Hp;
      destruct (outcome 0) eqn:H0; destruct (outcome 1) eqn:H1;
      destruct (outcome 2) eqn:H2;
      cbn [orb andb negb length app fst snd]; rewrite ?H0, ?H1, ?H2;
      cbn [fst snd length app];
      try (apply bool_decide_eq_true in Hp);
      (first
         [ exists 0; split_and!; [reflexivity | lia | intros i Hi; lia | done
                                 | try done | try done | ]
         | exists 1; split_and!; [reflexivity | lia
                                 | intros [|i] Hi; [done | lia] | done
                                 | try done | try done | ]
         | exists 2; split_and!; [reflexivity | lia
                                 | intros [|[|i]] Hi; [done | done | lia]
                                 | done | try done | try done | ] ]);
      intros reply Hin Hmode;
      repeat (apply elem_of_cons in Hin as [-> | Hin]; [try discriminate|]);
      try (by apply elem_of_nil in Hin); done.
Qed.

Lemma send_formatted_message_spec_witness :
  ∃ n,
    length (send_formatted_message (λ s, s) (λ i, bool_decide (i = 2))
              "**Done** in `3` steps" "Markdown").1 = S n
    ∧ n ≤ 2.
Proof.
  destruct (send_formatted_message_spec (λ s, s) (λ i, bool_decide (i = 2))
              "**Done** in `3` steps" "Markdown") as [_ H].
  destruct H as (n & Hn & Hle & _).
  - intros Hb. apply strip_blank in Hb. vm_compute in Hb. discriminate.
  - exists n. split; [exact Hn | exact Hle].
Defined.

(** ** Queueing a job *)

Lemma length_str s : String.length (Py.str s) = length s.
Proof.
  induction s as [|c s IH]; [done|]. simpl. by rewrite <- IH.
Qed.

Lemma validate_true text max_length cleaned e :
  validate_and_sanitize_input text max_length = (true, cleaned, e) →
  cleaned = Py.str (normalize_whitespace text) ∧ e = NoError
  ∧ 3 ≤ String.length cleaned ≤ max_length
  ∧ ¬ blank text.
Proof.
  unfold validate_and_sanitize_input. case_match eqn:Hb; [done|].
  cbv zeta. case_match eqn:Hl; [done|]. case_match eqn:Hs; [done|].
  case_match; [done|]. intros [= <- <-].
  apply Nat.ltb_ge in Hl, Hs. rewrite length_str.
  split_and!; [done|done|lia|lia|].
  intros Hbl%blank_spec. congruence.
Qed.

(** X20.  A job is queued only for an update with a user who passes the
    check of the limits for the tools of the request, and with a prompt
    that passes the validation: the prompt of the job is the validated,
    whitespace-normalized form of what the user typed, or of "Hello" when
    they typed nothing, and has 3 to 4000 characters.  The tools of the
    request come first among the tools of the job.  The handler replies at
    most once, and only when the update has a message. *)
Theorem queue_job_handler_admission (json_valid : string → bool) (t : Z)
    (update : Update) (args : option (list string))
    (custom_functions : list CustomFunction) (tools : list Tool)
    (db : Database) :
  let r := queue_job_handler json_valid t update args custom_functions tools
             db in
  length r.1.1 ≤ 1
  ∧ (upd_message update = None → r.1.1 = [])
  ∧ ∀ job, r.1.2 = Some job →
      ∃ user_data raw,
        effective_user update = Some user_data
        ∧ job_user_id job = tg_id user_data
        ∧ job_has_message job = bool_decide (is_Some (upd_message update))
        ∧ r.2 = (get_or_create_user t user_data db).2
        ∧ check_user_limits (get_or_create_user t user_data db).1 tools
          = (true, LimitsOkay)
        ∧ raw = (if bool_decide (typed_prompt update args = "") then "Hello"
                 else typed_prompt update args)
        ∧ validate_and_sanitize_input raw 4000
          = (true, job_prompt job, NoError)
        ∧ 3 ≤ String.length (job_prompt job) ≤ 4000
        ∧ tools `prefix_of` job_tools job
        ∧ r.1.1
          = reply_if_message update
              (ReplyThinking (thinking_message (job_tools job))).
Proof.
  intros r. subst r. unfold queue_job_handler.
  generalize 4000. intros max_length.
  destruct (effective_user update) as [user_data|];
    [|by split_and!; [simpl; lia|done|]].
  destruct (get_or_create_user t user_data db) as [user db'] eqn:Eu.
  destruct (check_user_limits user tools) as [can_proceed message] eqn:El.
  assert (∀ x, length (reply_if_message update x) ≤ 1
               ∧ (upd_message update = None → reply_if_message update x = []))
    as Hreply.
  { intros x. unfold reply_if_message. split.
    - case_bool_decide; simpl; lia.
    - intros ->. by rewrite bool_decide_eq_false_2 by by intros [? ?]. }
  destruct can_proceed; cbn [negb];
    [|split_and!; [apply Hreply|apply Hreply|done]].
  case_match eqn:Himg;
    [split_and!; [apply Hreply|apply Hreply|done]|].
  destruct (validate_and_sanitize_input _ max_length)
    as [[is_valid clean] e] eqn:Ev.
  destruct is_valid; cbn [negb];
    [|split_and!; [apply Hreply|apply Hreply|done]].
  cbn [fst snd]. split_and!; [apply Hreply|apply Hreply|].
  intros job [= <-]. cbn [job_user_id job_has_message job_prompt job_tools].
  pose proof (validate_true _ _ _ _ Ev) as (_ & -> & Hlen & _).
  assert (message = LimitsOkay) as ->.
  { unfold check_user_limits in El. by repeat case_match; simplify_eq. }
  eexists user_data, _. rewrite Eu. cbn [fst snd].
  split_and!.
  - reflexivity.
  - reflexivity.
  - reflexivity.
  - reflexivity.
  - exact El.
  - reflexivity.
  - exact Ev.
  - lia.
  - lia.
  - by apply prefix_app_r.
  - reflexivity.
Qed.

(** X21.  A user over the limit of the request is refused before the
    prompt is looked at: no job is queued whatever was typed, and the only
    reply is the message of the limit.  The visit is recorded all the
    same. *)
Theorem queue_job_handler_limit_first (json_valid : string → bool) (t : Z)
    (update : Update) (args : option (list string))
    (custom_functions : list CustomFunction) (tools : list Tool)
    (db : Database) (user_data : TelegramUser) (message : LimitMessage) :
  effective_user update = Some user_data →
  check_user_limits (get_or_create_user t user_data db).1 tools
  = (false, message) →
  queue_job_handler json_valid t update args custom_functions tools db
  = (reply_if_message update (ReplyLimit message), None,
     (get_or_create_user t user_data db).2).
Proof.
  intros Hu Hl. unfold queue_job_handler. rewrite Hu.
  destruct (get_or_create_user t user_data db) as [user db'] eqn:Eu.
  cbn [fst snd] in *. by rewrite Hl.
Qed.

Lemma queue_job_handler_limit_first_witness :
  let db := Nat.iter 3 (increment_image_usage 2 7) (database_of free_row) in
  let update := {| effective_user := Some ada;
                   upd_message := Some (Some "/image a red kite") |} in
  (queue_job_handler (λ _, true) 3 update (Some ["a"; "red"; "kite"]) []
     image_request db).1
  = ([ReplyLimit (ImageLimitReached 3)], None).
Proof.
  intros db update.
  rewrite (queue_job_handler_limit_first (λ _, true) 3 update
             (Some ["a"; "red"; "kite"]) [] image_request db ada
             (ImageLimitReached 3) eq_refl).
  - reflexivity.
  - vm_compute. reflexivity.
Defined.

(** X22.  When nothing was typed, a request with the image tool that comes
    from a command is answered with "Image Description Required" and not
    queued; any other request of a user within the limits is queued with
    the prompt "Hello". *)
Theorem queue_job_handler_empty_prompt (json_valid : string → bool) (t : Z)
    (update : Update) (args : option (list string))
    (custom_functions : list CustomFunction) (tools : list Tool)
    (db : Database) (user_data : TelegramUser) :
  effective_user update = Some user_data →
  typed_prompt update args = "" →
  (check_user_limits (get_or_create_user t user_data db).1 tools).1 = true →
  let r := queue_job_handler json_valid t update args custom_functions tools
             db in
  (has_image_tool tools = true → is_Some args →
   r.1 = (reply_if_message update ReplyDescriptionRequired, None))
  ∧ (has_image_tool tools = false ∨ args = None →
     ∃ job, r.1.2 = Some job ∧ job_prompt job = "Hello").
Proof.
  intros Hu Ht Hl r. subst r.
  assert (validate_and_sanitize_input "Hello" 4000 = (true, "Hello", NoError))
    as Hv by (vm_compute; reflexivity).
  unfold queue_job_handler. rewrite Hu, Ht.
  rewrite (bool_decide_eq_true_2 ("" = "")) by done.
  revert Hv. generalize 4000. intros max_length Hv.
  destruct (get_or_create_user t user_data db) as [user db'] eqn:Eu.
  cbn [fst snd] in Hl.
  destruct (check_user_limits user tools) as [can_proceed message] eqn:El.
  cbn [fst snd] in Hl. subst can_proceed. cbn [negb andb].
  assert (∀ fs, has_image_tool
                  (tools ++ map (λ f, FunctionTool (fn_name f)
                                        (fn_description f)) fs)
                = has_image_tool tools) as Himg.
  { intros fs. unfold has_image_tool. apply bool_decide_ext.
    rewrite elem_of_app, list_elem_of_fmap. split; [|by left].
    intros [?|(f & Hf & _)]; [done|discriminate]. }
  rewrite Himg. split.
  - intros Hi Ha. rewrite Hi, (bool_decide_eq_true_2 _ Ha). done.
  - intros Hcase.
    assert (has_image_tool tools && bool_decide (is_Some args) = false) as ->.
    { destruct Hcase as [-> | ->]; [done|].
      rewrite (bool_decide_eq_false_2 (is_Some None)) by by intros [? ?].
      by rewrite andb_false_r. }
    rewrite Hv. cbn [negb fst snd]. by eexists.
Qed.

Lemma queue_job_handler_empty_prompt_witness :
  let ada := {| tg_id := 7; tg_first_name := "Ada"; tg_username := None |} in
  let update := {| effective_user := Some ada; upd_message := Some None |} in
  ∃ job,
    (queue_job_handler (λ _, true) 3 update None [] image_request
       empty_database).1.2 = Some job
    ∧ job_prompt job = "Hello".
Proof.
  intros ada update.
  apply (queue_job_handler_empty_prompt (λ _, true) 3 update None []
           image_request empty_database ada eq_refl eq_refl eq_refl).
  by right.
Defined.

(** ** Splitting a long reply *)

Lemma length_chars s : length (Py.chars s) = String.length s.
Proof. induction s as [|c s IH]; [done|]. simpl. by rewrite <- IH. Qed.






Lemma message_parts_one text max_length :
  String.length text ≤ max_length → message_parts text max_length = [text].
Proof.
  intros Hle. unfold message_parts. rewrite length_chars.
  apply Nat.leb_le in Hle. by rewrite Hle.
Qed.



(** ** The cleaned prompt *)

Lemma fields_sep_free sep r : sep_free sep r → Py.fields sep r = [r].
Proof.
  induction 1 as [|c r Hc Hr IH]; [done|].
  cbn [Py.fields]. by rewrite Hc, IH.
Qed.

Lemma fields_app_sep sep r c s :
  sep_free sep r → sep c = true →
  Py.fields sep (r ++ c :: s) = r :: Py.fields sep s.
Proof.
  intros Hr Hc. induction Hr as [|x r Hx Hr IH].
  - cbn [app Py.fields]. by rewrite Hc.
  - cbn [app Py.fields]. by rewrite Hx, IH.
Qed.

Lemma split_join_space parts :
  Forall is_plain_word parts → Py.split (Py.join_space parts) = parts.
Proof.
  unfold Py.split. induction 1 as [|p parts [Hne Hp] Hparts IH]; [done|].
  destruct parts as [|q parts].
  - cbn [Py.join_space]. rewrite fields_sep_free by done.
    by rewrite filter_cons_True, filter_nil.
  - change (Py.join_space (p :: q :: parts))
      with (p ++ " "%char :: Py.join_space (q :: parts)).
    rewrite fields_app_sep by done.
    by rewrite filter_cons_True, IH.
Qed.

Lemma split_plain s : Forall is_plain_word (Py.split s).
Proof.
  apply Forall_forall. intros p Hp. unfold Py.split in Hp.
  apply list_elem_of_filter in Hp as [Hne Hp].
  apply elem_of_fields in Hp as (_ & _ & _ & Hfree & _). by split.
Qed.

Lemma lstrip_id s :
  (∀ c, head s = Some c → Py.is_space c = false) → Py.lstrip s = s.
Proof.
  destruct s as [|c s]; [done|]. intros H. simpl. by rewrite (H c).
Qed.

Lemma strip_id s :
  (∀ c, head s = Some c → Py.is_space c = false) →
  (∀ c, last s = Some c → Py.is_space c = false) →
  Py.strip s = s.
Proof.
  intros Hh Hl. unfold Py.strip. rewrite (lstrip_id s Hh).
  rewrite lstrip_id; [apply reverse_involutive|].
  intros c. rewrite head_reverse. apply Hl.
Qed.

Lemma join_space_nonempty p parts :
  p ≠ [] → Py.join_space (p :: parts) ≠ [].
Proof. destruct parts; destruct p; done. Qed.

Lemma head_join_space parts c :
  Forall is_plain_word parts →
  head (Py.join_space parts) = Some c → Py.is_space c = false.
Proof.
  intros Hparts. destruct Hparts as [|p parts [Hne Hp] _]; [done|].
  assert (head (Py.join_space (p :: parts)) = head p) as ->.
  { destruct parts; [done|]. by destruct p. }
  destruct p as [|x p]; [done|]. intros [= ->].
  by apply Forall_cons in Hp as [? _].
Qed.

Lemma last_join_space parts c :
  Forall is_plain_word parts →
  last (Py.join_space parts) = Some c → Py.is_space c = false.
Proof.
  induction 1 as [|p parts [Hne Hp] Hparts IH]; [done|].
  destruct parts as [|q parts].
  - cbn [Py.join_space]. intros Hl.
    apply last_Some_elem_of in Hl.
    unfold sep_free in Hp. rewrite Forall_forall in Hp. by apply Hp.
  - change (Py.join_space (p :: q :: parts))
      with (p ++ " "%char :: Py.join_space (q :: parts)).
    rewrite last_app, last_cons.
    destruct (last (Py.join_space (q :: parts))) as [y|] eqn:El.
    + intros [= ->]. by apply IH.
    + apply last_None in El.
      apply Forall_cons in Hparts as [[Hq _] _].
      by apply join_space_nonempty in El.
Qed.

Lemma normalize_whitespace_idempotent text :
  Py.strip (normalize_whitespace text) = normalize_whitespace text
  ∧ normalize_whitespace (Py.str (normalize_whitespace text))
    = normalize_whitespace text.
Proof.
  unfold normalize_whitespace at 1 2 4.
  pose proof (split_plain (Py.strip (Py.chars text))) as Hp.
  assert (Py.strip (Py.join_space (Py.split (Py.strip (Py.chars text))))
          = Py.join_space (Py.split (Py.strip (Py.chars text)))) as Hs.
  { apply strip_id; intros c.
    - by apply head_join_space.
    - by apply last_join_space. }
  split; [exact Hs|].
  unfold normalize_whitespace. rewrite chars_str, Hs.
  by rewrite split_join_space.
Qed.

(** X24.  A prompt that has been accepted and cleaned is accepted again
    and comes back unchanged: the cleaned text has no whitespace at its
    ends, and cleaning it gives the same text. *)
Theorem validate_and_sanitize_input_idempotent (text : string)
    (max_length : nat) (cleaned : string) (e : ErrorMessage) :
  validate_and_sanitize_input text max_length = (true, cleaned, e) →
  validate_and_sanitize_input cleaned max_length = (true, cleaned, NoError)
  ∧ Py.strip (Py.chars cleaned) = Py.chars cleaned.
Proof.
  intros Hv.
  pose proof (validate_true _ _ _ _ Hv) as (-> & -> & Hlen & _).
  pose proof (normalize_whitespace_idempotent text) as [Hs Hn].
  rewrite chars_str. split; [|exact Hs].
  rewrite length_str in Hlen.
  unfold validate_and_sanitize_input in *.
  rewrite Hn, chars_str, Hs.
  revert Hv Hlen. generalize (normalize_whitespace text). intros n Hv Hlen.
  rewrite (bool_decide_eq_false_2 (Py.str n = "")).
  2: { intros Hn0. apply (f_equal String.length) in Hn0.
       rewrite length_str in Hn0. simpl in Hn0. lia. }
  rewrite (bool_decide_eq_false_2 (n = [])) by (by destruct n; simpl in Hlen; [lia|]).
  cbn [orb]. repeat case_match; simplify_eq; done.
Qed.

Lemma validate_and_sanitize_input_idempotent_witness :
  validate_and_sanitize_input "hello world" 4000
  = (true, "hello world", NoError).
Proof.
  apply (validate_and_sanitize_input_idempotent
           "  hello    world " 4000 "hello world" NoError).
  vm_compute. reflexivity.
Defined.

(** ** What a job charges *)

Lemma add_assistant_frame hash clock u content g :
  user_topics (add_to_conversation_history hash clock u "assistant" content g).2
  = user_topics g
  ∧ ∀ v, v ≠ u →
      conversation_histories
        (add_to_conversation_history hash clock u "assistant" content g).2 !! v
      = conversation_histories g !! v.
Proof.
  destruct (add_to_conversation_history_stored hash clock u "assistant"
              content g) as (c & b & t & Hh & _ & Ht).
  rewrite bool_decide_eq_false_2 in Ht by done.
  split; [done|]. intros v Hv. by rewrite Hh, lookup_insert_ne.
Qed.

(** X25.  The end of a job charges the user at most once: one image for a
    result that is the path of a picture, tokens for any other text that is
    not empty, and nothing for a call that raised, for an empty result and
    for tool calls; this does not depend on whether the reply can be
    sent.  Whatever the result, the tracked keywords stay as they are and
    the contexts of the other users are not touched. *)
Theorem job_end_charges_once (hash : PyHash) (clock : nat → Z)
    (render_tool_calls : list (string * string) → string) (job : Job)
    (exit : LoopExit) (g : Globals) :
  let r := finish_job hash clock render_tool_calls job exit g in
  filter (λ e, is_usage e) r.2
  = match exit with
    | LoopResult (ResultStr text) prompt_to_send _ =>
        if bool_decide (text = "") then []
        else if ends_with ".png" text
        then [IncrementImageUsage (job_user_id job)]
        else [UpdateTokenUsage (job_user_id job)
                (String.length prompt_to_send / 4 + String.length text / 4)]
    | _ => []
    end
  ∧ user_topics r.1.2 = user_topics g
  ∧ ∀ v, v ≠ job_user_id job →
      conversation_histories r.1.2 !! v = conversation_histories g !! v.
Proof.
  intros r. subst r.
  pose proof (add_assistant_frame hash clock (job_user_id job)) as Hframe.
  destruct exit as [[|text|type calls] p crm|e]; cbn [finish_job].
  - unfold finish_no_response, handle_error.
    by destruct (job_has_message job).
  - case_bool_decide.
    { unfold finish_no_response, handle_error.
      by destruct (job_has_message job). }
    destruct (ends_with ".png" text).
    { unfold finish_image, handle_error.
      by destruct (job_has_message job). }
    unfold finish_text, handle_error.
    destruct (Hframe text g) as [Ht Hh].
    destruct (job_has_message job); [by destruct crm|].
    case_match; by destruct crm.
  - case_bool_decide; [|done].
    unfold finish_tool_calls, handle_error.
    destruct (Hframe (render_tool_calls calls) g) as [Ht Hh].
    by destruct (job_has_message job).
  - unfold handle_error. by destruct (job_has_message job).
Qed.

(** X26.  When the first call of a job without image tool gives a dict,
    nothing is charged.  For tool calls the text that presents them is
    stored as the answer of the assistant, after the prompt; it is sent
    when the update has a message, and without a message the job fails
    with "Technical Issue" and sends nothing.  A dict of any other type
    ends the job without a reply and without an error, with or without
    message, and only the prompt is stored. *)
Theorem dict_result_job (hash : PyHash) (clock : nat → Z)
    (render_tool_calls : list (string * string) → string) (job : Job)
    (g : Globals) (type : string) (calls : list (string * string))
    (rest : list Attempt) :
  wants_image job = false →
  ∃ g' tr earlier,
    worker_job hash clock render_tool_calls job
      (Returns (ResultDict type calls) :: rest) g
    = Some (if bool_decide (type = "tool_calls")
               && negb (job_has_message job)
            then JobFailed TechnicalIssue else JobDone,
            g', tr,
            if bool_decide (type = "tool_calls") && job_has_message job
            then [ReplyToolCalls (render_tool_calls calls)] else [])
    ∧ length (model_calls tr) = 1
    ∧ stored_history (job_user_id job) g'
      = earlier
        ++ ("user", job_prompt job)
           :: (if bool_decide (type = "tool_calls")
               then [("assistant", render_tool_calls calls)] else []).
Proof.
  intros Hw.
  pose proof (retry_loop_text hash clock job [] (ResultDict type calls) rest 0
                None g [] Hw) as Hrun.
  cbv zeta in Hrun.
  destruct Hrun as (tr & Hrun & Hcalls);
    [done | unfold max_retries; simpl; lia |].
  unfold worker_job, run_job.
  change (Returns (ResultDict type calls) :: rest)
    with (map Raises [] ++ Returns (ResultDict type calls) :: rest).
  rewrite Hrun. cbn [finish_job]. unfold attempt in *. cbn [attempts length].
  set (g0 := (get_conversation_history clock (job_user_id job) g).2) in *.
  assert (classify_error (none_attribute_error "reply_text") = TechnicalIssue)
    as Hclass by (vm_compute; reflexivity).
  case_bool_decide.
  - unfold finish_tool_calls, handle_error. rewrite Hclass.
    pose proof (exchange_stored hash clock (job_user_id job) (job_prompt job)
                  "assistant" (render_tool_calls calls) g0) as Hx.
    cbv zeta in Hx. destruct Hx as (_ & [earlier Hs] & _); [done|].
    destruct (job_has_message job); cbn [andb negb];
      eexists _, _, earlier;
      (split; [reflexivity|]); (split; [exact Hcalls|]); exact Hs.
  - destruct (add_to_conversation_history_stored hash clock (job_user_id job)
                "user" (job_prompt job) g0) as (c & b & t & Hh & Hmsg & _).
    eexists _, _, (map role_and_content b).
    split; [reflexivity|]. split; [exact Hcalls|].
    unfold stored_history. rewrite Hh, lookup_insert_eq. simpl.
    by rewrite Hmsg, map_app.
Qed.

Lemma dict_result_job_witness :
  ∃ g' tr earlier,
    worker_job insertion_order Z.of_nat (λ _, "calls")
      (text_job "explain lifetimes" false)
      [Returns (ResultDict "tool_calls" [("lookup", "{}")])] initial_globals
    = Some (JobFailed TechnicalIssue, g', tr, [])
    ∧ length (model_calls tr) = 1
    ∧ stored_history 1 g'
      = earlier ++ [("user", "explain lifetimes"); ("assistant", "calls")].
Proof.
  apply (dict_result_job insertion_order Z.of_nat (λ _, "calls")
           (text_job "explain lifetimes" false) initial_globals "tool_calls"
           [("lookup", "{}")] [] eq_refl).
Defined.

(** X27.  A job without image tool and without message to reply to, whose
    call gives a text that is not blank, is no path of a picture and fits
    one message, fails with
    "Technical Issue" and sends nothing; the tokens are charged and the
    text is stored as the answer of the assistant all the same. *)
Theorem undeliverable_text_is_charged (hash : PyHash) (clock : nat → Z)
    (render_tool_calls : list (string * string) → string) (job : Job)
    (g : Globals) (text : string) (rest : list Attempt) :
  wants_image job = false → job_has_message job = false →
  ¬ blank text → String.length text ≤ 4096 → ends_with ".png" text = false →
  ∃ g' tr earlier,
    worker_job hash clock render_tool_calls job
      (Returns (ResultStr text) :: rest) g
    = Some (JobFailed TechnicalIssue, g', tr,
            [UpdateTokenUsage (job_user_id job)
               (String.length (job_prompt job) / 4 + String.length text / 4)])
    ∧ stored_history (job_user_id job) g'
      = earlier ++ [("user", job_prompt job); ("assistant", text)].
Proof.
  intros Hw Hm Hb Hlen Hpng.
  assert (text ≠ "") as Hne by (intros ->; apply Hb; constructor).
  pose proof (retry_loop_text hash clock job [] (ResultStr text) rest 0
                None g [] Hw) as Hrun.
  cbv zeta in Hrun.
  destruct Hrun as (tr & Hrun & Hcalls);
    [done | unfold max_retries; simpl; lia |].
  unfold worker_job, run_job.
  change (Returns (ResultStr text) :: rest)
    with (map Raises [] ++ Returns (ResultStr text) :: rest).
  rewrite Hrun. cbn [finish_job].
  rewrite (bool_decide_eq_false_2 (text = "")) by done.
  rewrite Hpng. unfold finish_text, handle_error. rewrite Hm.
  assert (classify_error (none_attribute_error "reply_text") = TechnicalIssue)
    as -> by (vm_compute; reflexivity).
  assert (message_parts text 4096 = [text]) as ->
    by (by apply message_parts_one).
  cbn [existsb].
  rewrite (bool_decide_eq_false_2 (Py.strip (Py.chars text) = []))
    by (by rewrite strip_nil).
  cbn [negb orb]. rewrite orb_true_r.
  unfold attempt in *. cbn [attempts length].
  set (g0 := (get_conversation_history clock (job_user_id job) g).2) in *.
  pose proof (exchange_stored hash clock (job_user_id job) (job_prompt job)
                "assistant" text g0) as Hx.
  cbv zeta in Hx. destruct Hx as (_ & [earlier Hs] & _); [done|].
  eexists _, _, earlier. split; [reflexivity|]. exact Hs.
Qed.

Lemma undeliverable_text_is_charged_witness :
  ∃ g' tr earlier,
    worker_job insertion_order Z.of_nat (λ _, "calls")
      (text_job "explain lifetimes" false)
      [Returns (ResultStr "They bound references.")] initial_globals
    = Some (JobFailed TechnicalIssue, g', tr,
            [UpdateTokenUsage 1 (17 / 4 + 22 / 4)])
    ∧ stored_history 1 g'
      = earlier ++ [("user", "explain lifetimes");
                    ("assistant", "They bound references.")].
Proof.
  apply (undeliverable_text_is_charged insertion_order Z.of_nat (λ _, "calls")
           (text_job "explain lifetimes" false) initial_globals
           "They bound references." [] eq_refl eq_refl).
  - intros Hb. apply strip_nil in Hb. vm_compute in Hb. discriminate.
  - simpl. lia.
  - reflexivity.
Defined.

(** ** Examples *)

Example findall_alpha3_example :
  map Py.str
    (Py.findall_alpha3 (Py.chars "abc123 foo_bar hello x-men the-end ab abcd"))
  = ["hello"; "men"; "the"; "end"; "abcd"].
Proof. vm_compute. reflexivity. Qed.

Example normalize_whitespace_example :
  Py.str (normalize_whitespace "  a   b c  ") = "a b c".
Proof. vm_compute. reflexivity. Qed.

Example validate_whole_word_only :
  validate_and_sanitize_input "this is a Test" 4000 = (false, "", InvalidInput)
  ∧ validate_and_sanitize_input "testing x1111 aaab" 4000
    = (true, "testing x1111 aaab", NoError).
Proof. split; vm_compute; reflexivity. Qed.

Example detect_topic_change_example :
  detect_topic_change {["a"; "b"; "c"; "d"; "e"; "f"]}
    {["a"; "b"; "c"; "d"; "h"; "i"; "j"]} = false.
Proof. vm_compute. reflexivity. Qed.

Example assistant_turn_keeps_topic :
  let g := run_calls insertion_order Z.of_nat
             [AddMessage 7 "user" "tell me about rust lifetimes";
              AddMessage 7 "assistant" "sure thing"] initial_globals in
  user_topics g !! 7%Z = Some {["tell"; "rust"; "lifetimes"]}
  ∧ (get_conversation_history Z.of_nat 7 g).1
    = [("user", "tell me about rust lifetimes"); ("assistant", "sure thing")].
Proof. split; vm_compute; reflexivity. Qed.
